(** * Utility-command routing of the cluster coordinator (src/backend/tcop/utility.c)

    A shallow embedding of the ADB build of [utility.c]: the node target
    resolver ([ExecUtilityFindNodes], [ExecUtilityFindNodesRelkind]), the drop
    consistency checker ([DropStmtPreTreatment], [ExecDropStmt]), the remote
    dispatcher ([ExecRemoteUtilityStmt]), the transaction statement handler
    and the slow-path orchestrator ([ProcessUtilitySlow]) with its recursion
    through [ProcessUtility].

    The statement kinds covered are the transaction statements, CREATE
    [FOREIGN] TABLE, ALTER TABLE, CREATE INDEX, CREATE and ALTER SEQUENCE,
    DROP, CREATE ROLE (a fast-path kind that dispatches) and the
    remote-execution node.  The placement blocks of GRANT, of RENAME, ALTER
    ... DEPENDS ON EXTENSION and ALTER ... SET SCHEMA, and of CREATE RULE are
    embedded on their own, and so are the classifiers [CommandIsReadOnly],
    [check_xact_readonly], [UtilityContainsQuery] and [GetCommandLogLevel]
    over every statement kind ([Parsetree]).

    Conventions.
    - The build is the one with [ADB] defined and [AGTM], [ADBMGRD] undefined.
    - Functions of other files are collaborators.  A call to one is recorded
      as an [Event] in the trace, in program order; what it returns, and
      whether it raises, is read from the environment [Env].
    - [ereport(ERROR, ...)] is the outcome [Raise]; [PG_TRY]/[PG_CATCH] is
      [PG_TRY].  Out-parameters ([bool *is_temp]) are returned in a pair.
    - [ProcessUtility] calls itself through the generated sub-statements, so
      it is defined by recursion on a fuel argument. *)

From Stdlib Require Import List String Ascii Bool NArith ZArith Lia.
Import ListNotations.
Open Scope string_scope.
Open Scope list_scope.

Set Implicit Arguments.
Set Warnings "-register-all".

(* ------------------------------------------------------------------ *)
(** ** Catalog coordinates and enumerations *)

Definition Oid := N.
Definition InvalidOid : Oid := 0%N.
Definition OidIsValid (objectId : Oid) : bool := negb (N.eqb objectId InvalidOid).

(** [char] constants of catalog/pg_class.h. *)
Definition RELKIND_RELATION : ascii := "r".
Definition RELKIND_INDEX : ascii := "i".
Definition RELKIND_SEQUENCE : ascii := "S".
Definition RELKIND_TOASTVALUE : ascii := "t".
Definition RELKIND_VIEW : ascii := "v".
Definition RELKIND_FOREIGN_TABLE : ascii := "f".
Definition RELKIND_MATVIEW : ascii := "m".
Definition RELPERSISTENCE_PERMANENT : ascii := "p".
Definition RELPERSISTENCE_TEMP : ascii := "t".

(** The placement enumerator of the remote-dispatch sub-protocol. *)
Inductive RemoteQueryExecType : Type :=
| EXEC_ON_DATANODES
| EXEC_ON_COORDS
| EXEC_ON_ALL_NODES
| EXEC_ON_NONE.

Scheme Equality for RemoteQueryExecType.

Inductive CombineType : Type :=
| COMBINE_TYPE_NONE
| COMBINE_TYPE_SUM
| COMBINE_TYPE_SAME.

Inductive ObjectType : Type :=
| OBJECT_ACCESS_METHOD | OBJECT_AGGREGATE | OBJECT_AMOP | OBJECT_AMPROC
| OBJECT_ATTRIBUTE | OBJECT_CAST | OBJECT_COLUMN | OBJECT_COLLATION
| OBJECT_CONVERSION | OBJECT_DATABASE | OBJECT_DEFAULT | OBJECT_DEFACL
| OBJECT_DOMAIN | OBJECT_DOMCONSTRAINT | OBJECT_EVENT_TRIGGER
| OBJECT_EXTENSION | OBJECT_FDW | OBJECT_FOREIGN_SERVER
| OBJECT_FOREIGN_TABLE | OBJECT_FUNCTION | OBJECT_INDEX | OBJECT_LANGUAGE
| OBJECT_LARGEOBJECT | OBJECT_MATVIEW | OBJECT_OPCLASS | OBJECT_OPERATOR
| OBJECT_OPFAMILY | OBJECT_POLICY | OBJECT_ROLE | OBJECT_RULE
| OBJECT_SCHEMA | OBJECT_SEQUENCE | OBJECT_TABCONSTRAINT | OBJECT_TABLE
| OBJECT_TABLESPACE | OBJECT_TRANSFORM | OBJECT_TRIGGER
| OBJECT_TSCONFIGURATION | OBJECT_TSDICTIONARY | OBJECT_TSPARSER
| OBJECT_TSTEMPLATE | OBJECT_TYPE | OBJECT_USER_MAPPING | OBJECT_VIEW.

(** The order of the constructors is the order of the C enumeration:
    [context <= PROCESS_UTILITY_QUERY] is [ProcessUtilityContext_rank]. *)
Inductive ProcessUtilityContext : Type :=
| PROCESS_UTILITY_TOPLEVEL
| PROCESS_UTILITY_QUERY
| PROCESS_UTILITY_SUBCOMMAND.

Definition ProcessUtilityContext_rank (context : ProcessUtilityContext) : nat :=
  match context with
  | PROCESS_UTILITY_TOPLEVEL => 0
  | PROCESS_UTILITY_QUERY => 1
  | PROCESS_UTILITY_SUBCOMMAND => 2
  end.

Inductive TransactionStmtKind : Type :=
| TRANS_STMT_BEGIN
| TRANS_STMT_START
| TRANS_STMT_COMMIT
| TRANS_STMT_ROLLBACK
| TRANS_STMT_SAVEPOINT
| TRANS_STMT_RELEASE
| TRANS_STMT_ROLLBACK_TO
| TRANS_STMT_PREPARE
| TRANS_STMT_COMMIT_PREPARED
| TRANS_STMT_ROLLBACK_PREPARED.

(** The sub-command kinds of ALTER TABLE that [utility.c] tells apart (the
    three cluster-membership kinds and [AT_DistributeBy]) and a few of the
    ordinary ones. *)
Inductive AlterTableType : Type :=
| AT_AddColumn
| AT_DropColumn
| AT_AddIndex
| AT_AddConstraint
| AT_DropConstraint
| AT_SetTableSpace
| AT_DistributeBy
| AT_SubCluster
| AT_AddNodeList
| AT_DeleteNodeList.

(* ------------------------------------------------------------------ *)
(** ** Errors *)

Inductive ErrCode : Type :=
| ERRCODE_INTERNAL_ERROR
| ERRCODE_UNDEFINED_OBJECT
| ERRCODE_UNDEFINED_TABLE
| ERRCODE_FEATURE_NOT_SUPPORTED
| ERRCODE_SYNTAX_ERROR
| ERRCODE_STATEMENT_TOO_COMPLEX
| ERRCODE_READ_ONLY_SQL_TRANSACTION
| ERRCODE_INVALID_TRANSACTION_STATE
| ERRCODE_INSUFFICIENT_PRIVILEGE
| ERRCODE_NO_ACTIVE_SQL_TRANSACTION
| ERRCODE_ACTIVE_SQL_TRANSACTION.

Record ErrorData : Type := mkError { errcode : ErrCode; errmsg : string }.

(** [elog(ERROR, msg)]. *)
Definition elog_ERROR (msg : string) : ErrorData := mkError ERRCODE_INTERNAL_ERROR msg.

(** What a computation ends in: a value, a raised error, or the fuel of
    [ProcessUtility] running out. *)
Inductive Outcome (A : Type) : Type :=
| Ok (a : A)
| Raise (e : ErrorData)
| OutOfFuel.

Arguments Ok {A} a.
Arguments Raise {A} e.
Arguments OutOfFuel {A}.

(* ------------------------------------------------------------------ *)
(** ** Parse-tree nodes *)

Record RangeVar : Type := mkRangeVar {
  schemaname : option string;
  relname : string;
  relpersistence : ascii
}.

Record DefElem : Type := mkDefElem { defname : string; arg : string }.

Record ObjectAddress : Type := mkObjectAddress {
  classId : Oid;
  objectId : Oid;
  objectSubId : Z
}.

Definition InvalidObjectAddress : ObjectAddress := mkObjectAddress InvalidOid InvalidOid 0.

Record TransactionStmt : Type := mkTransactionStmt {
  kind : TransactionStmtKind;
  options : list DefElem;
  gid : string;
  trans_missing_ok : bool
}.

Record CreateStmt : Type := mkCreateStmt {
  relation : RangeVar;
  create_options : list DefElem;
  distributeby : bool        (* [stmt->distributeby != NULL] *)
}.

Record AlterTableCmd : Type := mkAlterTableCmd { subtype : AlterTableType }.

Record AlterTableStmt : Type := mkAlterTableStmt {
  at_relation : RangeVar;
  cmds : list AlterTableCmd;
  relkind : ObjectType;
  at_missing_ok : bool
}.

Record IndexStmt : Type := mkIndexStmt {
  idx_relation : RangeVar;
  idx_concurrent : bool;
  isconstraint : bool
}.

Record CreateSeqStmt : Type := mkCreateSeqStmt {
  sequence : RangeVar;
  is_serial : bool
}.

Record AlterSeqStmt : Type := mkAlterSeqStmt {
  alt_sequence : RangeVar;
  alt_is_serial : bool
}.

Record DropStmt : Type := mkDropStmt {
  objects : list (list string);
  removeType : ObjectType;
  missing_ok : bool;
  concurrent : bool
}.

(** The plan node handed to the transport.  [sql_node] is the statement
    saved by [saveNode], when there is one. *)
Record RemoteQueryOf (N : Type) : Type := mkRemoteQuery {
  sql_node : option N;
  combine_type : CombineType;
  exec_nodes : option (list Oid);
  sql_statement : string;
  rq_force_autocommit : bool;
  rq_exec_type : RemoteQueryExecType;
  rq_is_temp : bool
}.

(** The statement kinds of the model.  [T_CreateRoleStmt] stands for the
    fast-path kinds that run a catalog routine and then dispatch. *)
Inductive Node : Type :=
| T_TransactionStmt (stmt : TransactionStmt)
| T_CreateStmt (stmt : CreateStmt)
| T_CreateForeignTableStmt (stmt : CreateStmt)
| T_AlterTableStmt (stmt : AlterTableStmt)
| T_IndexStmt (stmt : IndexStmt)
| T_CreateSeqStmt (stmt : CreateSeqStmt)
| T_AlterSeqStmt (stmt : AlterSeqStmt)
| T_DropStmt (stmt : DropStmt)
| T_CreateRoleStmt (role : string)
| T_RemoteQuery (step : RemoteQueryOf Node).

Definition RemoteQuery := RemoteQueryOf Node.

Record RemoteUtilityContext : Type := mkRemoteUtilityContext {
  sentToRemote : bool;
  force_autocommit : bool;
  is_temp : bool;
  exec_type : RemoteQueryExecType;
  stmt : option Node;
  query : string;
  nodes : option (list Oid)
}.

(* ------------------------------------------------------------------ *)
(** ** Collaborator calls *)

(** The two places of [utility.c] that call the transport
    [ExecInterXactUtility]: the remote dispatcher, on the plan node it
    builds, and the [T_RemoteQuery] case of [standard_ProcessUtility], on the
    plan node it was given. *)
Inductive CallSite : Type :=
| site_ExecRemoteUtilityStmt
| site_T_RemoteQuery.

Inductive Event : Type :=
(* transport *)
| E_ExecInterXactUtility (site : CallSite) (step : RemoteQuery)
(* cluster lock *)
| E_pgxc_lock_for_utility_stmt (parsetree : Node)
(* transaction manager *)
| E_BeginTransactionBlock
| E_SetPGVariable (name : string) (value : string)
| E_EndTransactionBlock
| E_PrepareTransactionBlock (gid : string)
| E_SetCurrentXactPhase2
| E_SetCurrentXactPhase1
| E_FinishPreparedTransactionExt (gid : string) (isCommit : bool) (missing_ok : bool)
| E_UserAbortTransactionBlock
| E_DefineSavepoint (name : option string)
| E_ReleaseSavepoint (options : list DefElem)
| E_RollbackToSavepoint (options : list DefElem)
(* change notification *)
| E_EventTriggerBeginCompleteQuery
| E_EventTriggerEndCompleteQuery
| E_EventTriggerDDLCommandStart (parsetree : Node)
| E_EventTriggerCollectSimpleCommand (address secondaryObject : ObjectAddress) (parsetree : Node)
| E_EventTriggerSQLDrop (parsetree : Node)
| E_EventTriggerDDLCommandEnd (parsetree : Node)
| E_EventTriggerAlterTableStart (parsetree : Node)
| E_EventTriggerAlterTableRelid (relid : Oid)
| E_EventTriggerAlterTableEnd
(* command counter *)
| E_CommandCounterIncrement
(* catalog command handlers and parse analysis *)
| E_transformCreateStmt (stmt : CreateStmt)
| E_DefineRelation (stmt : CreateStmt) (relkind : ascii)
| E_transformRelOptions (options : list DefElem)
| E_heap_reloptions (relkind : ascii)
| E_NewRelationCreateToastTable (relOid : Oid)
| E_CreateForeignTable (stmt : CreateStmt) (relid : Oid)
| E_AlterTableLookupRelation (stmt : AlterTableStmt)
| E_transformAlterTableStmt (relid : Oid) (stmt : AlterTableStmt)
| E_AlterTable (relid : Oid) (stmt : AlterTableStmt)
| E_RangeVarGetRelidExtended (relation : RangeVar)
| E_transformIndexStmt (relid : Oid) (stmt : IndexStmt)
| E_DefineIndex (relid : Oid) (stmt : IndexStmt)
| E_DefineSequence (stmt : CreateSeqStmt)
| E_AlterSequence (stmt : AlterSeqStmt)
| E_CreateRole (role : string)
| E_RemoveRelations (stmt : DropStmt)
| E_RemoveObjects (stmt : DropStmt)
| E_get_object_address (stmt : DropStmt)
| E_relation_close (relid : Oid)
(* messages below ERROR *)
| E_ereport_NOTICE (msg : string).

Definition Trace := list Event.

(** A computation: the calls it made, in order, and how it ended. *)
Definition M (A : Type) : Type := (Trace * Outcome A)%type.

Definition ret {A} (a : A) : M A := ([], Ok a).

Definition raise {A} (e : ErrorData) : M A := ([], Raise e).

Definition bind {A B} (m : M A) (f : A -> M B) : M B :=
  match m with
  | (t, Ok a) => let (t', r) := f a in (t ++ t', r)
  | (t, Raise e) => (t, Raise e)
  | (t, OutOfFuel) => (t, OutOfFuel)
  end.

Declare Scope m_scope.
Delimit Scope m_scope with m.
Notation "x <- m ;; k" := (bind m (fun x => k))
  (at level 61, m at next level, right associativity) : m_scope.
Notation "' p <- m ;; k" := (bind m (fun x => match x with p => k end))
  (at level 61, p pattern, m at next level, right associativity) : m_scope.
Notation "m ;; k" := (bind m (fun _ => k))
  (at level 61, right associativity) : m_scope.
Open Scope m_scope.

Definition trace_of {A} (m : M A) : Trace := fst m.
Definition outcome_of {A} (m : M A) : Outcome A := snd m.

(** A lookup that may raise, inside a computation. *)
Definition lift {A} (r : ErrorData + A) : M A :=
  match r with
  | inr a => ret a
  | inl e => raise e
  end.

(** [if (c) body;] *)
Definition when (c : bool) (body : M unit) : M unit := if c then body else ret tt.

(** [PG_TRY(); { body } PG_CATCH(); { handler; PG_RE_THROW(); } PG_END_TRY();] *)
Definition PG_TRY {A} (body : M A) (handler : M unit) : M A :=
  match body with
  | (t, Raise e) => (t, Ok tt) ;; handler ;; raise e
  | other => other
  end.

(** What the functions of the other files answer.  Nothing relates the
    fields to one another: every theorem holds for whatever they answer. *)
Record Env : Type := mkEnv {
  (* cluster role and session state *)
  IsCoordMaster : bool;
  IS_PGXC_COORDINATOR : bool;
  IsConnFromCoord : bool;
  IsNormalProcessingMode : bool;
  NumDataNodes : Z;
  XactReadOnly : bool;
  IsInParallelMode : bool;
  RecoveryInProgress : bool;
  IsTransactionBlock : bool;
  (* catalog lookups *)
  makeRangeVarFromNameList : list string -> RangeVar;
  RangeVarGetRelid : RangeVar -> Oid;     (* [missing_ok = true]: [InvalidOid] when absent *)
  IsTempTable : Oid -> bool;
  get_rel_relkind : Oid -> ascii;
  IndexGetRelation : Oid -> ErrorData + Oid; (* [missing_ok = false]: raises when absent *)
  (* change notification *)
  EventTriggerSupportsObjectType : ObjectType -> bool;
  EventTriggerBeginCompleteQuery_result : bool;
  (* transaction manager *)
  EndTransactionBlock_result : bool;
  PrepareTransactionBlock_result : string -> bool;
  (* parse analysis and catalog command handlers *)
  transformCreateStmt_result : CreateStmt -> list Node * option Node;
  transformAlterTableStmt_result : Oid -> AlterTableStmt -> list Node;
  AlterTableLookupRelation_result : AlterTableStmt -> Oid;
  RangeVarGetRelidExtended_result : RangeVar -> Oid;
  transformIndexStmt_result : Oid -> IndexStmt -> IndexStmt;
  handler_address : Event -> ObjectAddress;   (* the address a handler returns *)
  get_object_address_relation : DropStmt -> option Oid;
  AddRemoteParseTree : list Node -> string -> Node -> RemoteQueryExecType -> bool -> list Node;
  (* whether a call raises *)
  fails : Event -> option ErrorData
}.

(* ------------------------------------------------------------------ *)
(** ** The functions of utility.c *)

Section Utility.

Variable env : Env.

(** A call to a collaborator: it is recorded, and raises when the
    environment says so. *)
Definition call (ev : Event) : M unit :=
  ([ev], match fails env ev with Some e => Raise e | None => Ok tt end).

(** *** Node target resolver *)

Definition ExecUtilityFindNodesRelkind (relid : Oid) : RemoteQueryExecType * bool :=
  let relkind_str := get_rel_relkind env relid in
  if Ascii.eqb relkind_str RELKIND_SEQUENCE then
    (EXEC_ON_ALL_NODES, IsTempTable env relid)
  else if Ascii.eqb relkind_str RELKIND_RELATION then
    (EXEC_ON_ALL_NODES, IsTempTable env relid)
  else if Ascii.eqb relkind_str RELKIND_VIEW then
    if IsTempTable env relid then (EXEC_ON_NONE, true) else (EXEC_ON_COORDS, false)
  else
    (EXEC_ON_ALL_NODES, false).

(** Returns [exec_type] and the value stored through [is_temp], or the
    error a catalog lookup raised. *)
Definition ExecUtilityFindNodes (object_type : ObjectType) (object_id : Oid)
  : ErrorData + (RemoteQueryExecType * bool) :=
  match object_type with
  | OBJECT_SEQUENCE =>
      inr (EXEC_ON_ALL_NODES, IsTempTable env object_id)
  (* Triggers are evaluated based on the relation they are defined on *)
  | OBJECT_TABLE | OBJECT_TRIGGER =>
      (* Do the check on relation kind *)
      inr (ExecUtilityFindNodesRelkind object_id)
  | OBJECT_RULE | OBJECT_VIEW =>
      (* Check if object is a temporary view *)
      if IsTempTable env object_id then inr (EXEC_ON_NONE, true)
      else inr (EXEC_ON_COORDS, false)
  | OBJECT_INDEX =>
      (* Check if given index uses temporary tables *)
      if IsTempTable env object_id then inr (EXEC_ON_DATANODES, true)
      (* Materialized views and hence index on those are located on
         coordinators *)
      else if Ascii.eqb (get_rel_relkind env object_id) RELKIND_MATVIEW then
        inr (EXEC_ON_COORDS, false)
      else if Ascii.eqb (get_rel_relkind env object_id) RELKIND_INDEX then
        match IndexGetRelation env object_id with
        | inr heapId =>
            if Ascii.eqb (get_rel_relkind env heapId) RELKIND_MATVIEW
            then inr (EXEC_ON_COORDS, false)
            else inr (EXEC_ON_ALL_NODES, false)
        | inl e => inl e
        end
      else inr (EXEC_ON_ALL_NODES, false)
  | OBJECT_MATVIEW =>
      (* Materialized views are located only on the coordinators *)
      inr (EXEC_ON_COORDS, false)
  | _ =>
      inr (EXEC_ON_ALL_NODES, false)
  end.

(** *** Remote dispatcher *)

Definition NoDataNodesConfigured : ErrorData :=
  mkError ERRCODE_UNDEFINED_OBJECT "No Datanode defined in cluster".

Definition ExecInterXactUtility (site : CallSite) (step : RemoteQuery) : M unit :=
  call (E_ExecInterXactUtility site step).

Definition ExecRemoteUtilityStmt (context : RemoteUtilityContext) : M unit :=
  (* only master-coordinator can do this *)
  if negb (IsCoordMaster env) then ret tt
  (* Return if query is launched on no nodes *)
  else if RemoteQueryExecType_beq (exec_type context) EXEC_ON_NONE then ret tt
  (* Nothing to be done if this statement has been sent to the nodes *)
  else if sentToRemote context then ret tt
  else
    (* If no Datanodes defined, the query cannot be launched *)
    when (NumDataNodes env =? 0)%Z (raise NoDataNodesConfigured) ;;
    let step :=
      {| sql_node := stmt context;
         combine_type := COMBINE_TYPE_SAME;
         exec_nodes := nodes context;
         sql_statement := query context;
         rq_force_autocommit := force_autocommit context;
         rq_exec_type := exec_type context;
         rq_is_temp := is_temp context |} in
    ExecInterXactUtility site_ExecRemoteUtilityStmt step.

(** The context every entry point builds first:
    [{sentToRemote, false, false, EXEC_ON_ALL_NODES, NULL, queryString, NULL}]. *)
Definition init_utilityContext (sentToRemote : bool) (queryString : string)
  : RemoteUtilityContext :=
  {| sentToRemote := sentToRemote;
     force_autocommit := false;
     is_temp := false;
     exec_type := EXEC_ON_ALL_NODES;
     stmt := None;
     query := queryString;
     nodes := None |}.

(** Field assignments [utilityContext.f = v]. *)
Definition set_is_temp (v : bool) (c : RemoteUtilityContext) : RemoteUtilityContext :=
  {| sentToRemote := sentToRemote c; force_autocommit := force_autocommit c;
     is_temp := v; exec_type := exec_type c; stmt := stmt c;
     query := query c; nodes := nodes c |}.

Definition set_exec_type (v : RemoteQueryExecType) (c : RemoteUtilityContext)
  : RemoteUtilityContext :=
  {| sentToRemote := sentToRemote c; force_autocommit := force_autocommit c;
     is_temp := is_temp c; exec_type := v; stmt := stmt c;
     query := query c; nodes := nodes c |}.

Definition set_stmt (v : Node) (c : RemoteUtilityContext) : RemoteUtilityContext :=
  {| sentToRemote := sentToRemote c; force_autocommit := force_autocommit c;
     is_temp := is_temp c; exec_type := exec_type c; stmt := Some v;
     query := query c; nodes := nodes c |}.

Definition set_force_autocommit (v : bool) (c : RemoteUtilityContext)
  : RemoteUtilityContext :=
  {| sentToRemote := sentToRemote c; force_autocommit := v;
     is_temp := is_temp c; exec_type := exec_type c; stmt := stmt c;
     query := query c; nodes := nodes c |}.

(** *** Drop consistency checker *)

Definition MixedPlacementError : ErrorData :=
  mkError ERRCODE_FEATURE_NOT_SUPPORTED
    "DROP not supported for TEMP and non-TEMP objects".

Definition UndefinedObject (rel : RangeVar) : ErrorData :=
  mkError ERRCODE_UNDEFINED_TABLE (relname rel ++ " does not exist").

Definition ConcurrentIndexNotSupported : ErrorData :=
  mkError ERRCODE_FEATURE_NOT_SUPPORTED
    "PGXC does not support concurrent INDEX yet".

(** Modelled from the spec: [DropTableThrowErrorExternal]
    (commands/tablecmds.c) is not under src/.  Section 4.3: objects that do
    not exist "are skipped when the statement tolerates missing objects,
    otherwise they fail with UndefinedObject". *)
Definition DropTableThrowErrorExternal (rel : RangeVar) (removeType : ObjectType)
    (missing_ok : bool) : M unit :=
  if missing_ok
  then call (E_ereport_NOTICE (relname rel ++ " does not exist, skipping"))
  else raise (UndefinedObject rel).

(** The [foreach(cell, stmt->objects)] loop of [DropStmtPreTreatment], with
    its three locals [is_first], [res_is_temp], [res_exec_type]. *)
Fixpoint DropStmtPreTreatment_foreach (stmt : DropStmt) (cells : list (list string))
    (is_first : bool) (res_is_temp : bool) (res_exec_type : RemoteQueryExecType)
  : M (bool * RemoteQueryExecType) :=
  match cells with
  | [] => ret (res_is_temp, res_exec_type)
  | cell :: rest =>
      let rel := makeRangeVarFromNameList env cell in
      let relid := RangeVarGetRelid env rel in
      (* In case this relation ID is incorrect throw a correct DROP error. *)
      when (negb (OidIsValid relid) && negb (missing_ok stmt))
           (DropTableThrowErrorExternal rel (removeType stmt) (missing_ok stmt)) ;;
      (* In case of DROP ... IF EXISTS bypass *)
      if negb (OidIsValid relid) && missing_ok stmt then
        DropStmtPreTreatment_foreach stmt rest is_first res_is_temp res_exec_type
      else if is_first then
        ' (first_exec_type, first_is_temp) <-
            lift (ExecUtilityFindNodes (removeType stmt) relid) ;;
        DropStmtPreTreatment_foreach stmt rest false first_is_temp first_exec_type
      else
        ' (exec_type_loc, is_temp_loc) <-
            lift (ExecUtilityFindNodes (removeType stmt) relid) ;;
        when (negb (RemoteQueryExecType_beq exec_type_loc res_exec_type)
              || negb (Bool.eqb is_temp_loc res_is_temp))
             (raise MixedPlacementError) ;;
        DropStmtPreTreatment_foreach stmt rest is_first res_is_temp res_exec_type
  end.

(** Returns the values left in [*is_temp] and [*exec_type]; they come in
    holding what the caller initialised them to. *)
Definition DropStmtPreTreatment (stmt : DropStmt) (queryString : string)
    (sentToRemote : bool) (is_temp : bool) (exec_type : RemoteQueryExecType)
  : M (bool * RemoteQueryExecType) :=
  let res_is_temp := false in
  let res_exec_type := EXEC_ON_ALL_NODES in
  (* Nothing to do if not local Coordinator *)
  if negb (IsCoordMaster env) then ret (is_temp, exec_type)
  else
    match removeType stmt with
    | OBJECT_TABLE | OBJECT_SEQUENCE | OBJECT_VIEW | OBJECT_INDEX =>
        DropStmtPreTreatment_foreach stmt (objects stmt) true res_is_temp res_exec_type
    | OBJECT_RULE | OBJECT_TRIGGER =>
        call (E_get_object_address stmt) ;;
        let relation := get_object_address_relation env stmt in
        ' (res_exec_type, res_is_temp) <-
            match relation with
            | Some rd_id =>
                (* Do nothing if no relation *)
                if OidIsValid rd_id
                then ' (t, b) <- lift (ExecUtilityFindNodes (removeType stmt) rd_id) ;;
                     ret (t, b)
                else ret (EXEC_ON_NONE, res_is_temp)
            | None => ret (EXEC_ON_NONE, res_is_temp)
            end ;;
        (* Close relation if necessary *)
        match relation with
        | Some rd_id => call (E_relation_close rd_id)
        | None => ret tt
        end ;;
        ret (res_is_temp, res_exec_type)
    | _ =>
        ret (false, exec_type)
    end.

Definition RemoveRelations (stmt : DropStmt) : M unit := call (E_RemoveRelations stmt).
Definition RemoveObjects (stmt : DropStmt) : M unit := call (E_RemoveObjects stmt).

(** Dispatch function for DropStmt.  ([HOLD_INTERRUPTS] and
    [RESUME_INTERRUPTS] only move the interrupt hold-off counter.) *)
Definition ExecDropStmt (stmt : DropStmt) (isTopLevel : bool) (queryString : string)
    (sentToRemote : bool) : M unit :=
  let utilityContext := init_utilityContext sentToRemote queryString in
  let relations :=
    let exec_type :=
      match removeType stmt with
      | OBJECT_MATVIEW => EXEC_ON_COORDS
      | _ => EXEC_ON_ALL_NODES
      end in
    (* Check restrictions on objects dropped *)
    ' (is_temp, exec_type) <-
        DropStmtPreTreatment stmt queryString sentToRemote false exec_type ;;
    RemoveRelations stmt ;;
    (* DROP is done depending on the object type *)
    when (negb is_temp)
      (ExecRemoteUtilityStmt
         (set_stmt (T_DropStmt stmt)
            (set_exec_type exec_type (set_is_temp is_temp utilityContext)))) in
  match removeType stmt with
  | OBJECT_INDEX =>
      when (concurrent stmt) (raise ConcurrentIndexNotSupported) ;;
      (* fall through *)
      relations
  | OBJECT_TABLE | OBJECT_SEQUENCE | OBJECT_VIEW | OBJECT_MATVIEW
  | OBJECT_FOREIGN_TABLE =>
      relations
  | _ =>
      ' (is_temp, exec_type) <-
          DropStmtPreTreatment stmt queryString sentToRemote false EXEC_ON_ALL_NODES ;;
      RemoveObjects stmt ;;
      when (negb is_temp)
        (ExecRemoteUtilityStmt
           (set_is_temp is_temp (set_exec_type exec_type utilityContext)))
  end.

(** *** Guard checks *)

Definition PreventCommandIfReadOnly (cmdname : string) : M unit :=
  when (XactReadOnly env)
    (raise (mkError ERRCODE_READ_ONLY_SQL_TRANSACTION
              ("cannot execute " ++ cmdname ++ " in a read-only transaction"))).

Definition PreventCommandIfParallelMode (cmdname : string) : M unit :=
  when (IsInParallelMode env)
    (raise (mkError ERRCODE_INVALID_TRANSACTION_STATE
              ("cannot execute " ++ cmdname ++ " during a parallel operation"))).

Definition RecoveryModeViolation (cmdname : string) : ErrorData :=
  mkError ERRCODE_READ_ONLY_SQL_TRANSACTION
    ("cannot execute " ++ cmdname ++ " during recovery").

Definition PreventCommandDuringRecovery (cmdname : string) : M unit :=
  when (RecoveryInProgress env) (raise (RecoveryModeViolation cmdname)).

Definition AlterObjectTypeCommandTag (objtype : ObjectType) : string :=
  match objtype with
  | OBJECT_AGGREGATE => "ALTER AGGREGATE"
  | OBJECT_ATTRIBUTE => "ALTER TYPE"
  | OBJECT_CAST => "ALTER CAST"
  | OBJECT_COLLATION => "ALTER COLLATION"
  | OBJECT_COLUMN => "ALTER TABLE"
  | OBJECT_CONVERSION => "ALTER CONVERSION"
  | OBJECT_DATABASE => "ALTER DATABASE"
  | OBJECT_DOMAIN | OBJECT_DOMCONSTRAINT => "ALTER DOMAIN"
  | OBJECT_EXTENSION => "ALTER EXTENSION"
  | OBJECT_FDW => "ALTER FOREIGN DATA WRAPPER"
  | OBJECT_FOREIGN_SERVER => "ALTER SERVER"
  | OBJECT_FOREIGN_TABLE => "ALTER FOREIGN TABLE"
  | OBJECT_FUNCTION => "ALTER FUNCTION"
  | OBJECT_INDEX => "ALTER INDEX"
  | OBJECT_LANGUAGE => "ALTER LANGUAGE"
  | OBJECT_LARGEOBJECT => "ALTER LARGE OBJECT"
  | OBJECT_OPCLASS => "ALTER OPERATOR CLASS"
  | OBJECT_OPERATOR => "ALTER OPERATOR"
  | OBJECT_OPFAMILY => "ALTER OPERATOR FAMILY"
  | OBJECT_POLICY => "ALTER POLICY"
  | OBJECT_ROLE => "ALTER ROLE"
  | OBJECT_RULE => "ALTER RULE"
  | OBJECT_SCHEMA => "ALTER SCHEMA"
  | OBJECT_SEQUENCE => "ALTER SEQUENCE"
  | OBJECT_TABLE | OBJECT_TABCONSTRAINT => "ALTER TABLE"
  | OBJECT_TABLESPACE => "ALTER TABLESPACE"
  | OBJECT_TRIGGER => "ALTER TRIGGER"
  | OBJECT_EVENT_TRIGGER => "ALTER EVENT TRIGGER"
  | OBJECT_TSCONFIGURATION => "ALTER TEXT SEARCH CONFIGURATION"
  | OBJECT_TSDICTIONARY => "ALTER TEXT SEARCH DICTIONARY"
  | OBJECT_TSPARSER => "ALTER TEXT SEARCH PARSER"
  | OBJECT_TSTEMPLATE => "ALTER TEXT SEARCH TEMPLATE"
  | OBJECT_TYPE => "ALTER TYPE"
  | OBJECT_VIEW => "ALTER VIEW"
  | OBJECT_MATVIEW => "ALTER MATERIALIZED VIEW"
  | _ => "???"
  end.

Definition CreateCommandTag (parsetree : Node) : string :=
  match parsetree with
  | T_TransactionStmt stmt =>
      match kind stmt with
      | TRANS_STMT_BEGIN => "BEGIN"
      | TRANS_STMT_START => "START TRANSACTION"
      | TRANS_STMT_COMMIT => "COMMIT"
      | TRANS_STMT_ROLLBACK | TRANS_STMT_ROLLBACK_TO => "ROLLBACK"
      | TRANS_STMT_SAVEPOINT => "SAVEPOINT"
      | TRANS_STMT_RELEASE => "RELEASE"
      | TRANS_STMT_PREPARE => "PREPARE TRANSACTION"
      | TRANS_STMT_COMMIT_PREPARED => "COMMIT PREPARED"
      | TRANS_STMT_ROLLBACK_PREPARED => "ROLLBACK PREPARED"
      end
  | T_CreateStmt _ => "CREATE TABLE"
  | T_CreateForeignTableStmt _ => "CREATE FOREIGN TABLE"
  | T_DropStmt stmt =>
      match removeType stmt with
      | OBJECT_TABLE => "DROP TABLE"
      | OBJECT_SEQUENCE => "DROP SEQUENCE"
      | OBJECT_VIEW => "DROP VIEW"
      | OBJECT_MATVIEW => "DROP MATERIALIZED VIEW"
      | OBJECT_INDEX => "DROP INDEX"
      | OBJECT_TYPE => "DROP TYPE"
      | OBJECT_DOMAIN => "DROP DOMAIN"
      | OBJECT_COLLATION => "DROP COLLATION"
      | OBJECT_CONVERSION => "DROP CONVERSION"
      | OBJECT_SCHEMA => "DROP SCHEMA"
      | OBJECT_TSPARSER => "DROP TEXT SEARCH PARSER"
      | OBJECT_TSDICTIONARY => "DROP TEXT SEARCH DICTIONARY"
      | OBJECT_TSTEMPLATE => "DROP TEXT SEARCH TEMPLATE"
      | OBJECT_TSCONFIGURATION => "DROP TEXT SEARCH CONFIGURATION"
      | OBJECT_FOREIGN_TABLE => "DROP FOREIGN TABLE"
      | OBJECT_EXTENSION => "DROP EXTENSION"
      | OBJECT_FUNCTION => "DROP FUNCTION"
      | OBJECT_AGGREGATE => "DROP AGGREGATE"
      | OBJECT_OPERATOR => "DROP OPERATOR"
      | OBJECT_LANGUAGE => "DROP LANGUAGE"
      | OBJECT_CAST => "DROP CAST"
      | OBJECT_TRIGGER => "DROP TRIGGER"
      | OBJECT_EVENT_TRIGGER => "DROP EVENT TRIGGER"
      | OBJECT_RULE => "DROP RULE"
      | OBJECT_FDW => "DROP FOREIGN DATA WRAPPER"
      | OBJECT_FOREIGN_SERVER => "DROP SERVER"
      | OBJECT_OPCLASS => "DROP OPERATOR CLASS"
      | OBJECT_OPFAMILY => "DROP OPERATOR FAMILY"
      | OBJECT_POLICY => "DROP POLICY"
      | OBJECT_TRANSFORM => "DROP TRANSFORM"
      | OBJECT_ACCESS_METHOD => "DROP ACCESS METHOD"
      | _ => "???"
      end
  | T_AlterTableStmt stmt => AlterObjectTypeCommandTag (relkind stmt)
  | T_IndexStmt _ => "CREATE INDEX"
  | T_CreateSeqStmt _ => "CREATE SEQUENCE"
  | T_AlterSeqStmt _ => "ALTER SEQUENCE"
  | T_CreateRoleStmt _ => "CREATE ROLE"
  | T_RemoteQuery _ => "???"
  end.

Definition check_xact_readonly (parsetree : Node) : M unit :=
  (* Only perform the check if we have a reason to do so. *)
  if negb (XactReadOnly env) && negb (IsInParallelMode env) then ret tt
  else
    match parsetree with
    | T_AlterSeqStmt _ | T_AlterTableStmt _ | T_CreateRoleStmt _ | T_IndexStmt _
    | T_CreateSeqStmt _ | T_CreateStmt _ | T_DropStmt _
    | T_CreateForeignTableStmt _ =>
        PreventCommandIfReadOnly (CreateCommandTag parsetree) ;;
        PreventCommandIfParallelMode (CreateCommandTag parsetree)
    | _ => ret tt
    end.

Definition NoActiveTransactionBlock (stmtType : string) : ErrorData :=
  mkError ERRCODE_NO_ACTIVE_SQL_TRANSACTION
    (stmtType ++ " can only be used in transaction blocks").

Definition TransactionBlockActive (stmtType : string) : ErrorData :=
  mkError ERRCODE_ACTIVE_SQL_TRANSACTION
    (stmtType ++ " cannot run inside a transaction block").

(** Modelled from the spec: [RequireTransactionChain] (access/transam/xact.c)
    is not under src/.  Section 4.5: the statement "requires InBlock (fails
    otherwise with NoActiveTransactionBlock)". *)
Definition RequireTransactionChain (isTopLevel : bool) (stmtType : string) : M unit :=
  if IsTransactionBlock env then ret tt else raise (NoActiveTransactionBlock stmtType).

(** Modelled from the spec: [PreventTransactionChain] (access/transam/xact.c)
    is not under src/.  Section 4.5: the statement is "forbidden as a
    statement inside an existing transaction block". *)
Definition PreventTransactionChain (isTopLevel : bool) (stmtType : string) : M unit :=
  if IsTransactionBlock env then raise (TransactionBlockActive stmtType) else ret tt.

(** Whether a statement may run while the cluster is locked for backup. *)
Definition IsStmtAllowedInLockedMode (parsetree : Node) (queryString : string) : bool :=
  match parsetree with
  | T_CreateStmt stmt =>
      (* To allow creation of temp tables *)
      Ascii.eqb (relpersistence (relation stmt)) RELPERSISTENCE_TEMP
  | T_TransactionStmt _ => true
  | T_RemoteQuery _ => true
  | _ => false
  end.

(** *** Transaction statement handler *)

Fixpoint foreach {A} (l : list A) (body : A -> M unit) : M unit :=
  match l with
  | [] => ret tt
  | x :: rest => body x ;; foreach rest body
  end.

Definition SavepointNotSupported : ErrorData :=
  mkError ERRCODE_STATEMENT_TOO_COMPLEX "SAVEPOINT is not yet supported.".

Definition EndTransactionBlock : M bool :=
  call E_EndTransactionBlock ;; ret (EndTransactionBlock_result env).

Definition PrepareTransactionBlock (gid : string) : M bool :=
  call (E_PrepareTransactionBlock gid) ;; ret (PrepareTransactionBlock_result env gid).

(** [if (completionTag) strcpy(completionTag, tag)]: the buffer afterwards. *)
Definition strcpy_completionTag (completionTag : option string) (tag : string)
  : option string :=
  match completionTag with
  | Some _ => Some tag
  | None => None
  end.

(** [name = NULL; foreach(cell, options) if (strcmp(defname, "savepoint_name")
    == 0) name = strVal(arg)]. *)
Definition savepoint_name (options : list DefElem) : option string :=
  fold_left
    (fun name elem => if String.eqb (defname elem) "savepoint_name"
                      then Some (arg elem) else name)
    options None.

(** The [case T_TransactionStmt] of [standard_ProcessUtility].  Returns the
    completion-tag buffer ([None] when the caller passed [NULL]). *)
Definition ExecTransactionStmt (stmt : TransactionStmt) (isTopLevel : bool)
    (completionTag : option string) : M (option string) :=
  match kind stmt with
  | TRANS_STMT_BEGIN | TRANS_STMT_START =>
      call E_BeginTransactionBlock ;;
      foreach (options stmt) (fun item =>
        if String.eqb (defname item) "transaction_isolation" then
          call (E_SetPGVariable "transaction_isolation" (arg item))
        else if String.eqb (defname item) "transaction_read_only" then
          call (E_SetPGVariable "transaction_read_only" (arg item))
        else if String.eqb (defname item) "transaction_deferrable" then
          call (E_SetPGVariable "transaction_deferrable" (arg item))
        else ret tt) ;;
      ret completionTag
  | TRANS_STMT_COMMIT =>
      committed <- EndTransactionBlock ;;
      if negb committed
      then (* report unsuccessful commit in completionTag *)
           ret (strcpy_completionTag completionTag "ROLLBACK")
      else ret completionTag
  | TRANS_STMT_PREPARE =>
      PreventCommandDuringRecovery "PREPARE TRANSACTION" ;;
      prepared <- PrepareTransactionBlock (gid stmt) ;;
      if negb prepared
      then (* report unsuccessful commit in completionTag *)
           ret (strcpy_completionTag completionTag "ROLLBACK")
      else ret completionTag
  | TRANS_STMT_COMMIT_PREPARED =>
      PreventTransactionChain isTopLevel "COMMIT PREPARED" ;;
      PreventCommandDuringRecovery "COMMIT PREPARED" ;;
      call E_SetCurrentXactPhase2 ;;
      call (E_FinishPreparedTransactionExt (gid stmt) true (trans_missing_ok stmt)) ;;
      call E_SetCurrentXactPhase1 ;;
      ret completionTag
  | TRANS_STMT_ROLLBACK_PREPARED =>
      PreventTransactionChain isTopLevel "ROLLBACK PREPARED" ;;
      PreventCommandDuringRecovery "ROLLBACK PREPARED" ;;
      call E_SetCurrentXactPhase2 ;;
      call (E_FinishPreparedTransactionExt (gid stmt) false (trans_missing_ok stmt)) ;;
      call E_SetCurrentXactPhase1 ;;
      ret completionTag
  | TRANS_STMT_ROLLBACK =>
      call E_UserAbortTransactionBlock ;;
      ret completionTag
  | TRANS_STMT_SAVEPOINT =>
      (* #ifdef ADB *)
      @raise unit SavepointNotSupported ;;
      (* #endif *)
      RequireTransactionChain isTopLevel "SAVEPOINT" ;;
      call (E_DefineSavepoint (savepoint_name (options stmt))) ;;
      ret completionTag
  | TRANS_STMT_RELEASE =>
      RequireTransactionChain isTopLevel "RELEASE SAVEPOINT" ;;
      call (E_ReleaseSavepoint (options stmt)) ;;
      ret completionTag
  | TRANS_STMT_ROLLBACK_TO =>
      RequireTransactionChain isTopLevel "ROLLBACK TO SAVEPOINT" ;;
      call (E_RollbackToSavepoint (options stmt)) ;;
      ret completionTag
  end.

(** *** Slow-path orchestrator *)

(** The shape of [ProcessUtility], as the orchestrator calls it for a
    generated sub-statement: [parsetree], [queryString], [context],
    [sentToRemote], [completionTag]. *)
Definition ProcessUtility_type : Type :=
  Node -> string -> ProcessUtilityContext -> bool -> option string -> M (option string).

Definition CommandCounterIncrement : M unit := call E_CommandCounterIncrement.

Definition EventTriggerBeginCompleteQuery : M bool :=
  call E_EventTriggerBeginCompleteQuery ;;
  ret (EventTriggerBeginCompleteQuery_result env).

Definition EventTriggerEndCompleteQuery : M unit := call E_EventTriggerEndCompleteQuery.

Definition EventTriggerCollectSimpleCommand (address secondaryObject : ObjectAddress)
    (parsetree : Node) : M unit :=
  call (E_EventTriggerCollectSimpleCommand address secondaryObject parsetree).

(** A catalog command handler that returns the address of what it made. *)
Definition call_address (ev : Event) : M ObjectAddress :=
  call ev ;; ret (handler_address env ev).

Definition IsAlterTableStmtRedistribution (atstmt : AlterTableStmt) : bool :=
  forallb
    (fun cmd =>
       match subtype cmd with
       | AT_SubCluster | AT_AddNodeList | AT_DeleteNodeList => true
       | _ => false
       end)
    (cmds atstmt).

(** [foreach(l, stmts) { body; if (lnext(l) != NULL) between; }] *)
Fixpoint foreach_between {A} (l : list A) (body : A -> M unit) (between : M unit)
  : M unit :=
  match l with
  | [] => ret tt
  | x :: rest =>
      body x ;;
      when (match rest with [] => false | _ :: _ => true end) between ;;
      foreach_between rest body between
  end.

Definition CreateMixedTempError : ErrorData :=
  mkError ERRCODE_FEATURE_NOT_SUPPORTED
    "CREATE not supported for TEMP and non-TEMP objects".

(** The scan of the expansion of CREATE TABLE for temporary objects, with
    its locals [is_first] and [is_temp]; returns [is_temp]. *)
Fixpoint CreateStmt_scan (stmts : list Node) (is_first is_temp : bool) : M bool :=
  match stmts with
  | [] => ret is_temp
  | T_CreateStmt stmt_loc :: rest =>
      let is_object_temp :=
        Ascii.eqb (relpersistence (relation stmt_loc)) RELPERSISTENCE_TEMP in
      when (is_object_temp && distributeby stmt_loc)
        (raise (mkError ERRCODE_SYNTAX_ERROR
                  "temporary table not support distribute by")) ;;
      if is_first then
        CreateStmt_scan rest false (if is_object_temp then true else is_temp)
      else
        when (negb (Bool.eqb is_object_temp is_temp)) (raise CreateMixedTempError) ;;
        CreateStmt_scan rest is_first is_temp
  | T_CreateForeignTableStmt _ :: rest =>
      (* There are no temporary foreign tables *)
      if is_first then CreateStmt_scan rest false is_temp
      else
        when (negb is_temp) (raise CreateMixedTempError) ;;
        CreateStmt_scan rest is_first is_temp
  | _ :: rest => CreateStmt_scan rest is_first is_temp
  end.

Section Slow.

(** [ProcessUtility], for the recursive calls. *)
Variable ProcessUtility : ProcessUtility_type.

(** One turn of the "... and do it" loop of CREATE TABLE. *)
Definition CreateStmt_do (queryString : string) (secondaryObject : ObjectAddress)
    (stmt : Node) : M unit :=
  match stmt with
  | T_CreateStmt cstmt =>
      (* Create the table itself *)
      address <- call_address (E_DefineRelation cstmt RELKIND_RELATION) ;;
      EventTriggerCollectSimpleCommand address secondaryObject stmt ;;
      (* Let NewRelationCreateToastTable decide if this one needs a
         secondary relation too. *)
      CommandCounterIncrement ;;
      (* parse and validate reloptions for the toast table *)
      call (E_transformRelOptions (create_options cstmt)) ;;
      call (E_heap_reloptions RELKIND_TOASTVALUE) ;;
      call (E_NewRelationCreateToastTable (objectId address))
  | T_CreateForeignTableStmt cstmt =>
      (* Create the table itself *)
      address <- call_address (E_DefineRelation cstmt RELKIND_FOREIGN_TABLE) ;;
      call (E_CreateForeignTable cstmt (objectId address)) ;;
      EventTriggerCollectSimpleCommand address secondaryObject stmt
  | _ =>
      (* Recurse for anything else. *)
      ProcessUtility stmt queryString PROCESS_UTILITY_SUBCOMMAND true None ;;
      ret tt
  end.

(** The list CREATE TABLE executes: the expansion, with the remote-execution
    node added when the statement is neither forwarded nor temporary. *)
Definition CreateStmt_stmts (parsetree : Node) (cstmt : CreateStmt)
    (queryString : string) (sentToRemote is_temp : bool) : list Node :=
  let '(stmts, transformed_stmt) := transformCreateStmt_result env cstmt in
  if negb sentToRemote && negb is_temp then
    match transformed_stmt with
    | Some t => AddRemoteParseTree env stmts queryString t EXEC_ON_ALL_NODES is_temp
    | None => AddRemoteParseTree env stmts queryString parsetree EXEC_ON_ALL_NODES is_temp
    end
  else stmts.

(** [case T_CreateStmt: case T_CreateForeignTableStmt:] *)
Definition Slow_CreateStmt (parsetree : Node) (cstmt : CreateStmt)
    (queryString : string) (sentToRemote : bool) (secondaryObject : ObjectAddress)
  : M unit :=
  (* Run parse analysis ... *)
  call (E_transformCreateStmt cstmt) ;;
  is_temp <- (if IsCoordMaster env
              then CreateStmt_scan (fst (transformCreateStmt_result env cstmt)) true false
              else ret false) ;;
  (* ... and do it *)
  foreach_between (CreateStmt_stmts parsetree cstmt queryString sentToRemote is_temp)
    (CreateStmt_do queryString secondaryObject)
    (* Need CCI between commands *)
    CommandCounterIncrement.

(** One turn of the "... and do it" loop of ALTER TABLE. *)
Definition AlterTable_do (parsetree : Node) (queryString : string) (relid : Oid)
    (stmt : Node) : M unit :=
  match stmt with
  | T_AlterTableStmt astmt =>
      (* Do the table alteration proper *)
      call (E_AlterTable relid astmt)
  | _ =>
      (* Recurse for anything else. *)
      call E_EventTriggerAlterTableEnd ;;
      ProcessUtility stmt queryString PROCESS_UTILITY_SUBCOMMAND true None ;;
      call (E_EventTriggerAlterTableStart parsetree) ;;
      call (E_EventTriggerAlterTableRelid relid)
  end.

(** The list ALTER TABLE executes. *)
Definition AlterTable_stmts (parsetree : Node) (atstmt : AlterTableStmt)
    (queryString : string) (sentToRemote : bool) (relid : Oid)
  : M (list Node) :=
  let stmts := transformAlterTableStmt_result env relid atstmt in
  if negb sentToRemote then
    let relid := RangeVarGetRelid env (at_relation atstmt) in
    if OidIsValid relid then
      ' (exec_type, is_temp) <- lift (ExecUtilityFindNodes (relkind atstmt) relid) ;;
      if negb is_temp then
        let exec_type :=
          if match relkind atstmt with OBJECT_TABLE => true | _ => false end
             && IsAlterTableStmtRedistribution atstmt
          then EXEC_ON_COORDS else exec_type in
        ret (AddRemoteParseTree env stmts queryString parsetree exec_type is_temp)
      else ret stmts
    else ret stmts
  else ret stmts.

(** [case T_AlterTableStmt:].  ([AlterTableGetLockLevel] only computes the
    lock mode handed to the two calls after it.) *)
Definition Slow_AlterTableStmt (parsetree : Node) (atstmt : AlterTableStmt)
    (queryString : string) (sentToRemote : bool) : M unit :=
  call (E_AlterTableLookupRelation atstmt) ;;
  let relid := AlterTableLookupRelation_result env atstmt in
  if OidIsValid relid then
    (* Run parse analysis ... *)
    call (E_transformAlterTableStmt relid atstmt) ;;
    stmts <- AlterTable_stmts parsetree atstmt queryString sentToRemote relid ;;
    (* ... ensure we have an event trigger context ... *)
    call (E_EventTriggerAlterTableStart parsetree) ;;
    call (E_EventTriggerAlterTableRelid relid) ;;
    (* ... and do it *)
    foreach_between stmts (AlterTable_do parsetree queryString relid)
      CommandCounterIncrement ;;
    (* done *)
    call E_EventTriggerAlterTableEnd
  else
    call (E_ereport_NOTICE (relname (at_relation atstmt) ++ " does not exist, skipping")).

(** [case T_IndexStmt:] *)
Definition Slow_IndexStmt (parsetree : Node) (istmt : IndexStmt) (isTopLevel : bool)
    (secondaryObject : ObjectAddress) (utilityContext : RemoteUtilityContext)
  : M unit :=
  when (idx_concurrent istmt) (raise ConcurrentIndexNotSupported) ;;
  (* INDEX on a temporary table cannot use 2PC at commit *)
  let relid := RangeVarGetRelid env (idx_relation istmt) in
  ' (exec_type, is_temp) <-
      (if OidIsValid relid
       then lift (ExecUtilityFindNodes OBJECT_INDEX relid)
       else ret (EXEC_ON_NONE, false)) ;;
  when (idx_concurrent istmt)
    (PreventTransactionChain isTopLevel "CREATE INDEX CONCURRENTLY") ;;
  call (E_RangeVarGetRelidExtended (idx_relation istmt)) ;;
  let relid := RangeVarGetRelidExtended_result env (idx_relation istmt) in
  (* Run parse analysis ... *)
  call (E_transformIndexStmt relid istmt) ;;
  let istmt := transformIndexStmt_result env relid istmt in
  (* ... and do it *)
  call (E_EventTriggerAlterTableStart parsetree) ;;
  address <- call_address (E_DefineIndex relid istmt) ;;
  EventTriggerCollectSimpleCommand address secondaryObject parsetree ;;
  call E_EventTriggerAlterTableEnd ;;
  when (negb (isconstraint istmt) && negb is_temp)
    (ExecRemoteUtilityStmt
       (set_stmt (T_IndexStmt istmt)
          (set_is_temp is_temp
             (set_exec_type exec_type
                (set_force_autocommit (idx_concurrent istmt) utilityContext))))).

(** [case T_CreateSeqStmt:] *)
Definition Slow_CreateSeqStmt (parsetree : Node) (sstmt : CreateSeqStmt)
    (utilityContext : RemoteUtilityContext) : M ObjectAddress :=
  address <- call_address (E_DefineSequence sstmt) ;;
  when (IS_PGXC_COORDINATOR env)
    ((* In case this query is related to a SERIAL execution, just bypass *)
     when (negb (is_serial sstmt)
           && negb (Ascii.eqb (relpersistence (sequence sstmt)) RELPERSISTENCE_TEMP))
       (ExecRemoteUtilityStmt (set_stmt parsetree (set_is_temp false utilityContext)))) ;;
  ret address.

(** [case T_AlterSeqStmt:] *)
Definition Slow_AlterSeqStmt (sstmt : AlterSeqStmt)
    (utilityContext : RemoteUtilityContext) : M ObjectAddress :=
  address <- call_address (E_AlterSequence sstmt) ;;
  when (IS_PGXC_COORDINATOR env)
    ((* In case this query is related to a SERIAL execution, just bypass *)
     when (negb (alt_is_serial sstmt))
       (let relid := RangeVarGetRelid env (alt_sequence sstmt) in
        if negb (OidIsValid relid) then ret tt
        else
          ' (exec_type, is_temp) <- lift (ExecUtilityFindNodes OBJECT_SEQUENCE relid) ;;
          when (negb is_temp)
            (ExecRemoteUtilityStmt
               (set_is_temp is_temp (set_exec_type exec_type utilityContext))))) ;;
  ret address.

Definition UnrecognizedNodeType : ErrorData := elog_ERROR "unrecognized node type".

(** The [switch (nodeTag(parsetree))] of [ProcessUtilitySlow]: returns
    [commandCollected] and [address]. *)
Definition Slow_switch (parsetree : Node) (queryString : string) (isTopLevel : bool)
    (sentToRemote : bool) (secondaryObject : ObjectAddress)
    (utilityContext : RemoteUtilityContext) : M (bool * ObjectAddress) :=
  match parsetree with
  | T_CreateStmt cstmt | T_CreateForeignTableStmt cstmt =>
      Slow_CreateStmt parsetree cstmt queryString sentToRemote secondaryObject ;;
      (* The multiple commands generated here are stashed individually, so
         disable collection below. *)
      ret (true, InvalidObjectAddress)
  | T_AlterTableStmt atstmt =>
      Slow_AlterTableStmt parsetree atstmt queryString sentToRemote ;;
      (* ALTER TABLE stashes commands internally *)
      ret (true, InvalidObjectAddress)
  | T_IndexStmt istmt =>
      Slow_IndexStmt parsetree istmt isTopLevel secondaryObject utilityContext ;;
      ret (true, InvalidObjectAddress)
  | T_CreateSeqStmt sstmt =>
      address <- Slow_CreateSeqStmt parsetree sstmt utilityContext ;;
      ret (false, address)
  | T_AlterSeqStmt sstmt =>
      address <- Slow_AlterSeqStmt sstmt utilityContext ;;
      ret (false, address)
  | T_DropStmt dstmt =>
      ExecDropStmt dstmt isTopLevel queryString sentToRemote ;;
      (* no commands stashed for DROP *)
      ret (true, InvalidObjectAddress)
  | _ =>
      raise UnrecognizedNodeType
  end.

(** The block between [PG_TRY()] and [PG_CATCH()] of [ProcessUtilitySlow]. *)
Definition ProcessUtilitySlow_try (parsetree : Node) (queryString : string)
    (isTopLevel isCompleteQuery : bool) (sentToRemote : bool)
    (secondaryObject : ObjectAddress) (utilityContext : RemoteUtilityContext)
  : M unit :=
  when isCompleteQuery (call (E_EventTriggerDDLCommandStart parsetree)) ;;
  ' (commandCollected, address) <-
      Slow_switch parsetree queryString isTopLevel sentToRemote secondaryObject
        utilityContext ;;
  (* Remember the object so that ddl_command_end event triggers have access
     to it. *)
  when (negb commandCollected)
    (EventTriggerCollectSimpleCommand address secondaryObject parsetree) ;;
  when isCompleteQuery
    (call (E_EventTriggerSQLDrop parsetree) ;;
     call (E_EventTriggerDDLCommandEnd parsetree)).

Definition isCompleteQuery_of (context : ProcessUtilityContext) : bool :=
  Nat.leb (ProcessUtilityContext_rank context)
          (ProcessUtilityContext_rank PROCESS_UTILITY_QUERY).

Definition isTopLevel_of (context : ProcessUtilityContext) : bool :=
  match context with PROCESS_UTILITY_TOPLEVEL => true | _ => false end.

Definition ProcessUtilitySlow (parsetree : Node) (queryString : string)
    (context : ProcessUtilityContext) (sentToRemote : bool)
    (completionTag : option string) : M unit :=
  let isTopLevel := isTopLevel_of context in
  let isCompleteQuery := isCompleteQuery_of context in
  let secondaryObject := InvalidObjectAddress in
  let utilityContext := init_utilityContext sentToRemote queryString in
  (* All event trigger calls are done only when isCompleteQuery is true *)
  needCleanup <- (if isCompleteQuery then EventTriggerBeginCompleteQuery else ret false) ;;
  (* PG_TRY block is to ensure we call EventTriggerEndCompleteQuery *)
  PG_TRY
    (ProcessUtilitySlow_try parsetree queryString isTopLevel isCompleteQuery
       sentToRemote secondaryObject utilityContext)
    (when needCleanup EventTriggerEndCompleteQuery) ;;
  when needCleanup EventTriggerEndCompleteQuery.

(** *** Command dispatcher *)

Definition standard_ProcessUtility (parsetree : Node) (queryString : string)
    (context : ProcessUtilityContext) (sentToRemote : bool)
    (completionTag : option string) : M (option string) :=
  let isTopLevel := isTopLevel_of context in
  let utilityContext := init_utilityContext sentToRemote queryString in
  when (IsCoordMaster env && IsNormalProcessingMode env)
    ((* Is the statement a prohibited one? *)
     when (negb (IsStmtAllowedInLockedMode parsetree queryString))
       (call (E_pgxc_lock_for_utility_stmt parsetree))) ;;
  check_xact_readonly parsetree ;;
  (* if (completionTag) completionTag[0] = 0 *)
  let completionTag := strcpy_completionTag completionTag "" in
  match parsetree with
  | T_TransactionStmt stmt =>
      ExecTransactionStmt stmt isTopLevel completionTag
  | T_CreateRoleStmt role =>
      (* no event triggers for global objects *)
      call (E_CreateRole role) ;;
      ExecRemoteUtilityStmt utilityContext ;;
      ret completionTag
  | T_DropStmt stmt =>
      (if EventTriggerSupportsObjectType env (removeType stmt)
       then ProcessUtilitySlow parsetree queryString context sentToRemote completionTag
       else ExecDropStmt stmt isTopLevel queryString sentToRemote) ;;
      ret completionTag
  | T_RemoteQuery step =>
      when (negb (IsConnFromCoord env))
        (ExecInterXactUtility site_T_RemoteQuery step) ;;
      ret completionTag
  | _ =>
      (* All other statement types have event trigger support *)
      ProcessUtilitySlow parsetree queryString context sentToRemote completionTag ;;
      ret completionTag
  end.

End Slow.

(** [ProcessUtility]: [ProcessUtility_hook] is [NULL], as the file
    initialises it, so every call goes to [standard_ProcessUtility].  The
    recursion through the sub-statements is bounded by [fuel]. *)
Fixpoint ProcessUtility (fuel : nat) (parsetree : Node) (queryString : string)
    (context : ProcessUtilityContext) (sentToRemote : bool)
    (completionTag : option string) : M (option string) :=
  match fuel with
  | O => ([], OutOfFuel)
  | S fuel' =>
      standard_ProcessUtility (ProcessUtility fuel') parsetree queryString context
        sentToRemote completionTag
  end.

End Utility.

(* ------------------------------------------------------------------ *)
(** ** Observations on a run *)

Definition is_CommandCounterIncrement (ev : Event) : bool :=
  match ev with E_CommandCounterIncrement => true | _ => false end.

Definition is_BeginCompleteQuery (ev : Event) : bool :=
  match ev with E_EventTriggerBeginCompleteQuery => true | _ => false end.

Definition is_EndCompleteQuery (ev : Event) : bool :=
  match ev with E_EventTriggerEndCompleteQuery => true | _ => false end.

(** A network broadcast made by the remote dispatcher. *)
Definition is_dispatch (ev : Event) : bool :=
  match ev with
  | E_ExecInterXactUtility site_ExecRemoteUtilityStmt _ => true
  | _ => false
  end.

(** Any call to the transport, from either place. *)
Definition is_transport (ev : Event) : bool :=
  match ev with
  | E_ExecInterXactUtility _ _ => true
  | _ => false
  end.

Definition is_RemoteQuery (parsetree : Node) : bool :=
  match parsetree with
  | T_RemoteQuery _ => true
  | _ => false
  end.

(** Parse analysis produces no remote-execution node of its own: in this
    file such nodes come from [AddRemoteParseTree] only. *)
Definition expansions_local (env : Env) : Prop :=
  (forall cstmt s,
     In s (fst (transformCreateStmt_result env cstmt)) -> is_RemoteQuery s = false)
  /\ (forall relid atstmt s,
        In s (transformAlterTableStmt_result env relid atstmt) ->
        is_RemoteQuery s = false).

Definition count (p : Event -> bool) (t : Trace) : nat := List.length (filter p t).

(** The relation a name of a DROP list stands for ([InvalidOid]: none). *)
Definition named_relid (env : Env) (cell : list string) : Oid :=
  RangeVarGetRelid env (makeRangeVarFromNameList env cell).

(** The named object exists and the resolver places it at [p]. *)
Definition resolves (env : Env) (stmt : DropStmt) (cell : list string)
    (p : RemoteQueryExecType * bool) : Prop :=
  OidIsValid (named_relid env cell) = true
  /\ ExecUtilityFindNodes env (removeType stmt) (named_relid env cell) = inr p.

(** Every name of the list either has its placement resolved or is missing
    from a statement that tolerates missing objects. *)
Definition all_resolve (env : Env) (stmt : DropStmt) : Prop :=
  Forall
    (fun cell =>
       if OidIsValid (named_relid env cell)
       then exists p, ExecUtilityFindNodes env (removeType stmt) (named_relid env cell) = inr p
       else missing_ok stmt = true)
    (objects stmt).

(** No event of the run satisfies [p]. *)
Definition silent (p : Event -> bool) {A : Type} (m : M A) : Prop :=
  count p (trace_of m) = 0.

(** The invocation is a complete query and the collaborator opened a batch
    for it: [EventTriggerBeginCompleteQuery] returned, and returned true. *)
Definition batch_opened (env : Env) (context : ProcessUtilityContext) : bool :=
  Nat.leb (ProcessUtilityContext_rank context)
          (ProcessUtilityContext_rank PROCESS_UTILITY_QUERY)
  && EventTriggerBeginCompleteQuery_result env
  && match fails env E_EventTriggerBeginCompleteQuery with
     | None => true
     | Some _ => false
     end.

(** The value of [is_temp] after the scan of the expansion of CREATE TABLE. *)
Definition CreateStmt_is_temp (env : Env) (cstmt : CreateStmt) : bool :=
  if IsCoordMaster env then
    match outcome_of (CreateStmt_scan (fst (transformCreateStmt_result env cstmt))
                        true false) with
    | Ok is_temp => is_temp
    | _ => false
    end
  else false.

(** The table-creation sub-statements of a list. *)
Definition created_tables (stmts : list Node) : nat :=
  list_sum (map (fun s => match s with T_CreateStmt _ => 1 | _ => 0 end) stmts).

(** The command-counter advances made inside the sub-statements of a list
    that are handed to [ProcessUtility]. *)
Definition sub_advances (rec : ProcessUtility_type) (queryString : string)
    (stmts : list Node) : nat :=
  list_sum
    (map (fun s =>
            match s with
            | T_CreateStmt _ | T_CreateForeignTableStmt _ => 0
            | _ => count is_CommandCounterIncrement
                     (trace_of (rec s queryString PROCESS_UTILITY_SUBCOMMAND true None))
            end)
         stmts).

(** The run ends, by return or by error, within the fuel it was given. *)
Definition finishes {A : Type} (m : M A) : Prop := outcome_of m <> OutOfFuel.

(** The statement kinds whose processing hands nothing to [ProcessUtility]. *)
Definition expands_no_further (parsetree : Node) : bool :=
  match parsetree with
  | T_CreateStmt _ | T_CreateForeignTableStmt _ | T_AlterTableStmt _ => false
  | _ => true
  end.

(** The request of a second call, marked as already forwarded. *)
Definition set_sentToRemote (v : bool) (c : RemoteUtilityContext) : RemoteUtilityContext :=
  {| sentToRemote := v; force_autocommit := force_autocommit c;
     is_temp := is_temp c; exec_type := exec_type c; stmt := stmt c;
     query := query c; nodes := nodes c |}.

(* ------------------------------------------------------------------ *)
(** ** A small cluster, for the examples *)

Module Cluster.

Definition rel (name : string) : RangeVar :=
  mkRangeVar None name RELPERSISTENCE_PERMANENT.

(** The catalog: a permanent table, a temporary table, a view, a sequence,
    a materialized view with an index, and an index on the permanent table. *)
Definition relid_of (r : RangeVar) : Oid :=
  if String.eqb (relname r) "t_perm" then 16384%N
  else if String.eqb (relname r) "t_temp" then 16385%N
  else if String.eqb (relname r) "v1" then 16386%N
  else if String.eqb (relname r) "seq1" then 16387%N
  else if String.eqb (relname r) "mv1" then 16389%N
  else if String.eqb (relname r) "idx_mv1" then 16390%N
  else if String.eqb (relname r) "idx_perm" then 16391%N
  else InvalidOid.

Definition relkind_of (relid : Oid) : ascii :=
  if N.eqb relid 16384%N then RELKIND_RELATION
  else if N.eqb relid 16385%N then RELKIND_RELATION
  else if N.eqb relid 16386%N then RELKIND_VIEW
  else if N.eqb relid 16387%N then RELKIND_SEQUENCE
  else if N.eqb relid 16389%N then RELKIND_MATVIEW
  else if N.eqb relid 16390%N then RELKIND_INDEX
  else if N.eqb relid 16391%N then RELKIND_INDEX
  else Ascii.zero.

Definition heap_of (indexId : Oid) : ErrorData + Oid :=
  if N.eqb indexId 16390%N then inr 16389%N
  else if N.eqb indexId 16391%N then inr 16384%N
  else inl (elog_ERROR "cache lookup failed for index").

Definition remote_node (q : string) (n : Node) (t : RemoteQueryExecType) (temp : bool)
  : Node :=
  T_RemoteQuery
    {| sql_node := Some n; combine_type := COMBINE_TYPE_SAME; exec_nodes := None;
       sql_statement := q; rq_force_autocommit := false; rq_exec_type := t;
       rq_is_temp := temp |}.

(** CREATE TABLE t_serial expands as a table with a serial column and a
    primary key does; any other CREATE TABLE into itself. *)
Definition expansion (s : CreateStmt) : list Node * option Node :=
  if String.eqb (relname (relation s)) "t_serial" then
    ([T_CreateSeqStmt (mkCreateSeqStmt (rel "t_serial_id_seq") true);
      T_CreateStmt s;
      T_IndexStmt (mkIndexStmt (relation s) false true);
      T_AlterSeqStmt (mkAlterSeqStmt (rel "t_serial_id_seq") true)],
     Some (T_CreateStmt s))
  else ([T_CreateStmt s], Some (T_CreateStmt s)).

Definition no_failure (ev : Event) : option ErrorData := None.

(** [master]: the node is the coordinating entry point; [datanodes]: how
    many data nodes are registered; [in_block]: a transaction block is open;
    [commit_ok]: what the transaction manager answers to COMMIT and
    PREPARE; [failing]: the calls that raise. *)
Definition cluster (master : bool) (datanodes : Z) (in_block commit_ok : bool)
    (failing : Event -> option ErrorData) : Env :=
  {| IsCoordMaster := master;
     IS_PGXC_COORDINATOR := true;
     IsConnFromCoord := negb master;
     IsNormalProcessingMode := true;
     NumDataNodes := datanodes;
     XactReadOnly := false;
     IsInParallelMode := false;
     RecoveryInProgress := false;
     IsTransactionBlock := in_block;
     makeRangeVarFromNameList := fun names => rel (last names "");
     RangeVarGetRelid := relid_of;
     IsTempTable := fun relid => N.eqb relid 16385%N;
     get_rel_relkind := relkind_of;
     IndexGetRelation := heap_of;
     EventTriggerSupportsObjectType :=
       fun t => match t with
                | OBJECT_DATABASE | OBJECT_TABLESPACE | OBJECT_ROLE
                | OBJECT_EVENT_TRIGGER => false
                | _ => true
                end;
     EventTriggerBeginCompleteQuery_result := true;
     EndTransactionBlock_result := commit_ok;
     PrepareTransactionBlock_result := fun _ => commit_ok;
     transformCreateStmt_result := expansion;
     transformAlterTableStmt_result := fun _ s => [T_AlterTableStmt s];
     AlterTableLookupRelation_result := fun s => relid_of (at_relation s);
     RangeVarGetRelidExtended_result := relid_of;
     transformIndexStmt_result := fun _ s => s;
     handler_address := fun _ => mkObjectAddress 1259%N 20000%N 0%Z;
     get_object_address_relation := fun _ => None;
     AddRemoteParseTree :=
       fun stmts q n t temp => stmts ++ [remote_node q n t temp];
     fails := failing |}.

(** The table builder refuses. *)
Definition relation_exists : ErrorData :=
  mkError ERRCODE_INTERNAL_ERROR "relation already exists".

Definition DefineRelation_fails (ev : Event) : option ErrorData :=
  match ev with
  | E_DefineRelation _ _ => Some relation_exists
  | _ => None
  end.

Definition coordinator : Env := cluster true 2 false true no_failure.

Definition drop_tables (names : list string) (if_exists : bool) : DropStmt :=
  mkDropStmt (map (fun n => [n]) names) OBJECT_TABLE if_exists false.

Definition create_table (name : string) : CreateStmt := mkCreateStmt (rel name) [] false.

Definition request (t : RemoteQueryExecType) (forwarded : bool) : RemoteUtilityContext :=
  set_exec_type t (init_utilityContext forwarded "DROP ROLE r").

End Cluster.


(* ------------------------------------------------------------------ *)
(** ** Further observations *)

(** The local removal of a DROP. *)
Definition is_removal (ev : Event) : bool :=
  match ev with
  | E_RemoveRelations _ | E_RemoveObjects _ => true
  | _ => false
  end.

(** The relation [get_object_address] hands back for a rule or a trigger,
    when there is one and its identifier is valid. *)
Definition rule_relation (env : Env) (stmt : DropStmt) : option Oid :=
  match get_object_address_relation env stmt with
  | Some rd_id => if OidIsValid rd_id then Some rd_id else None
  | None => None
  end.

(** The statement kinds of the model that [check_xact_readonly] lists. *)
Definition read_only_sensitive (parsetree : Node) : bool :=
  match parsetree with
  | T_TransactionStmt _ | T_RemoteQuery _ => false
  | _ => true
  end.

Definition is_cluster_lock (ev : Event) : bool :=
  match ev with E_pgxc_lock_for_utility_stmt _ => true | _ => false end.

(** The lock taken for a statement that may not run while the cluster is
    locked for backup. *)
Definition entry_lock (env : Env) (parsetree : Node) (queryString : string) : M unit :=
  when (IsCoordMaster env && IsNormalProcessingMode env)
    (when (negb (IsStmtAllowedInLockedMode parsetree queryString))
       (call env (E_pgxc_lock_for_utility_stmt parsetree))).


(** Sessions for the examples: an environment with one answer changed. *)
Module Session.

Definition with_state (env : Env) (read_only parallel recovery in_block : bool) : Env :=
  {| IsCoordMaster := IsCoordMaster env;
     IS_PGXC_COORDINATOR := IS_PGXC_COORDINATOR env;
     IsConnFromCoord := IsConnFromCoord env;
     IsNormalProcessingMode := IsNormalProcessingMode env;
     NumDataNodes := NumDataNodes env;
     XactReadOnly := read_only;
     IsInParallelMode := parallel;
     RecoveryInProgress := recovery;
     IsTransactionBlock := in_block;
     makeRangeVarFromNameList := makeRangeVarFromNameList env;
     RangeVarGetRelid := RangeVarGetRelid env;
     IsTempTable := IsTempTable env;
     get_rel_relkind := get_rel_relkind env;
     IndexGetRelation := IndexGetRelation env;
     EventTriggerSupportsObjectType := EventTriggerSupportsObjectType env;
     EventTriggerBeginCompleteQuery_result := EventTriggerBeginCompleteQuery_result env;
     EndTransactionBlock_result := EndTransactionBlock_result env;
     PrepareTransactionBlock_result := PrepareTransactionBlock_result env;
     transformCreateStmt_result := transformCreateStmt_result env;
     transformAlterTableStmt_result := transformAlterTableStmt_result env;
     AlterTableLookupRelation_result := AlterTableLookupRelation_result env;
     RangeVarGetRelidExtended_result := RangeVarGetRelidExtended_result env;
     transformIndexStmt_result := transformIndexStmt_result env;
     handler_address := handler_address env;
     get_object_address_relation := get_object_address_relation env;
     AddRemoteParseTree := AddRemoteParseTree env;
     fails := fails env |}.

Definition read_only (env : Env) : Env := with_state env true false false false.

Definition in_recovery (env : Env) : Env := with_state env false false true false.

End Session.

(** The sub-commands of ALTER TABLE that only change the node list of a
    table. *)
Definition changes_node_list_only (cmd : AlterTableCmd) : Prop :=
  In (subtype cmd) [AT_SubCluster; AT_AddNodeList; AT_DeleteNodeList].

(** Whether a CREATE TABLE asks for a temporary table. *)
Definition is_object_temp (stmt : CreateStmt) : bool :=
  Ascii.eqb (relpersistence (relation stmt)) RELPERSISTENCE_TEMP.

(** The statements the scan of an expansion looks at. *)
Definition creates_a_table (s : Node) : bool :=
  match s with
  | T_CreateStmt _ | T_CreateForeignTableStmt _ => true
  | _ => false
  end.

(** What the scan has established of the list it went through when it
    returns [b]. *)
Definition scanned (b : bool) (stmts : list Node) : Prop :=
  Forall (fun s =>
            match s with
            | T_CreateStmt c =>
                is_object_temp c = b /\ (b = true -> distributeby c = false)
            | _ => True
            end) stmts.


(** The options of BEGIN and START TRANSACTION the handler acts on. *)
Definition is_transaction_variable (item : DefElem) : bool :=
  String.eqb (defname item) "transaction_isolation"
  || String.eqb (defname item) "transaction_read_only"
  || String.eqb (defname item) "transaction_deferrable".

(** The triggers fired around a complete DDL command. *)
Definition is_ddl_trigger (ev : Event) : bool :=
  match ev with
  | E_EventTriggerDDLCommandStart _ | E_EventTriggerSQLDrop _
  | E_EventTriggerDDLCommandEnd _ => true
  | _ => false
  end.

(** Any call to the change-notification collaborator. *)
Definition is_event_trigger (ev : Event) : bool :=
  match ev with
  | E_EventTriggerBeginCompleteQuery | E_EventTriggerEndCompleteQuery
  | E_EventTriggerDDLCommandStart _ | E_EventTriggerCollectSimpleCommand _ _ _
  | E_EventTriggerSQLDrop _ | E_EventTriggerDDLCommandEnd _
  | E_EventTriggerAlterTableStart _ | E_EventTriggerAlterTableRelid _
  | E_EventTriggerAlterTableEnd => true
  | _ => false
  end.

(* ------------------------------------------------------------------ *)
(** ** Placement of GRANT, of RENAME and its like, and of rules *)

(** [GrantTargetType] and [GrantObjectType] of nodes/parsenodes.h. *)
Inductive GrantTargetType : Type :=
| ACL_TARGET_OBJECT
| ACL_TARGET_ALL_IN_SCHEMA
| ACL_TARGET_DEFAULTS.

Inductive GrantObjectType : Type :=
| ACL_OBJECT_COLUMN | ACL_OBJECT_RELATION | ACL_OBJECT_SEQUENCE
| ACL_OBJECT_DATABASE | ACL_OBJECT_DOMAIN | ACL_OBJECT_FDW
| ACL_OBJECT_FOREIGN_SERVER | ACL_OBJECT_FUNCTION | ACL_OBJECT_LANGUAGE
| ACL_OBJECT_LARGEOBJECT | ACL_OBJECT_NAMESPACE | ACL_OBJECT_TABLESPACE
| ACL_OBJECT_TYPE.

Record GrantStmt : Type := mkGrantStmt {
  targtype : GrantTargetType;
  objtype : GrantObjectType;
  grant_objects : list RangeVar     (* [objects], for a grant on relations *)
}.


Definition GrantMultipleObjectTypes : ErrorData :=
  mkError ERRCODE_FEATURE_NOT_SUPPORTED
    "PGXC does not support GRANT on multiple object types".

Section Placement.

Variable env : Env.

(** [case T_GrantStmt:] of [standard_ProcessUtility], the
    [foreach (cell, stmt->objects)] loop with its locals [first],
    [type_local], [remoteExecType] and [is_temp]; returns [remoteExecType]
    and [is_temp]. *)
Fixpoint GrantStmt_foreach (cells : list RangeVar) (first : bool)
    (type_local remoteExecType : RemoteQueryExecType) (is_temp : bool)
  : M (RemoteQueryExecType * bool) :=
  match cells with
  | [] => ret (remoteExecType, is_temp)
  | relvar :: rest =>
      let relid := RangeVarGetRelid env relvar in
      (* Skip if object does not exist *)
      if negb (OidIsValid relid) then
        GrantStmt_foreach rest first type_local remoteExecType is_temp
      else
        let '(remoteExecType, is_temp2) := ExecUtilityFindNodesRelkind env relid in
        (* Check if object node type corresponds to the first one *)
        if first then
          GrantStmt_foreach rest false remoteExecType remoteExecType is_temp2
        else
          when (negb (RemoteQueryExecType_beq type_local remoteExecType)
                || negb (Bool.eqb is_temp is_temp2))
               (raise GrantMultipleObjectTypes) ;;
          GrantStmt_foreach rest first type_local remoteExecType is_temp
  end.

(** [case T_GrantStmt:], the block under [if (IsCoordMaster())], which
    comes before the grant itself is executed. *)
Definition GrantStmt_remote (stmt : GrantStmt) (utilityContext : RemoteUtilityContext)
  : M unit :=
  when (IsCoordMaster env)
    (let remoteExecType := EXEC_ON_ALL_NODES in
     let is_temp := false in
     ' (remoteExecType, is_temp) <-
         (* Launch GRANT on Coordinator if object is a sequence *)
         match objtype stmt, targtype stmt with
         | ACL_OBJECT_RELATION, ACL_TARGET_OBJECT =>
             GrantStmt_foreach (grant_objects stmt) true remoteExecType remoteExecType
               is_temp
         | _, _ => ret (remoteExecType, is_temp)
         end ;;
     when (negb is_temp)
       (ExecRemoteUtilityStmt env
          (set_is_temp is_temp (set_exec_type remoteExecType utilityContext)))).


(** Returns [exec_type] and what is left in [*is_temp], which comes in
    holding whatever the caller's variable held. *)
Definition GetNodesForRulesUtility (relation : RangeVar) (is_temp : bool)
  : ErrorData + (RemoteQueryExecType * bool) :=
  let relid := RangeVarGetRelid env relation in
  (* Skip if this Oid does not exist *)
  if negb (OidIsValid relid) then inr (EXEC_ON_NONE, is_temp)
  else ExecUtilityFindNodes env OBJECT_RULE relid.

(** [case T_RuleStmt:] of [ProcessUtilitySlow], the block under
    [if (IsCoordMaster())], after the rule has been defined.  The caller's
    [is_temp] is not initialised: [garbage] is what it holds. *)
Definition RuleStmt_remote (relation : RangeVar) (garbage : bool)
    (utilityContext : RemoteUtilityContext) : M unit :=
  when (IsCoordMaster env)
    (' (exec_type, is_temp) <- lift (GetNodesForRulesUtility relation garbage) ;;
     when (negb is_temp)
       (ExecRemoteUtilityStmt env
          (set_is_temp is_temp (set_exec_type exec_type utilityContext)))).

End Placement.

(** The placements of the relations a GRANT names that exist, in order. *)
Definition grant_placements (env : Env) (cells : list RangeVar)
  : list (RemoteQueryExecType * bool) :=
  map (ExecUtilityFindNodesRelkind env)
    (filter OidIsValid (map (RangeVarGetRelid env) cells)).

Definition placement_beq (p q : RemoteQueryExecType * bool) : bool :=
  RemoteQueryExecType_beq (fst p) (fst q) && Bool.eqb (snd p) (snd q).

(** The local part of CREATE INDEX: everything before the dispatch.
    Returns the placement. *)
Definition IndexStmt_local (env : Env) (parsetree : Node) (istmt : IndexStmt)
    (isTopLevel : bool) (secondaryObject : ObjectAddress)
  : M (RemoteQueryExecType * bool) :=
  when (idx_concurrent istmt) (raise ConcurrentIndexNotSupported) ;;
  let relid := RangeVarGetRelid env (idx_relation istmt) in
  ' (exec_type, is_temp) <-
      (if OidIsValid relid
       then lift (ExecUtilityFindNodes env OBJECT_INDEX relid)
       else ret (EXEC_ON_NONE, false)) ;;
  when (idx_concurrent istmt)
    (PreventTransactionChain env isTopLevel "CREATE INDEX CONCURRENTLY") ;;
  call env (E_RangeVarGetRelidExtended (idx_relation istmt)) ;;
  let relid := RangeVarGetRelidExtended_result env (idx_relation istmt) in
  call env (E_transformIndexStmt relid istmt) ;;
  let istmt := transformIndexStmt_result env relid istmt in
  call env (E_EventTriggerAlterTableStart parsetree) ;;
  address <- call_address env (E_DefineIndex relid istmt) ;;
  EventTriggerCollectSimpleCommand env address secondaryObject parsetree ;;
  call env E_EventTriggerAlterTableEnd ;;
  ret (exec_type, is_temp).

(* ------------------------------------------------------------------ *)
(** ** The classifiers over every statement kind

    [CommandIsReadOnly], [check_xact_readonly], [UtilityContainsQuery] and
    [GetCommandLogLevel] switch on the node tag of any statement.  They read
    fields of eight kinds of node only; every other statement is its tag. *)

Module Parsetree.

(** [CmdType] (nodes/nodes.h) and [LogStmtLevel] (tcop/tcopprot.h). *)
Inductive CmdType : Type :=
| CMD_UNKNOWN | CMD_SELECT | CMD_UPDATE | CMD_INSERT | CMD_DELETE
| CMD_UTILITY | CMD_NOTHING.

Inductive LogStmtLevel : Type :=
| LOGSTMT_NONE | LOGSTMT_DDL | LOGSTMT_MOD | LOGSTMT_ALL.

(** The tags this file names, but for the eight kinds whose fields are read. *)
Inductive NodeTag : Type :=
| T_InsertStmt | T_DeleteStmt | T_UpdateStmt | T_TransactionStmt
| T_DeclareCursorStmt | T_ClosePortalStmt | T_FetchStmt | T_CreateSchemaStmt
| T_CreateStmt | T_CreateForeignTableStmt | T_CreateTableSpaceStmt
| T_DropTableSpaceStmt | T_AlterTableSpaceOptionsStmt | T_CreateExtensionStmt
| T_AlterExtensionStmt | T_AlterExtensionContentsStmt | T_CreateFdwStmt
| T_AlterFdwStmt | T_CreateForeignServerStmt | T_AlterForeignServerStmt
| T_CreateUserMappingStmt | T_AlterUserMappingStmt | T_DropUserMappingStmt
| T_ImportForeignSchemaStmt | T_DropStmt | T_TruncateStmt | T_CommentStmt
| T_SecLabelStmt | T_DeallocateStmt | T_RenameStmt | T_AlterObjectDependsStmt
| T_AlterObjectSchemaStmt | T_AlterOwnerStmt | T_AlterTableMoveAllStmt
| T_AlterTableStmt | T_AlterDomainStmt | T_GrantStmt | T_GrantRoleStmt
| T_AlterDefaultPrivilegesStmt | T_DefineStmt | T_CompositeTypeStmt
| T_CreateEnumStmt | T_CreateRangeStmt | T_AlterEnumStmt | T_ViewStmt
| T_CreateFunctionStmt | T_AlterFunctionStmt | T_IndexStmt | T_RuleStmt
| T_CreateSeqStmt | T_AlterSeqStmt | T_DoStmt | T_CreatedbStmt
| T_AlterDatabaseStmt | T_AlterDatabaseSetStmt | T_DropdbStmt | T_NotifyStmt
| T_ListenStmt | T_UnlistenStmt | T_LoadStmt | T_ClusterStmt | T_VacuumStmt
| T_RefreshMatViewStmt | T_AlterSystemStmt | T_VariableSetStmt
| T_VariableShowStmt | T_DiscardStmt | T_CreateTrigStmt
| T_CreateEventTrigStmt | T_AlterEventTrigStmt | T_CreatePLangStmt
| T_CreateDomainStmt | T_CreateRoleStmt | T_AlterRoleStmt | T_AlterRoleSetStmt
| T_DropRoleStmt | T_DropOwnedStmt | T_ReassignOwnedStmt | T_LockStmt
| T_ConstraintsSetStmt | T_CheckPointStmt | T_ReindexStmt
| T_CreateConversionStmt | T_CreateCastStmt | T_CreateOpClassStmt
| T_CreateOpFamilyStmt | T_CreateTransformStmt | T_AlterOpFamilyStmt
| T_CreatePolicyStmt | T_AlterPolicyStmt | T_AlterTSDictionaryStmt
| T_AlterTSConfigurationStmt | T_CreateAmStmt | T_CreateNodeStmt
| T_AlterNodeStmt | T_DropNodeStmt | T_CreateGroupStmt | T_DropGroupStmt
| T_CleanConnStmt | T_ExecDirectStmt | T_BarrierStmt | T_AlterOperatorStmt
| T_RemoteQuery.

(** [DefElem]: an option of a statement, its argument as written. *)
Record DefElem : Type := mkDefElem { defname : string; arg : option string }.

Inductive Stmt : Type :=
| SelectStmt (intoClause : bool)
| CopyStmt (is_from : bool)
| PrepareStmt (query : Stmt)
| ExecuteStmt (name : string)
| ExplainStmt (query : Stmt) (options : list DefElem)
| CreateTableAsStmt (query : Stmt)
| PlannedStmt (commandType : CmdType) (rowMarks : list nat)
    (hasModifyingCTE : bool)
| Query (commandType : CmdType) (utilityStmt : option Stmt)
| Other (tag : NodeTag).

(** [elog(WARNING, ...)] of the classifiers. *)
Inductive Warning : Type :=
| unrecognized_commandType (commandType : CmdType)
| unrecognized_node_type (tag : NodeTag).

(** What a call comes to.  [Undefined]: the C code fails an [Assert] or reads
    through a null pointer.  [Unfinished]: the model ran out of fuel. *)
Inductive Answer (A : Type) : Type :=
| Returns (a : A)
| Throws (e : ErrorData)
| Undefined
| Unfinished.
Arguments Returns {A} a.
Arguments Throws {A} e.
Arguments Undefined {A}.
Arguments Unfinished {A}.

(** [CommandIsReadOnly]. *)
Definition CommandIsReadOnly (parsetree : Stmt) : list Warning * bool :=
  match parsetree with
  | PlannedStmt commandType rowMarks hasModifyingCTE =>
      match commandType with
      | CMD_SELECT =>
          match rowMarks with
          | _ :: _ => ([], false)      (* SELECT FOR [KEY] UPDATE/SHARE *)
          | [] => if hasModifyingCTE then ([], false)  (* data-modifying CTE *)
                  else ([], true)
          end
      | CMD_UPDATE | CMD_INSERT | CMD_DELETE => ([], false)
      | _ => ([unrecognized_commandType commandType], false)
      end
  | _ =>
      (* For now, treat all utility commands as read/write *)
      ([], false)
  end.

Section Check.

Variable env : Env.
(** [CreateCommandTag] over every statement kind is not embedded; the check
    only hands its answer to the two [Prevent...] calls. *)
Variable CreateCommandTag : Stmt -> string.

(** [check_xact_readonly]. *)
Definition check_xact_readonly (parsetree : Stmt) : M unit :=
  (* Only perform the check if we have a reason to do so. *)
  if negb (XactReadOnly env) && negb (IsInParallelMode env) then ret tt
  else
    match parsetree with
    | Other T_AlterDatabaseStmt | Other T_AlterDatabaseSetStmt
    | Other T_AlterDomainStmt | Other T_AlterFunctionStmt
    | Other T_AlterRoleStmt | Other T_AlterRoleSetStmt
    | Other T_AlterObjectDependsStmt | Other T_AlterObjectSchemaStmt
    | Other T_AlterOwnerStmt | Other T_AlterOperatorStmt
    | Other T_AlterSeqStmt | Other T_AlterTableMoveAllStmt
    | Other T_AlterTableStmt | Other T_RenameStmt | Other T_CommentStmt
    | Other T_DefineStmt | Other T_CreateCastStmt
    | Other T_CreateEventTrigStmt | Other T_AlterEventTrigStmt
    | Other T_CreateConversionStmt | Other T_CreatedbStmt
    | Other T_CreateDomainStmt | Other T_CreateFunctionStmt
    | Other T_CreateRoleStmt | Other T_IndexStmt | Other T_CreatePLangStmt
    | Other T_CreateOpClassStmt | Other T_CreateOpFamilyStmt
    | Other T_AlterOpFamilyStmt | Other T_RuleStmt | Other T_CreateSchemaStmt
    | Other T_CreateSeqStmt | Other T_CreateStmt | Other T_RefreshMatViewStmt
    | Other T_CreateTableSpaceStmt | Other T_CreateTransformStmt
    | Other T_CreateTrigStmt | Other T_CompositeTypeStmt
    | Other T_CreateEnumStmt | Other T_CreateRangeStmt | Other T_AlterEnumStmt
    | Other T_ViewStmt | Other T_DropStmt | Other T_DropdbStmt
    | Other T_DropTableSpaceStmt | Other T_DropRoleStmt | Other T_GrantStmt
    | Other T_GrantRoleStmt | Other T_AlterDefaultPrivilegesStmt
    | Other T_TruncateStmt | Other T_DropOwnedStmt | Other T_ReassignOwnedStmt
    | Other T_AlterTSDictionaryStmt | Other T_AlterTSConfigurationStmt
    | Other T_CreateExtensionStmt | Other T_AlterExtensionStmt
    | Other T_AlterExtensionContentsStmt | Other T_CreateFdwStmt
    | Other T_AlterFdwStmt | Other T_CreateForeignServerStmt
    | Other T_AlterForeignServerStmt | Other T_CreateUserMappingStmt
    | Other T_AlterUserMappingStmt | Other T_DropUserMappingStmt
    | Other T_AlterTableSpaceOptionsStmt | Other T_CreateForeignTableStmt
    | Other T_ImportForeignSchemaStmt | Other T_SecLabelStmt
    | CreateTableAsStmt _ =>
        PreventCommandIfReadOnly env (CreateCommandTag parsetree) ;;
        PreventCommandIfParallelMode env (CreateCommandTag parsetree)
    | _ => ret tt
    end.

End Check.

(** [UtilityContainsQuery]: the contained [Query], or NULL. *)
Fixpoint UtilityContainsQuery (parsetree : Stmt) : Answer (option Stmt) :=
  match parsetree with
  | ExplainStmt qry _ =>
      match qry with
      | Query commandType utilityStmt =>
          match commandType with
          | CMD_UTILITY =>
              match utilityStmt with
              | Some stmt => UtilityContainsQuery stmt
              | None => Undefined
              end
          | _ => Returns (Some qry)
          end
      | _ => Undefined               (* Assert(IsA(qry, Query)) *)
      end
  | CreateTableAsStmt qry =>
      match qry with
      | Query commandType utilityStmt =>
          match commandType with
          | CMD_UTILITY =>
              match utilityStmt with
              | Some stmt => UtilityContainsQuery stmt
              | None => Undefined
              end
          | _ => Returns (Some qry)
          end
      | _ => Undefined               (* Assert(IsA(qry, Query)) *)
      end
  | _ => Returns None
  end.

(** [GetCommandLogLevel] on the statements that are their tag. *)
Definition GetCommandLogLevel_tag (tag : NodeTag)
  : list Warning * Answer LogStmtLevel :=
  match tag with
  | T_InsertStmt | T_DeleteStmt | T_UpdateStmt =>
      ([], Returns LOGSTMT_MOD)
  | T_TransactionStmt =>
      ([], Returns LOGSTMT_ALL)
  | T_DeclareCursorStmt =>
      ([], Returns LOGSTMT_ALL)
  | T_ClosePortalStmt =>
      ([], Returns LOGSTMT_ALL)
  | T_FetchStmt =>
      ([], Returns LOGSTMT_ALL)
  | T_CreateSchemaStmt =>
      ([], Returns LOGSTMT_DDL)
  | T_CreateStmt | T_CreateForeignTableStmt =>
      ([], Returns LOGSTMT_DDL)
  | T_CreateTableSpaceStmt | T_DropTableSpaceStmt
  | T_AlterTableSpaceOptionsStmt =>
      ([], Returns LOGSTMT_DDL)
  | T_CreateExtensionStmt | T_AlterExtensionStmt
  | T_AlterExtensionContentsStmt =>
      ([], Returns LOGSTMT_DDL)
  | T_CreateFdwStmt | T_AlterFdwStmt | T_CreateForeignServerStmt
  | T_AlterForeignServerStmt | T_CreateUserMappingStmt
  | T_AlterUserMappingStmt | T_DropUserMappingStmt | T_ImportForeignSchemaStmt =>
      ([], Returns LOGSTMT_DDL)
  | T_DropStmt =>
      ([], Returns LOGSTMT_DDL)
  | T_TruncateStmt =>
      ([], Returns LOGSTMT_MOD)
  | T_CommentStmt =>
      ([], Returns LOGSTMT_DDL)
  | T_SecLabelStmt =>
      ([], Returns LOGSTMT_DDL)
  | T_DeallocateStmt =>
      ([], Returns LOGSTMT_ALL)
  | T_RenameStmt =>
      ([], Returns LOGSTMT_DDL)
  | T_AlterObjectDependsStmt =>
      ([], Returns LOGSTMT_DDL)
  | T_AlterObjectSchemaStmt =>
      ([], Returns LOGSTMT_DDL)
  | T_AlterOwnerStmt =>
      ([], Returns LOGSTMT_DDL)
  | T_AlterTableMoveAllStmt | T_AlterTableStmt =>
      ([], Returns LOGSTMT_DDL)
  | T_AlterDomainStmt =>
      ([], Returns LOGSTMT_DDL)
  | T_GrantStmt =>
      ([], Returns LOGSTMT_DDL)
  | T_GrantRoleStmt =>
      ([], Returns LOGSTMT_DDL)
  | T_AlterDefaultPrivilegesStmt =>
      ([], Returns LOGSTMT_DDL)
  | T_DefineStmt =>
      ([], Returns LOGSTMT_DDL)
  | T_CompositeTypeStmt =>
      ([], Returns LOGSTMT_DDL)
  | T_CreateEnumStmt =>
      ([], Returns LOGSTMT_DDL)
  | T_CreateRangeStmt =>
      ([], Returns LOGSTMT_DDL)
  | T_AlterEnumStmt =>
      ([], Returns LOGSTMT_DDL)
  | T_ViewStmt =>
      ([], Returns LOGSTMT_DDL)
  | T_CreateFunctionStmt =>
      ([], Returns LOGSTMT_DDL)
  | T_AlterFunctionStmt =>
      ([], Returns LOGSTMT_DDL)
  | T_IndexStmt =>
      ([], Returns LOGSTMT_DDL)
  | T_RuleStmt =>
      ([], Returns LOGSTMT_DDL)
  | T_CreateSeqStmt =>
      ([], Returns LOGSTMT_DDL)
  | T_AlterSeqStmt =>
      ([], Returns LOGSTMT_DDL)
  | T_DoStmt =>
      ([], Returns LOGSTMT_ALL)
  | T_CreatedbStmt =>
      ([], Returns LOGSTMT_DDL)
  | T_AlterDatabaseStmt =>
      ([], Returns LOGSTMT_DDL)
  | T_AlterDatabaseSetStmt =>
      ([], Returns LOGSTMT_DDL)
  | T_DropdbStmt =>
      ([], Returns LOGSTMT_DDL)
  | T_NotifyStmt =>
      ([], Returns LOGSTMT_ALL)
  | T_ListenStmt =>
      ([], Returns LOGSTMT_ALL)
  | T_UnlistenStmt =>
      ([], Returns LOGSTMT_ALL)
  | T_LoadStmt =>
      ([], Returns LOGSTMT_ALL)
  | T_ClusterStmt =>
      ([], Returns LOGSTMT_DDL)
  | T_VacuumStmt =>
      ([], Returns LOGSTMT_ALL)
  | T_RefreshMatViewStmt =>
      ([], Returns LOGSTMT_DDL)
  | T_AlterSystemStmt =>
      ([], Returns LOGSTMT_DDL)
  | T_VariableSetStmt =>
      ([], Returns LOGSTMT_ALL)
  | T_VariableShowStmt =>
      ([], Returns LOGSTMT_ALL)
  | T_DiscardStmt =>
      ([], Returns LOGSTMT_ALL)
  | T_CreateTrigStmt =>
      ([], Returns LOGSTMT_DDL)
  | T_CreateEventTrigStmt =>
      ([], Returns LOGSTMT_DDL)
  | T_AlterEventTrigStmt =>
      ([], Returns LOGSTMT_DDL)
  | T_CreatePLangStmt =>
      ([], Returns LOGSTMT_DDL)
  | T_CreateDomainStmt =>
      ([], Returns LOGSTMT_DDL)
  | T_CreateRoleStmt =>
      ([], Returns LOGSTMT_DDL)
  | T_AlterRoleStmt =>
      ([], Returns LOGSTMT_DDL)
  | T_AlterRoleSetStmt =>
      ([], Returns LOGSTMT_DDL)
  | T_DropRoleStmt =>
      ([], Returns LOGSTMT_DDL)
  | T_DropOwnedStmt =>
      ([], Returns LOGSTMT_DDL)
  | T_ReassignOwnedStmt =>
      ([], Returns LOGSTMT_DDL)
  | T_LockStmt =>
      ([], Returns LOGSTMT_ALL)
  | T_ConstraintsSetStmt =>
      ([], Returns LOGSTMT_ALL)
  | T_CheckPointStmt =>
      ([], Returns LOGSTMT_ALL)
  | T_ReindexStmt =>
      ([], Returns LOGSTMT_ALL)
  | T_CreateConversionStmt =>
      ([], Returns LOGSTMT_DDL)
  | T_CreateCastStmt =>
      ([], Returns LOGSTMT_DDL)
  | T_CreateOpClassStmt =>
      ([], Returns LOGSTMT_DDL)
  | T_CreateOpFamilyStmt =>
      ([], Returns LOGSTMT_DDL)
  | T_CreateTransformStmt =>
      ([], Returns LOGSTMT_DDL)
  | T_AlterOpFamilyStmt =>
      ([], Returns LOGSTMT_DDL)
  | T_CreatePolicyStmt =>
      ([], Returns LOGSTMT_DDL)
  | T_AlterPolicyStmt =>
      ([], Returns LOGSTMT_DDL)
  | T_AlterTSDictionaryStmt =>
      ([], Returns LOGSTMT_DDL)
  | T_AlterTSConfigurationStmt =>
      ([], Returns LOGSTMT_DDL)
  | T_CreateAmStmt =>
      ([], Returns LOGSTMT_DDL)
  | T_CreateNodeStmt | T_AlterNodeStmt | T_DropNodeStmt | T_CreateGroupStmt
  | T_DropGroupStmt | T_CleanConnStmt =>
      ([], Returns LOGSTMT_DDL)
  | T_ExecDirectStmt | T_BarrierStmt =>
      ([], Returns LOGSTMT_ALL)
  | _ =>
      ([unrecognized_node_type tag], Returns LOGSTMT_ALL)
  end.

Section LogLevel.

(** [defGetBoolean] (commands/define.c) raises on an argument that is no
    boolean; [FetchPreparedStatement(name, false)] answers NULL, or the
    statement with its [raw_parse_tree], itself NULL or not. *)
Variable defGetBoolean : DefElem -> ErrorData + bool.
Variable FetchPreparedStatement : string -> option (option Stmt).

(** The [foreach] over the options of EXPLAIN: the last [analyze] wins. *)
Fixpoint ExplainStmt_analyze (options : list DefElem) (analyze : bool)
  : ErrorData + bool :=
  match options with
  | [] => inr analyze
  | opt :: rest =>
      if String.eqb (defname opt) "analyze" then
        match defGetBoolean opt with
        | inl e => inl e
        | inr b => ExplainStmt_analyze rest b
        end
      else ExplainStmt_analyze rest analyze
      (* don't "break", as explain.c will use the last value *)
  end.

(** [GetCommandLogLevel].  The tree a prepared statement was made from is
    not part of the argument: the depth of the recursion is bounded by
    [fuel]. *)
Fixpoint GetCommandLogLevel (fuel : nat) (parsetree : Stmt)
  : list Warning * Answer LogStmtLevel :=
  match fuel with
  | O => ([], Unfinished)
  | S fuel =>
      match parsetree with
      | SelectStmt intoClause =>
          if intoClause then ([], Returns LOGSTMT_DDL)  (* SELECT INTO *)
          else ([], Returns LOGSTMT_ALL)
      | CopyStmt is_from =>
          if is_from then ([], Returns LOGSTMT_MOD)
          else ([], Returns LOGSTMT_ALL)
      | PrepareStmt query =>
          (* Look through a PREPARE to the contained stmt *)
          GetCommandLogLevel fuel query
      | ExecuteStmt name =>
          (* Look through an EXECUTE to the referenced stmt *)
          match FetchPreparedStatement name with
          | Some (Some raw_parse_tree) =>
              GetCommandLogLevel fuel raw_parse_tree
          | _ => ([], Returns LOGSTMT_ALL)
          end
      | ExplainStmt query options =>
          (* Look through an EXPLAIN ANALYZE to the contained stmt *)
          match ExplainStmt_analyze options false with
          | inl e => ([], Throws e)
          | inr true => GetCommandLogLevel fuel query
          | inr false => ([], Returns LOGSTMT_ALL)
          end
      | CreateTableAsStmt _ => ([], Returns LOGSTMT_DDL)
      | PlannedStmt commandType _ _ =>
          match commandType with
          | CMD_SELECT => ([], Returns LOGSTMT_ALL)
          | CMD_UPDATE | CMD_INSERT | CMD_DELETE => ([], Returns LOGSTMT_MOD)
          | _ => ([unrecognized_commandType commandType], Returns LOGSTMT_ALL)
          end
      | Query commandType utilityStmt =>
          match commandType with
          | CMD_SELECT => ([], Returns LOGSTMT_ALL)
          | CMD_UPDATE | CMD_INSERT | CMD_DELETE => ([], Returns LOGSTMT_MOD)
          | CMD_UTILITY =>
              match utilityStmt with
              | Some stmt => GetCommandLogLevel fuel stmt
              | None => ([], Undefined)
              end
          | _ => ([unrecognized_commandType commandType], Returns LOGSTMT_ALL)
          end
      | Other tag => GetCommandLogLevel_tag tag
      end
  end.

End LogLevel.

(** A statement as parse analysis leaves it: what EXPLAIN and CREATE TABLE AS
    hold is a [Query], and a utility [Query] holds its statement. *)
Fixpoint parse_analyzed (parsetree : Stmt) : bool :=
  match parsetree with
  | ExplainStmt qry _ | CreateTableAsStmt qry =>
      match qry with
      | Query CMD_UTILITY (Some stmt) => parse_analyzed stmt
      | Query CMD_UTILITY None => false
      | Query _ _ => true
      | _ => false
      end
  | _ => true
  end.

End Parsetree.

(** The statements of [Node] among those of [Parsetree.Stmt]. *)
Definition nodeTag (parsetree : Node) : Parsetree.Stmt :=
  Parsetree.Other
    match parsetree with
    | T_TransactionStmt _ => Parsetree.T_TransactionStmt
    | T_CreateStmt _ => Parsetree.T_CreateStmt
    | T_CreateForeignTableStmt _ => Parsetree.T_CreateForeignTableStmt
    | T_AlterTableStmt _ => Parsetree.T_AlterTableStmt
    | T_IndexStmt _ => Parsetree.T_IndexStmt
    | T_CreateSeqStmt _ => Parsetree.T_CreateSeqStmt
    | T_AlterSeqStmt _ => Parsetree.T_AlterSeqStmt
    | T_DropStmt _ => Parsetree.T_DropStmt
    | T_CreateRoleStmt _ => Parsetree.T_CreateRoleStmt
    | T_RemoteQuery _ => Parsetree.T_RemoteQuery
    end.

(* ================================================================== *)
(** * Properties *)

Unset Implicit Arguments.

(** ** Laws of the computation type *)

Lemma bind_ret_l {A B} (a : A) (f : A -> M B) : bind (ret a) f = f a.
Proof. unfold bind, ret. destruct (f a). reflexivity. Qed.

(* ------------------------------------------------------------------ *)
(** ** Remote dispatcher *)

Section Dispatcher.

Variable env : Env.

(** C1.  The remote dispatcher applies its short-circuits in the order:
    not the coordinating entry point, target NONE, already forwarded, no
    data node.  Each of the first three is a no-op without a call to the
    transport, whatever the later conditions are; the fourth raises
    NoDataNodesConfigured.  So with no data node a request for ALL_NODES that
    reaches the fourth check fails, and a request for NONE is a no-op. *)
Theorem ExecRemoteUtilityStmt_short_circuits (context : RemoteUtilityContext) :
  (IsCoordMaster env = false ->
     ExecRemoteUtilityStmt env context = ([], Ok tt))
  /\ (IsCoordMaster env = true -> exec_type context = EXEC_ON_NONE ->
     ExecRemoteUtilityStmt env context = ([], Ok tt))
  /\ (IsCoordMaster env = true -> exec_type context <> EXEC_ON_NONE ->
      sentToRemote context = true ->
     ExecRemoteUtilityStmt env context = ([], Ok tt))
  /\ (IsCoordMaster env = true -> exec_type context <> EXEC_ON_NONE ->
      sentToRemote context = false -> NumDataNodes env = 0%Z ->
     ExecRemoteUtilityStmt env context = ([], Raise NoDataNodesConfigured))
  /\ (NumDataNodes env = 0%Z -> exec_type context = EXEC_ON_NONE ->
     ExecRemoteUtilityStmt env context = ([], Ok tt))
  /\ (NumDataNodes env = 0%Z -> exec_type context = EXEC_ON_ALL_NODES ->
      IsCoordMaster env = true -> sentToRemote context = false ->
     ExecRemoteUtilityStmt env context = ([], Raise NoDataNodesConfigured)).
Proof.
  unfold ExecRemoteUtilityStmt.
  repeat split.
  - intros ->. reflexivity.
  - intros -> ->. reflexivity.
  - intros -> Hne ->. destruct (exec_type context); try congruence; reflexivity.
  - intros -> Hne -> ->. destruct (exec_type context); try congruence; reflexivity.
  - intros _ ->. destruct (IsCoordMaster env); reflexivity.
  - intros -> -> -> ->. reflexivity.
Qed.

End Dispatcher.

Lemma ExecRemoteUtilityStmt_short_circuits_witness :
  ExecRemoteUtilityStmt (Cluster.cluster true 0 false true Cluster.no_failure)
    (Cluster.request EXEC_ON_ALL_NODES false)
  = ([], Raise NoDataNodesConfigured)
  /\ ExecRemoteUtilityStmt (Cluster.cluster true 0 false true Cluster.no_failure)
       (Cluster.request EXEC_ON_NONE false)
     = ([], Ok tt).
Proof.
  pose proof (ExecRemoteUtilityStmt_short_circuits
                (Cluster.cluster true 0 false true Cluster.no_failure)
                (Cluster.request EXEC_ON_ALL_NODES false)) as Hall.
  pose proof (ExecRemoteUtilityStmt_short_circuits
                (Cluster.cluster true 0 false true Cluster.no_failure)
                (Cluster.request EXEC_ON_NONE false)) as Hnone.
  split.
  - apply Hall; reflexivity.
  - apply Hnone; reflexivity.
Defined.

(* ------------------------------------------------------------------ *)
(** ** Node target resolver *)

Section Resolver.

Variable env : Env.

(** C5.  For an index the resolver answers, in this order of priority:
    DATA_NODES_ONLY and temporary when [IsTempTable] holds of the object it
    is given; else COORDINATORS_ONLY when the object is a materialized view
    (CREATE INDEX passes the relation to index) or is an index whose base
    relation is one; else ALL_NODES.  An index on a materialized view that is
    not temporary resolves to COORDINATORS_ONLY, not temporary. *)
Theorem ExecUtilityFindNodes_index (object_id : Oid) :
  (IsTempTable env object_id = true ->
     ExecUtilityFindNodes env OBJECT_INDEX object_id = inr (EXEC_ON_DATANODES, true))
  /\ (IsTempTable env object_id = false ->
      get_rel_relkind env object_id = RELKIND_MATVIEW ->
     ExecUtilityFindNodes env OBJECT_INDEX object_id = inr (EXEC_ON_COORDS, false))
  /\ (forall heapId,
      IsTempTable env object_id = false ->
      get_rel_relkind env object_id = RELKIND_INDEX ->
      IndexGetRelation env object_id = inr heapId ->
      get_rel_relkind env heapId = RELKIND_MATVIEW ->
     ExecUtilityFindNodes env OBJECT_INDEX object_id = inr (EXEC_ON_COORDS, false))
  /\ (forall heapId,
      IsTempTable env object_id = false ->
      get_rel_relkind env object_id = RELKIND_INDEX ->
      IndexGetRelation env object_id = inr heapId ->
      get_rel_relkind env heapId <> RELKIND_MATVIEW ->
     ExecUtilityFindNodes env OBJECT_INDEX object_id = inr (EXEC_ON_ALL_NODES, false))
  /\ (IsTempTable env object_id = false ->
      get_rel_relkind env object_id <> RELKIND_MATVIEW ->
      get_rel_relkind env object_id <> RELKIND_INDEX ->
     ExecUtilityFindNodes env OBJECT_INDEX object_id = inr (EXEC_ON_ALL_NODES, false)).
Proof.
  unfold ExecUtilityFindNodes.
  repeat split.
  - intros ->. reflexivity.
  - intros -> ->. reflexivity.
  - intros heapId -> -> -> ->. reflexivity.
  - intros heapId -> -> -> Hheap.
    apply Ascii.eqb_neq in Hheap. rewrite Hheap. reflexivity.
  - intros -> Hmv Hidx.
    apply Ascii.eqb_neq in Hmv. apply Ascii.eqb_neq in Hidx.
    rewrite Hmv, Hidx. reflexivity.
Qed.

End Resolver.

Lemma ExecUtilityFindNodes_index_witness :
  ExecUtilityFindNodes Cluster.coordinator OBJECT_INDEX 16390%N
  = inr (EXEC_ON_COORDS, false).
Proof.
  apply (proj1 (proj2 (proj2 (ExecUtilityFindNodes_index Cluster.coordinator 16390%N)))
           16389%N); reflexivity.
Defined.

(* ------------------------------------------------------------------ *)
(** ** Drop consistency checker *)

Lemma bind_raise_l {A B} (e : ErrorData) (f : A -> M B) : bind (raise e) f = raise e.
Proof. reflexivity. Qed.

Lemma when_true (m : M unit) : when true m = m.
Proof. reflexivity. Qed.

Lemma when_false (m : M unit) : when false m = ret tt.
Proof. reflexivity. Qed.

Lemma lift_inr {A} (a : A) : lift (inr a) = ret a.
Proof. reflexivity. Qed.

Lemma lift_inl {A} (e : ErrorData) : @lift A (inl e) = raise e.
Proof. reflexivity. Qed.

Ltac msimpl :=
  repeat (rewrite ?bind_ret_l, ?bind_raise_l, ?when_true, ?when_false,
            ?lift_inr, ?lift_inl; cbn [negb andb orb]).

Section DropChecker.

Variable env : Env.
Variable stmt : DropStmt.

Abbreviation loop := (DropStmtPreTreatment_foreach env stmt).
Abbreviation find cell := (ExecUtilityFindNodes env (removeType stmt) (named_relid env cell)).

Lemma loop_missing_tolerated cell rest is_first t e :
  OidIsValid (named_relid env cell) = false -> missing_ok stmt = true ->
  loop (cell :: rest) is_first t e = loop rest is_first t e.
Proof.
  unfold named_relid. intros Hv Hm. cbn [DropStmtPreTreatment_foreach].
  rewrite Hv, Hm. msimpl. reflexivity.
Qed.

Lemma loop_missing_raises cell rest is_first t e :
  OidIsValid (named_relid env cell) = false -> missing_ok stmt = false ->
  loop (cell :: rest) is_first t e
  = raise (UndefinedObject (makeRangeVarFromNameList env cell)).
Proof.
  unfold named_relid. intros Hv Hm. cbn [DropStmtPreTreatment_foreach].
  rewrite Hv, Hm. msimpl. unfold DropTableThrowErrorExternal. cbv iota.
  msimpl. reflexivity.
Qed.

Lemma loop_first cell rest t e p :
  OidIsValid (named_relid env cell) = true -> find cell = inr p ->
  loop (cell :: rest) true t e = loop rest false (snd p) (fst p).
Proof.
  unfold named_relid. intros Hv Hp. cbn [DropStmtPreTreatment_foreach].
  rewrite Hv, Hp. msimpl. destruct p. reflexivity.
Qed.

Lemma loop_next_same cell rest t e :
  OidIsValid (named_relid env cell) = true -> find cell = inr (e, t) ->
  loop (cell :: rest) false t e = loop rest false t e.
Proof.
  unfold named_relid. intros Hv Hp. cbn [DropStmtPreTreatment_foreach].
  rewrite Hv, Hp. msimpl.
  replace (RemoteQueryExecType_beq e e) with true
    by (destruct e; reflexivity).
  rewrite Bool.eqb_reflx. msimpl. reflexivity.
Qed.

Lemma loop_next_differs cell rest t e p :
  OidIsValid (named_relid env cell) = true -> find cell = inr p -> p <> (e, t) ->
  loop (cell :: rest) false t e = raise MixedPlacementError.
Proof.
  unfold named_relid. intros Hv Hp Hne. cbn [DropStmtPreTreatment_foreach].
  rewrite Hv, Hp. msimpl. destruct p as [e' t'].
  assert (negb (RemoteQueryExecType_beq e' e) || negb (Bool.eqb t' t) = true) as ->.
  { destruct (RemoteQueryExecType_beq e' e) eqn:He; [|reflexivity].
    destruct (Bool.eqb t' t) eqn:Ht; [|reflexivity].
    exfalso. apply Hne.
    apply internal_RemoteQueryExecType_dec_bl in He.
    apply Bool.eqb_prop in Ht. congruence. }
  msimpl. reflexivity.
Qed.

Lemma loop_lookup_raises cell rest is_first t e err :
  OidIsValid (named_relid env cell) = true -> find cell = inl err ->
  loop (cell :: rest) is_first t e = raise err.
Proof.
  unfold named_relid. intros Hv Hp. cbn [DropStmtPreTreatment_foreach].
  rewrite Hv, Hp. msimpl. destruct is_first; msimpl; reflexivity.
Qed.

(** Once a first object has been placed at [(e, t)], a later one placed
    elsewhere makes the loop raise, having called nothing. *)
Lemma loop_later_mismatch cells :
  forall t e cell p,
    In cell cells -> resolves env stmt cell p -> p <> (e, t) ->
    exists err, loop cells false t e = ([], Raise err).
Proof.
  induction cells as [|c rest IH]; intros t e cell p Hin Hres Hne.
  - destruct Hin.
  - destruct (OidIsValid (named_relid env c)) eqn:Hv.
    + destruct (find c) as [err|q] eqn:Hq.
      * rewrite (loop_lookup_raises _ _ _ _ _ _ Hv Hq). eexists; reflexivity.
      * destruct q as [e' t'].
        destruct (RemoteQueryExecType_eq_dec e' e) as [->|He].
        -- destruct (Bool.bool_dec t' t) as [->|Ht].
           ++ rewrite (loop_next_same _ _ _ _ Hv Hq).
              destruct Hin as [->|Hin].
              ** destruct Hres as [_ Hres]. congruence.
              ** eapply IH; eauto.
           ++ rewrite (loop_next_differs _ _ _ _ _ Hv Hq) by congruence.
              eexists; reflexivity.
        -- rewrite (loop_next_differs _ _ _ _ _ Hv Hq) by congruence.
           eexists; reflexivity.
    + destruct (missing_ok stmt) eqn:Hm.
      * rewrite (loop_missing_tolerated _ _ _ _ _ Hv Hm).
        destruct Hin as [->|Hin].
        -- destruct Hres as [Hres _]. congruence.
        -- eapply IH; eauto.
      * rewrite (loop_missing_raises _ _ _ _ _ Hv Hm). eexists; reflexivity.
Qed.

(** Two named objects placed differently make the whole loop raise. *)
Lemma loop_mismatch cells :
  forall t e c1 c2 p1 p2,
    In c1 cells -> In c2 cells ->
    resolves env stmt c1 p1 -> resolves env stmt c2 p2 -> p1 <> p2 ->
    exists err, loop cells true t e = ([], Raise err).
Proof.
  induction cells as [|c rest IH]; intros t e c1 c2 p1 p2 H1 H2 R1 R2 Hne.
  - destruct H1.
  - destruct (OidIsValid (named_relid env c)) eqn:Hv.
    + destruct (find c) as [err|q] eqn:Hq.
      * rewrite (loop_lookup_raises _ _ _ _ _ _ Hv Hq). eexists; reflexivity.
      * rewrite (loop_first _ _ _ _ _ Hv Hq).
        assert (Hq' : q = (fst q, snd q)) by (destruct q; reflexivity).
        assert (Hsame : forall c' p', c' = c -> resolves env stmt c' p' -> p' = q).
        { intros c' p' -> [_ Hr]. congruence. }
        destruct (RemoteQueryExecType_eq_dec (fst p1) (fst q)) as [E1|E1];
          [destruct (Bool.bool_dec (snd p1) (snd q)) as [T1|T1]|].
        -- (* p1 = q, so p2 differs from q and c2 comes later *)
           assert (p1 = q) by (destruct p1, q; simpl in *; congruence). subst p1.
           destruct H2 as [<-|H2]; [exfalso; apply Hne; symmetry; eauto|].
           eapply loop_later_mismatch; eauto. congruence.
        -- destruct H1 as [<-|H1];
             [exfalso; apply T1; rewrite (Hsame c p1 eq_refl R1); reflexivity|].
           eapply loop_later_mismatch; eauto.
           intros ->. apply T1. reflexivity.
        -- destruct H1 as [<-|H1];
             [exfalso; apply E1; rewrite (Hsame c p1 eq_refl R1); reflexivity|].
           eapply loop_later_mismatch; eauto.
           intros ->. apply E1. reflexivity.
    + destruct (missing_ok stmt) eqn:Hm.
      * rewrite (loop_missing_tolerated _ _ _ _ _ Hv Hm).
        destruct H1 as [<-|H1]; [destruct R1; congruence|].
        destruct H2 as [<-|H2]; [destruct R2; congruence|].
        exact (IH t e c1 c2 p1 p2 H1 H2 R1 R2 Hne).
      * rewrite (loop_missing_raises _ _ _ _ _ Hv Hm). eexists; reflexivity.
Qed.

(** When every name resolves or is tolerated, the only error the loop can
    raise is the mismatch. *)
Lemma loop_only_mismatch cells :
  Forall
    (fun cell =>
       if OidIsValid (named_relid env cell)
       then exists p, find cell = inr p
       else missing_ok stmt = true) cells ->
  forall is_first t e tr err,
    loop cells is_first t e = (tr, Raise err) -> err = MixedPlacementError.
Proof.
  induction 1 as [|c rest Hc _ IH]; intros is_first t e tr err Hrun.
  - discriminate.
  - destruct (OidIsValid (named_relid env c)) eqn:Hv.
    + destruct Hc as [[e' t'] Hq].
      destruct is_first.
      * rewrite (loop_first _ _ _ _ _ Hv Hq) in Hrun. eauto.
      * destruct (RemoteQueryExecType_eq_dec e' e) as [->|He];
          [destruct (Bool.bool_dec t' t) as [->|Ht]|].
        -- rewrite (loop_next_same _ _ _ _ Hv Hq) in Hrun. eauto.
        -- rewrite (loop_next_differs _ _ _ _ _ Hv Hq) in Hrun by congruence.
           inversion Hrun. reflexivity.
        -- rewrite (loop_next_differs _ _ _ _ _ Hv Hq) in Hrun by congruence.
           inversion Hrun. reflexivity.
    + rewrite (loop_missing_tolerated _ _ _ _ _ Hv Hc) in Hrun. eauto.
Qed.

(** When no name stands for an existing object and the statement tolerates
    that, the loop leaves its locals as they were. *)
Lemma loop_all_skipped cells :
  missing_ok stmt = true ->
  Forall (fun cell => OidIsValid (named_relid env cell) = false) cells ->
  forall is_first t e, loop cells is_first t e = ([], Ok (t, e)).
Proof.
  intros Hm. induction 1 as [|c rest Hc _ IH]; intros is_first t e.
  - reflexivity.
  - rewrite (loop_missing_tolerated _ _ _ _ _ Hc Hm). apply IH.
Qed.

(** Once a first object has been placed at [(e, t)], the loop returns that
    placement when every later existing object is placed there too. *)
Lemma loop_later_agree cells :
  Forall
    (fun cell =>
       if OidIsValid (named_relid env cell)
       then exists p, find cell = inr p
       else missing_ok stmt = true) cells ->
  forall t e,
    (forall cell p, In cell cells -> resolves env stmt cell p -> p = (e, t)) ->
    loop cells false t e = ([], Ok (t, e)).
Proof.
  induction 1 as [|c rest Hc _ IH]; intros t e Hsame; [reflexivity|].
  destruct (OidIsValid (named_relid env c)) eqn:Hv.
  - destruct Hc as [q Hq].
    assert (q = (e, t)) by (apply (Hsame c q); [left; reflexivity | split; assumption]).
    subst q. rewrite (loop_next_same _ _ _ _ Hv Hq).
    apply IH. intros cell p Hin. apply Hsame. right; exact Hin.
  - rewrite (loop_missing_tolerated _ _ _ _ _ Hv Hc).
    apply IH. intros cell p Hin. apply Hsame. right; exact Hin.
Qed.

(** The loop returns the placement of the first existing object when all
    existing objects agree on it. *)
Lemma loop_agree cells :
  Forall
    (fun cell =>
       if OidIsValid (named_relid env cell)
       then exists p, find cell = inr p
       else missing_ok stmt = true) cells ->
  forall t e q,
    (exists cell, In cell cells /\ resolves env stmt cell q) ->
    (forall cell p, In cell cells -> resolves env stmt cell p -> p = q) ->
    loop cells true t e = ([], Ok (snd q, fst q)).
Proof.
  induction 1 as [|c rest Hc Hrest IH]; intros t e q [cell [Hin Hres]] Hsame.
  - destruct Hin.
  - destruct (OidIsValid (named_relid env c)) eqn:Hv.
    + destruct Hc as [q' Hq'].
      assert (q' = q) by (apply (Hsame c q'); [left; reflexivity | split; assumption]).
      subst q'. rewrite (loop_first _ _ _ _ _ Hv Hq').
      apply loop_later_agree; [exact Hrest|].
      intros cell' p Hin' Hres'. rewrite (Hsame cell' p (or_intror Hin') Hres').
      destruct q; reflexivity.
    + rewrite (loop_missing_tolerated _ _ _ _ _ Hv Hc).
      destruct Hin as [<-|Hin]; [destruct Hres; congruence|].
      apply IH.
      * exists cell. split; assumption.
      * intros cell' p Hin'. apply Hsame. right; exact Hin'.
Qed.

End DropChecker.

Lemma DropStmtPreTreatment_relations (env : Env) (stmt : DropStmt)
    (queryString : string) (sentToRemote is_temp : bool) (exec_type : RemoteQueryExecType) :
  IsCoordMaster env = true ->
  In (removeType stmt) [OBJECT_TABLE; OBJECT_SEQUENCE; OBJECT_VIEW; OBJECT_INDEX] ->
  DropStmtPreTreatment env stmt queryString sentToRemote is_temp exec_type
  = DropStmtPreTreatment_foreach env stmt (objects stmt) true false EXEC_ON_ALL_NODES.
Proof.
  intros Hm Hk. unfold DropStmtPreTreatment. rewrite Hm. cbn [negb].
  destruct Hk as [<-|[<-|[<-|[<-|[]]]]]; reflexivity.
Qed.

(** C2 (as amended).  On the coordinating entry point, for a DROP of tables,
    sequences, views or indexes.  The checker answers the placement of the
    first named object that exists when all the named objects that exist are
    placed alike.  When two of them are placed differently, the call raises
    before anything is dropped or sent: no collaborator has been called.  The
    error is MixedPlacementError when every named object resolves or is
    tolerated as missing and the statement is not DROP INDEX CONCURRENTLY;
    otherwise an earlier check may raise first. *)
Theorem ExecDropStmt_mixed_placement (env : Env) (stmt : DropStmt)
    (isTopLevel : bool) (queryString : string) (sentToRemote : bool) :
  IsCoordMaster env = true ->
  In (removeType stmt) [OBJECT_TABLE; OBJECT_SEQUENCE; OBJECT_VIEW; OBJECT_INDEX] ->
  (forall c1 c2 p1 p2,
     In c1 (objects stmt) -> In c2 (objects stmt) ->
     resolves env stmt c1 p1 -> resolves env stmt c2 p2 -> p1 <> p2 ->
     exists err,
       ExecDropStmt env stmt isTopLevel queryString sentToRemote = ([], Raise err)
       /\ (all_resolve env stmt ->
           (removeType stmt = OBJECT_INDEX -> concurrent stmt = false) ->
           err = MixedPlacementError))
  /\ (forall p is_temp exec_type,
       all_resolve env stmt ->
       (exists c, In c (objects stmt) /\ resolves env stmt c p) ->
       (forall c p', In c (objects stmt) -> resolves env stmt c p' -> p' = p) ->
       DropStmtPreTreatment env stmt queryString sentToRemote is_temp exec_type
       = ([], Ok (snd p, fst p))).
Proof.
  intros Hm Hk. split.
  - intros c1 c2 p1 p2 H1 H2 R1 R2 Hne.
    destruct (loop_mismatch env stmt (objects stmt) false EXEC_ON_ALL_NODES
                c1 c2 p1 p2 H1 H2 R1 R2 Hne) as [err Hloop].
    pose proof (DropStmtPreTreatment_relations env stmt queryString sentToRemote
                  false EXEC_ON_ALL_NODES Hm Hk) as Hpre.
    assert (Hrel :
      bind (DropStmtPreTreatment env stmt queryString sentToRemote false
              EXEC_ON_ALL_NODES)
           (fun x : bool * RemoteQueryExecType =>
              match x with
              | (is_temp, exec_type) =>
                  RemoveRelations env stmt ;;
                  when (negb is_temp)
                    (ExecRemoteUtilityStmt env
                       (set_stmt (T_DropStmt stmt)
                          (set_exec_type exec_type
                             (set_is_temp is_temp
                                (init_utilityContext sentToRemote queryString)))))
              end)
      = ([], Raise err)).
    { rewrite Hpre, Hloop. reflexivity. }
    assert (Hmixed : all_resolve env stmt -> err = MixedPlacementError).
    { intros Hall.
      exact (loop_only_mismatch env stmt (objects stmt) Hall true false
               EXEC_ON_ALL_NODES [] err Hloop). }
    unfold ExecDropStmt.
    destruct Hk as [Hk|[Hk|[Hk|[Hk|[]]]]]; rewrite <- Hk in *; cbv iota.
    + exists err. split; [exact Hrel | intros Hall _; auto].
    + exists err. split; [exact Hrel | intros Hall _; auto].
    + exists err. split; [exact Hrel | intros Hall _; auto].
    + destruct (concurrent stmt) eqn:Hc.
      * exists ConcurrentIndexNotSupported. split; [reflexivity|].
        intros _ Hnc. specialize (Hnc eq_refl). discriminate.
      * msimpl. exists err. split; [exact Hrel | intros Hall _; auto].
  - intros p is_temp exec_type Hall Hex Hsame.
    rewrite (DropStmtPreTreatment_relations env stmt queryString sentToRemote
               is_temp exec_type Hm Hk).
    apply loop_agree; assumption.
Qed.

Lemma ExecDropStmt_mixed_placement_witness :
  ExecDropStmt Cluster.coordinator (Cluster.drop_tables ["t_perm"; "t_temp"] false)
    true "DROP TABLE t_perm, t_temp" false
  = ([], Raise MixedPlacementError).
Proof.
  destruct (ExecDropStmt_mixed_placement Cluster.coordinator
              (Cluster.drop_tables ["t_perm"; "t_temp"] false)
              true "DROP TABLE t_perm, t_temp" false)
    as [Hmixed _].
  - reflexivity.
  - simpl; auto.
  - destruct (Hmixed ["t_perm"] ["t_temp"]
                (EXEC_ON_ALL_NODES, false) (EXEC_ON_ALL_NODES, true))
      as [err [Hrun Herr]].
    + simpl; auto.
    + simpl; auto.
    + split; reflexivity.
    + split; reflexivity.
    + discriminate.
    + rewrite Hrun. rewrite Herr; [reflexivity| |discriminate].
      repeat constructor; simpl; eauto.
Defined.

(** C2, as stated, fails away from the coordinating entry point: there the
    checker does nothing, and a DROP naming a permanent and a temporary
    table, which the resolver places differently, goes on to drop them. *)
Lemma ExecDropStmt_mixed_unchecked_off_coordinator :
  resolves (Cluster.cluster false 2 false true Cluster.no_failure)
    (Cluster.drop_tables ["t_perm"; "t_temp"] false) ["t_perm"] (EXEC_ON_ALL_NODES, false)
  /\ resolves (Cluster.cluster false 2 false true Cluster.no_failure)
       (Cluster.drop_tables ["t_perm"; "t_temp"] false) ["t_temp"] (EXEC_ON_ALL_NODES, true)
  /\ ExecDropStmt (Cluster.cluster false 2 false true Cluster.no_failure)
       (Cluster.drop_tables ["t_perm"; "t_temp"] false)
       true "DROP TABLE t_perm, t_temp" false
     = ([E_RemoveRelations (Cluster.drop_tables ["t_perm"; "t_temp"] false)], Ok tt).
Proof.
  repeat split.
Qed.

(** C9 (what the code does; the claim does not hold of it).  On the
    coordinating entry point, when every named object of a DROP that
    tolerates missing objects is skipped, the checker raises nothing and
    leaves the placement at its initial value, ALL_NODES and not temporary;
    the statement, if not already forwarded and with a data node registered,
    is then sent to all nodes after the local drop. *)
Theorem ExecDropStmt_all_skipped (env : Env) (stmt : DropStmt)
    (isTopLevel : bool) (queryString : string) :
  IsCoordMaster env = true ->
  In (removeType stmt) [OBJECT_TABLE; OBJECT_SEQUENCE; OBJECT_VIEW; OBJECT_INDEX] ->
  concurrent stmt = false ->
  missing_ok stmt = true ->
  Forall (fun cell => OidIsValid (named_relid env cell) = false) (objects stmt) ->
  DropStmtPreTreatment env stmt queryString false false EXEC_ON_ALL_NODES
  = ([], Ok (false, EXEC_ON_ALL_NODES))
  /\ (NumDataNodes env <> 0%Z -> fails env (E_RemoveRelations stmt) = None ->
      trace_of (ExecDropStmt env stmt isTopLevel queryString false)
      = [E_RemoveRelations stmt;
         E_ExecInterXactUtility site_ExecRemoteUtilityStmt
           {| sql_node := Some (T_DropStmt stmt);
              combine_type := COMBINE_TYPE_SAME;
              exec_nodes := None;
              sql_statement := queryString;
              rq_force_autocommit := false;
              rq_exec_type := EXEC_ON_ALL_NODES;
              rq_is_temp := false |}]).
Proof.
  intros Hm Hk Hc Hok Hall.
  assert (Hpre : forall s t e,
    DropStmtPreTreatment env stmt queryString s t e = ([], Ok (false, EXEC_ON_ALL_NODES))).
  { intros s t e. rewrite (DropStmtPreTreatment_relations env stmt queryString s t e Hm Hk).
    apply loop_all_skipped; assumption. }
  split; [apply Hpre|].
  intros Hdn Hrm.
  assert (Hz : (NumDataNodes env =? 0)%Z = false) by (apply Z.eqb_neq; exact Hdn).
  unfold ExecDropStmt.
  destruct Hk as [Hk|[Hk|[Hk|[Hk|[]]]]]; rewrite <- Hk; cbv iota;
    rewrite ?Hc; msimpl; rewrite Hpre; msimpl;
    unfold RemoveRelations, call; rewrite Hrm;
    unfold ExecRemoteUtilityStmt; rewrite Hm; cbn; rewrite Hz; cbn;
    destruct (fails env _); reflexivity.
Qed.

Lemma ExecDropStmt_all_skipped_witness :
  DropStmtPreTreatment Cluster.coordinator
    (Cluster.drop_tables ["gone_a"; "gone_b"] true)
    "DROP TABLE IF EXISTS gone_a, gone_b" false false EXEC_ON_ALL_NODES
  = ([], Ok (false, EXEC_ON_ALL_NODES))
  /\ count is_dispatch
       (trace_of (ExecDropStmt Cluster.coordinator
                    (Cluster.drop_tables ["gone_a"; "gone_b"] true) true
                    "DROP TABLE IF EXISTS gone_a, gone_b" false))
     = 1.
Proof.
  destruct (ExecDropStmt_all_skipped Cluster.coordinator
              (Cluster.drop_tables ["gone_a"; "gone_b"] true) true
              "DROP TABLE IF EXISTS gone_a, gone_b") as [Hpre Hrun].
  - reflexivity.
  - simpl; auto.
  - reflexivity.
  - reflexivity.
  - repeat constructor.
  - split; [exact Hpre|]. rewrite Hrun; [reflexivity|discriminate|reflexivity].
Defined.

(* ------------------------------------------------------------------ *)
(** ** Transaction statement handler *)

Section Transactions.

Variable env : Env.
Variable ProcessUtility_rec : ProcessUtility_type.

(** A transaction statement passes the entry checks of the dispatcher
    untouched: it may run while the cluster is locked, and it is not among
    the read-only-sensitive kinds. *)
Lemma standard_ProcessUtility_transaction (stmt : TransactionStmt)
    (queryString : string) (context : ProcessUtilityContext) (sentToRemote : bool)
    (completionTag : option string) :
  standard_ProcessUtility env ProcessUtility_rec (T_TransactionStmt stmt) queryString
    context sentToRemote completionTag
  = ExecTransactionStmt env stmt (isTopLevel_of context)
      (strcpy_completionTag completionTag "").
Proof.
  unfold standard_ProcessUtility, check_xact_readonly.
  cbn [IsStmtAllowedInLockedMode negb].
  destruct (IsCoordMaster env && IsNormalProcessingMode env);
    destruct (negb (XactReadOnly env) && negb (IsInParallelMode env));
    msimpl; reflexivity.
Qed.

(** C6 (as amended).  Every SAVEPOINT statement is refused with "SAVEPOINT is
    not yet supported" before the transaction block is looked at: whether or
    not the session is in a block, the handler raises that error and calls
    nothing, so no savepoint is defined. *)
Theorem savepoint_not_supported (stmt : TransactionStmt) (queryString : string)
    (context : ProcessUtilityContext) (sentToRemote : bool)
    (completionTag : option string) :
  kind stmt = TRANS_STMT_SAVEPOINT ->
  standard_ProcessUtility env ProcessUtility_rec (T_TransactionStmt stmt) queryString
    context sentToRemote completionTag
  = ([], Raise SavepointNotSupported).
Proof.
  intros Hk. rewrite standard_ProcessUtility_transaction.
  unfold ExecTransactionStmt. rewrite Hk. reflexivity.
Qed.

(** C7.  When the transaction manager answers a COMMIT, or a PREPARE
    TRANSACTION that got as far as the transaction manager, with "not
    committed", the handler raises nothing and leaves exactly "ROLLBACK" in
    the completion-tag buffer the caller passed; with no buffer it writes
    nothing and still raises nothing. *)
Theorem unsuccessful_commit_reports_ROLLBACK (stmt : TransactionStmt)
    (queryString : string) (context : ProcessUtilityContext) (sentToRemote : bool) :
  (kind stmt = TRANS_STMT_COMMIT
   /\ fails env E_EndTransactionBlock = None
   /\ EndTransactionBlock_result env = false)
  \/ (kind stmt = TRANS_STMT_PREPARE
      /\ RecoveryInProgress env = false
      /\ fails env (E_PrepareTransactionBlock (gid stmt)) = None
      /\ PrepareTransactionBlock_result env (gid stmt) = false) ->
  (forall buffer,
     outcome_of (standard_ProcessUtility env ProcessUtility_rec (T_TransactionStmt stmt)
                   queryString context sentToRemote (Some buffer))
     = Ok (Some "ROLLBACK"))
  /\ outcome_of (standard_ProcessUtility env ProcessUtility_rec (T_TransactionStmt stmt)
                   queryString context sentToRemote None)
     = Ok None.
Proof.
  intros [[Hk [Hf Hr]]|[Hk [Hrec [Hf Hr]]]].
  - split; [intros buffer|];
      rewrite standard_ProcessUtility_transaction;
      unfold ExecTransactionStmt, EndTransactionBlock, call;
      rewrite Hk, Hf, Hr; reflexivity.
  - split; [intros buffer|];
      rewrite standard_ProcessUtility_transaction;
      unfold ExecTransactionStmt, PreventCommandDuringRecovery,
        PrepareTransactionBlock, call;
      rewrite Hk, Hrec, Hf, Hr; reflexivity.
Qed.

End Transactions.

Lemma savepoint_not_supported_witness :
  ProcessUtility (Cluster.cluster true 2 true true Cluster.no_failure) 1
    (T_TransactionStmt
       (mkTransactionStmt TRANS_STMT_SAVEPOINT [mkDefElem "savepoint_name" "sp1"] "" false))
    "SAVEPOINT sp1" PROCESS_UTILITY_TOPLEVEL false (Some "")
  = ([], Raise SavepointNotSupported).
Proof.
  apply (savepoint_not_supported (Cluster.cluster true 2 true true Cluster.no_failure)
           (ProcessUtility (Cluster.cluster true 2 true true Cluster.no_failure) 0)).
  reflexivity.
Defined.

(** C6, as stated, fails: inside a transaction block the SAVEPOINT statement
    does not define the savepoint but raises, and the transaction manager is
    never called; outside one the error is not NoActiveTransactionBlock. *)
Lemma savepoint_in_block_not_defined :
  IsTransactionBlock (Cluster.cluster true 2 true true Cluster.no_failure) = true
  /\ ~ In (E_DefineSavepoint (Some "sp1"))
         (trace_of
            (ProcessUtility (Cluster.cluster true 2 true true Cluster.no_failure) 1
               (T_TransactionStmt
                  (mkTransactionStmt TRANS_STMT_SAVEPOINT
                     [mkDefElem "savepoint_name" "sp1"] "" false))
               "SAVEPOINT sp1" PROCESS_UTILITY_TOPLEVEL false (Some "")))
  /\ outcome_of
       (ProcessUtility (Cluster.cluster true 2 false true Cluster.no_failure) 1
          (T_TransactionStmt
             (mkTransactionStmt TRANS_STMT_SAVEPOINT
                [mkDefElem "savepoint_name" "sp1"] "" false))
          "SAVEPOINT sp1" PROCESS_UTILITY_TOPLEVEL false (Some ""))
     <> Raise (NoActiveTransactionBlock "SAVEPOINT").
Proof.
  split; [reflexivity|]. split.
  - simpl. intros [].
  - simpl. discriminate.
Qed.

Lemma unsuccessful_commit_reports_ROLLBACK_witness :
  outcome_of
    (ProcessUtility (Cluster.cluster true 2 true false Cluster.no_failure) 1
       (T_TransactionStmt (mkTransactionStmt TRANS_STMT_COMMIT [] "" false))
       "COMMIT" PROCESS_UTILITY_TOPLEVEL false (Some ""))
  = Ok (Some "ROLLBACK").
Proof.
  apply (proj1 (unsuccessful_commit_reports_ROLLBACK
                  (Cluster.cluster true 2 true false Cluster.no_failure)
                  (ProcessUtility (Cluster.cluster true 2 true false Cluster.no_failure) 0)
                  (mkTransactionStmt TRANS_STMT_COMMIT [] "" false)
                  "COMMIT" PROCESS_UTILITY_TOPLEVEL false
                  (or_introl (conj eq_refl (conj eq_refl eq_refl))))).
Defined.

(* ------------------------------------------------------------------ *)
(** ** Counting the events of a run *)

Lemma count_app (p : Event -> bool) (t1 t2 : Trace) :
  count p (t1 ++ t2) = count p t1 + count p t2.
Proof. unfold count. rewrite filter_app, length_app. reflexivity. Qed.

Lemma count_nil (p : Event -> bool) : count p [] = 0.
Proof. reflexivity. Qed.

Lemma count_cons (p : Event -> bool) (ev : Event) (t : Trace) :
  count p (ev :: t) = (if p ev then 1 else 0) + count p t.
Proof. unfold count. simpl. destruct (p ev); reflexivity. Qed.

Lemma trace_bind {A B} (m : M A) (f : A -> M B) :
  trace_of (bind m f)
  = trace_of m ++ match outcome_of m with Ok a => trace_of (f a) | _ => [] end.
Proof.
  destruct m as [t [a|e|]]; simpl.
  - destruct (f a); reflexivity.
  - rewrite app_nil_r; reflexivity.
  - rewrite app_nil_r; reflexivity.
Qed.

Lemma outcome_bind {A B} (m : M A) (f : A -> M B) :
  outcome_of (bind m f)
  = match outcome_of m with
    | Ok a => outcome_of (f a)
    | Raise e => Raise e
    | OutOfFuel => OutOfFuel
    end.
Proof. destruct m as [t [a|e|]]; simpl; [destruct (f a)| |]; reflexivity. Qed.

Lemma bind_ok_inv {A B} (m : M A) (f : A -> M B) (b : B) :
  outcome_of (bind m f) = Ok b ->
  exists a, outcome_of m = Ok a /\ outcome_of (f a) = Ok b.
Proof.
  rewrite outcome_bind. destruct (outcome_of m) as [a|e|]; try discriminate.
  intros H. exists a. split; [reflexivity | exact H].
Qed.

Lemma bind_ext {A B} (m : M A) (f g : A -> M B) :
  (forall a, f a = g a) -> bind m f = bind m g.
Proof. intros H. destruct m as [t [a|e|]]; simpl; [rewrite H| |]; reflexivity. Qed.

Section Silence.

Variable p : Event -> bool.

Lemma silent_ret {A} (a : A) : silent p (ret a).
Proof. reflexivity. Qed.

Lemma silent_raise {A} (e : ErrorData) : silent p (@raise A e).
Proof. reflexivity. Qed.

Lemma silent_lift {A} (r : ErrorData + A) : silent p (lift r).
Proof. destruct r; reflexivity. Qed.

Lemma silent_call (env : Env) (ev : Event) : p ev = false -> silent p (call env ev).
Proof. intros H. unfold silent, call, count. simpl. rewrite H. reflexivity. Qed.

Lemma silent_bind {A B} (m : M A) (f : A -> M B) :
  silent p m -> (forall a, silent p (f a)) -> silent p (bind m f).
Proof.
  unfold silent. intros Hm Hf. rewrite trace_bind, count_app, Hm.
  destruct (outcome_of m); [apply Hf | reflexivity | reflexivity].
Qed.

Lemma silent_when (c : bool) (m : M unit) : silent p m -> silent p (when c m).
Proof. destruct c; [trivial | intros _; reflexivity]. Qed.

Lemma silent_PG_TRY {A} (body : M A) (handler : M unit) :
  silent p body -> silent p handler -> silent p (PG_TRY body handler).
Proof.
  intros Hb Hh. destruct body as [t [a|e|]]; try exact Hb.
  unfold PG_TRY. apply silent_bind; [exact Hb|]. intros _.
  apply silent_bind; [exact Hh|]. intros _. apply silent_raise.
Qed.

Lemma silent_foreach {A} (l : list A) (body : A -> M unit) :
  (forall x, silent p (body x)) -> silent p (foreach l body).
Proof.
  intros Hb. induction l as [|x rest IH]; [reflexivity|].
  simpl. apply silent_bind; [apply Hb | intros _; exact IH].
Qed.

Lemma silent_foreach_between {A} (l : list A) (body : A -> M unit) (between : M unit) :
  (forall x, silent p (body x)) -> silent p between ->
  silent p (foreach_between l body between).
Proof.
  intros Hb Hbt. induction l as [|x rest IH]; [reflexivity|].
  simpl. apply silent_bind; [apply Hb | intros _].
  apply silent_bind; [apply silent_when; exact Hbt | intros _; exact IH].
Qed.

Lemma silent_of_nil {A} (m : M A) : trace_of m = [] -> silent p m.
Proof. unfold silent. intros ->. reflexivity. Qed.

End Silence.

(** The two scanning loops call nothing. *)
Lemma CreateStmt_scan_trace (stmts : list Node) :
  forall is_first is_temp, trace_of (CreateStmt_scan stmts is_first is_temp) = [].
Proof.
  induction stmts as [|s rest IH]; intros is_first is_temp; [reflexivity|].
  destruct s as [ts|cs|fs|ats|ixs|css|ass|ds|role|step];
    cbn [CreateStmt_scan]; try apply IH.
  - destruct (Ascii.eqb (relpersistence (relation cs)) RELPERSISTENCE_TEMP
              && distributeby cs); msimpl; [reflexivity|].
    destruct is_first; [apply IH|].
    destruct (negb (Bool.eqb
                (Ascii.eqb (relpersistence (relation cs)) RELPERSISTENCE_TEMP)
                is_temp)); msimpl; [reflexivity | apply IH].
  - destruct is_first; [apply IH|].
    destruct (negb is_temp); msimpl; [reflexivity | apply IH].
Qed.

Lemma DropStmtPreTreatment_foreach_trace (env : Env) (stmt : DropStmt)
    (cells : list (list string)) :
  forall is_first t e, trace_of (DropStmtPreTreatment_foreach env stmt cells is_first t e) = [].
Proof.
  induction cells as [|c rest IH]; intros is_first t e; [reflexivity|].
  destruct (OidIsValid (named_relid env c)) eqn:Hv.
  - destruct (ExecUtilityFindNodes env (removeType stmt) (named_relid env c))
      as [err|[e' t']] eqn:Hq.
    + rewrite (loop_lookup_raises env stmt _ _ _ _ _ _ Hv Hq). reflexivity.
    + destruct is_first.
      * rewrite (loop_first env stmt _ _ _ _ _ Hv Hq). apply IH.
      * destruct (RemoteQueryExecType_eq_dec e' e) as [->|He];
          [destruct (Bool.bool_dec t' t) as [->|Ht]|].
        -- rewrite (loop_next_same env stmt _ _ _ _ Hv Hq). apply IH.
        -- rewrite (loop_next_differs env stmt _ _ _ _ _ Hv Hq) by congruence.
           reflexivity.
        -- rewrite (loop_next_differs env stmt _ _ _ _ _ Hv Hq) by congruence.
           reflexivity.
  - destruct (missing_ok stmt) eqn:Hm.
    + rewrite (loop_missing_tolerated env stmt _ _ _ _ _ Hv Hm). apply IH.
    + rewrite (loop_missing_raises env stmt _ _ _ _ _ Hv Hm). reflexivity.
Qed.

Create HintDb utility.

#[local] Hint Unfold CommandCounterIncrement EventTriggerBeginCompleteQuery
  EventTriggerEndCompleteQuery EventTriggerCollectSimpleCommand call_address
  ExecInterXactUtility RemoveRelations RemoveObjects EndTransactionBlock
  PrepareTransactionBlock PreventCommandDuringRecovery PreventTransactionChain
  RequireTransactionChain PreventCommandIfReadOnly PreventCommandIfParallelMode
  DropTableThrowErrorExternal check_xact_readonly ExecTransactionStmt
  Slow_switch Slow_CreateStmt Slow_AlterTableStmt Slow_IndexStmt
  Slow_CreateSeqStmt Slow_AlterSeqStmt CreateStmt_do AlterTable_do
  AlterTable_stmts ProcessUtilitySlow_try ExecDropStmt DropStmtPreTreatment
  : utility.

(** One step of a proof that a run is silent: peel the outermost
    construct of the computation.  [leaf] closes what is left of it. *)
Ltac silent_step leaf :=
  lazymatch goal with
  | |- silent _ (ret _) => apply silent_ret
  | |- silent _ (raise _) => apply silent_raise
  | |- silent _ (lift _) => apply silent_lift
  | |- silent _ (call _ _) => apply silent_call; leaf
  | |- silent _ (when _ _) => apply silent_when
  | |- silent _ (bind _ _) => apply silent_bind; [|intros]
  | |- silent _ (PG_TRY _ _) => apply silent_PG_TRY
  | |- silent _ (foreach _ _) => apply silent_foreach; intros
  | |- silent _ (foreach_between _ _ _) => apply silent_foreach_between; [intros|]
  | |- silent _ (CreateStmt_scan _ _ _) =>
      apply silent_of_nil; apply CreateStmt_scan_trace
  | |- silent _ (DropStmtPreTreatment_foreach _ _ _ _ _ _) =>
      apply silent_of_nil; apply DropStmtPreTreatment_foreach_trace
  | |- silent _ (match ?x with _ => _ end) => destruct x
  | |- _ => leaf
  end.

Ltac silent_run leaf := autounfold with utility; repeat (silent_step leaf).

(* ------------------------------------------------------------------ *)
(** ** Statements that arrive already forwarded *)

Lemma ExecRemoteUtilityStmt_forwarded (env : Env) (context : RemoteUtilityContext) :
  sentToRemote context = true -> ExecRemoteUtilityStmt env context = ([], Ok tt).
Proof.
  intros H. unfold ExecRemoteUtilityStmt. rewrite H.
  destruct (negb (IsCoordMaster env)); [reflexivity|].
  destruct (RemoteQueryExecType_beq (exec_type context) EXEC_ON_NONE); reflexivity.
Qed.

Ltac forwarded_leaf :=
  idtac;
  lazymatch goal with
  | |- silent _ (ExecRemoteUtilityStmt _ _) =>
      apply silent_of_nil; rewrite ExecRemoteUtilityStmt_forwarded; reflexivity
  | |- silent _ _ => solve [auto]
  | |- _ = false => reflexivity
  end.

Section Forwarded.

Variable env : Env.
Variable ProcessUtility_rec : ProcessUtility_type.

Hypothesis rec_silent :
  forall parsetree queryString context completionTag,
    silent is_dispatch
      (ProcessUtility_rec parsetree queryString context true completionTag).

Lemma ProcessUtilitySlow_forwarded (parsetree : Node) (queryString : string)
    (context : ProcessUtilityContext) (completionTag : option string) :
  silent is_dispatch
    (ProcessUtilitySlow env ProcessUtility_rec parsetree queryString context true
       completionTag).
Proof.
  unfold ProcessUtilitySlow. silent_run forwarded_leaf.
Qed.

Lemma standard_ProcessUtility_forwarded (parsetree : Node) (queryString : string)
    (context : ProcessUtilityContext) (completionTag : option string) :
  silent is_dispatch
    (standard_ProcessUtility env ProcessUtility_rec parsetree queryString context true
       completionTag).
Proof.
  unfold standard_ProcessUtility.
  repeat (silent_step forwarded_leaf);
    try (apply ProcessUtilitySlow_forwarded);
    silent_run forwarded_leaf.
Qed.

End Forwarded.

Lemma ProcessUtility_forwarded (env : Env) (fuel : nat) :
  forall parsetree queryString context completionTag,
    silent is_dispatch
      (ProcessUtility env fuel parsetree queryString context true completionTag).
Proof.
  induction fuel as [|fuel IH]; intros parsetree queryString context completionTag.
  - reflexivity.
  - cbn [ProcessUtility]. apply standard_ProcessUtility_forwarded. exact IH.
Qed.

(** Without a remote-execution node among the statements, a forwarded
    statement does not reach the transport at all. *)

Lemma silent_foreach_between_In (p : Event -> bool) {A} (l : list A)
    (body : A -> M unit) (between : M unit) :
  (forall x, In x l -> silent p (body x)) -> silent p between ->
  silent p (foreach_between l body between).
Proof.
  intros Hb Hbt. induction l as [|x rest IH]; [reflexivity|].
  simpl. apply silent_bind; [apply Hb; left; reflexivity | intros _].
  apply silent_bind; [apply silent_when; exact Hbt | intros _].
  apply IH. intros y Hy. apply Hb. right; exact Hy.
Qed.

Section ForwardedLocal.

Variable env : Env.
Hypothesis local : expansions_local env.

Variable ProcessUtility_rec : ProcessUtility_type.

Hypothesis rec_silent :
  forall parsetree queryString context completionTag,
    is_RemoteQuery parsetree = false ->
    silent is_transport
      (ProcessUtility_rec parsetree queryString context true completionTag).

Lemma Slow_CreateStmt_local parsetree cstmt queryString secondaryObject :
  silent is_transport
    (Slow_CreateStmt env ProcessUtility_rec parsetree cstmt queryString true
       secondaryObject).
Proof.
  unfold Slow_CreateStmt.
  apply silent_bind; [apply silent_call; reflexivity | intros _].
  apply silent_bind.
  { destruct (IsCoordMaster env); [|apply silent_ret].
    apply silent_of_nil, CreateStmt_scan_trace. }
  intros is_temp.
  assert (Hlist : CreateStmt_stmts env parsetree cstmt queryString true is_temp
                  = fst (transformCreateStmt_result env cstmt)).
  { unfold CreateStmt_stmts. destruct (transformCreateStmt_result env cstmt).
    reflexivity. }
  rewrite Hlist.
  apply silent_foreach_between_In; [|apply silent_call; reflexivity].
  intros x Hx. pose proof (proj1 local cstmt x Hx) as Hrq.
  destruct x; try discriminate Hrq; silent_run forwarded_leaf.
Qed.

Lemma Slow_AlterTableStmt_local parsetree atstmt queryString :
  silent is_transport
    (Slow_AlterTableStmt env ProcessUtility_rec parsetree atstmt queryString true).
Proof.
  unfold Slow_AlterTableStmt, AlterTable_stmts. cbn [negb].
  apply silent_bind; [apply silent_call; reflexivity | intros _].
  destruct (OidIsValid (AlterTableLookupRelation_result env atstmt));
    [|apply silent_call; reflexivity].
  apply silent_bind; [apply silent_call; reflexivity | intros _].
  rewrite bind_ret_l.
  apply silent_bind; [apply silent_call; reflexivity | intros _].
  apply silent_bind; [apply silent_call; reflexivity | intros _].
  apply silent_bind; [|intros _; apply silent_call; reflexivity].
  apply silent_foreach_between_In; [|apply silent_call; reflexivity].
  intros x Hx. pose proof (proj2 local _ atstmt x Hx) as Hrq.
  destruct x; try discriminate Hrq; silent_run forwarded_leaf.
Qed.

Ltac local_leaf :=
  idtac;
  lazymatch goal with
  | |- silent _ (Slow_CreateStmt _ _ _ _ _ true _) => apply Slow_CreateStmt_local
  | |- silent _ (Slow_AlterTableStmt _ _ _ _ _ true) =>
      apply Slow_AlterTableStmt_local
  | |- silent _ (ExecRemoteUtilityStmt _ _) =>
      apply silent_of_nil; rewrite ExecRemoteUtilityStmt_forwarded; reflexivity
  | |- silent _ _ => first [solve [auto] | progress autounfold with utility]
  | |- _ = false => reflexivity
  end.

Lemma ProcessUtilitySlow_local parsetree queryString context completionTag :
  silent is_transport
    (ProcessUtilitySlow env ProcessUtility_rec parsetree queryString context true
       completionTag).
Proof.
  unfold ProcessUtilitySlow, ProcessUtilitySlow_try, Slow_switch,
    EventTriggerBeginCompleteQuery, EventTriggerEndCompleteQuery,
    EventTriggerCollectSimpleCommand.
  destruct parsetree; repeat (silent_step local_leaf).
Qed.

Lemma standard_ProcessUtility_local parsetree queryString context completionTag :
  is_RemoteQuery parsetree = false ->
  silent is_transport
    (standard_ProcessUtility env ProcessUtility_rec parsetree queryString context true
       completionTag).
Proof.
  intros Hrq. unfold standard_ProcessUtility.
  destruct parsetree; try discriminate Hrq;
    repeat (silent_step forwarded_leaf);
    try (apply ProcessUtilitySlow_local);
    silent_run forwarded_leaf.
Qed.

End ForwardedLocal.

Lemma ProcessUtility_local (env : Env) (fuel : nat) :
  expansions_local env ->
  forall parsetree queryString context completionTag,
    is_RemoteQuery parsetree = false ->
    silent is_transport
      (ProcessUtility env fuel parsetree queryString context true completionTag).
Proof.
  intros Hlocal.
  induction fuel as [|fuel IH];
    intros parsetree queryString context completionTag Hrq.
  - reflexivity.
  - cbn [ProcessUtility]. apply standard_ProcessUtility_local; assumption.
Qed.

(** C3.  The forwarded mark is sticky.  A statement processed with
    [sentToRemote] set makes no broadcast through the remote dispatcher,
    whatever its kind and context and however deep its sub-statements go
    (the bound on the recursion is arbitrary); and it does not reach the
    transport at all unless a statement is itself a remote-execution node.
    A request marked as already forwarded is a no-op of the dispatcher.  So a
    request followed by the same request marked as forwarded broadcasts as
    often as the first call alone: exactly once when the first call passes
    the short-circuits. *)
Theorem alreadyForwarded_is_sticky (env : Env) :
  (forall fuel parsetree queryString context completionTag,
     count is_dispatch
       (trace_of (ProcessUtility env fuel parsetree queryString context true
                    completionTag)) = 0)
  /\ (expansions_local env ->
      forall fuel parsetree queryString context completionTag,
        is_RemoteQuery parsetree = false ->
        count is_transport
          (trace_of (ProcessUtility env fuel parsetree queryString context true
                       completionTag)) = 0)
  /\ (forall context,
        ExecRemoteUtilityStmt env (set_sentToRemote true context) = ([], Ok tt))
  /\ (forall context,
        count is_dispatch
          (trace_of (ExecRemoteUtilityStmt env context ;;
                     ExecRemoteUtilityStmt env (set_sentToRemote true context)))
        = count is_dispatch (trace_of (ExecRemoteUtilityStmt env context)))
  /\ (forall context,
        IsCoordMaster env = true -> exec_type context <> EXEC_ON_NONE ->
        sentToRemote context = false -> NumDataNodes env <> 0%Z ->
        count is_dispatch
          (trace_of (ExecRemoteUtilityStmt env context ;;
                     ExecRemoteUtilityStmt env (set_sentToRemote true context)))
        = 1).
Proof.
  assert (Hsecond : forall context,
            ExecRemoteUtilityStmt env (set_sentToRemote true context) = ([], Ok tt)).
  { intros context. apply ExecRemoteUtilityStmt_forwarded. reflexivity. }
  assert (Hboth : forall context,
            count is_dispatch
              (trace_of (ExecRemoteUtilityStmt env context ;;
                         ExecRemoteUtilityStmt env (set_sentToRemote true context)))
            = count is_dispatch (trace_of (ExecRemoteUtilityStmt env context))).
  { intros context. rewrite trace_bind, count_app, Hsecond.
    destruct (outcome_of (ExecRemoteUtilityStmt env context)); simpl;
      rewrite ?count_nil; lia. }
  split; [|split; [|split; [|split]]].
  - intros. apply ProcessUtility_forwarded.
  - intros Hlocal fuel parsetree queryString context completionTag Hrq.
    apply ProcessUtility_local; assumption.
  - exact Hsecond.
  - exact Hboth.
  - intros context Hm Hne Hs Hdn. rewrite Hboth.
    unfold ExecRemoteUtilityStmt. rewrite Hm, Hs.
    assert ((NumDataNodes env =? 0)%Z = false) as -> by (apply Z.eqb_neq; exact Hdn).
    destruct (exec_type context); try congruence; reflexivity.
Qed.

Lemma alreadyForwarded_is_sticky_witness :
  count is_dispatch
    (trace_of
       (ExecRemoteUtilityStmt Cluster.coordinator
          (Cluster.request EXEC_ON_ALL_NODES false) ;;
        ExecRemoteUtilityStmt Cluster.coordinator
          (set_sentToRemote true (Cluster.request EXEC_ON_ALL_NODES false))))
  = 1.
Proof.
  apply (proj2 (proj2 (proj2 (proj2 (alreadyForwarded_is_sticky Cluster.coordinator))))).
  - reflexivity.
  - discriminate.
  - reflexivity.
  - discriminate.
Defined.

(* ------------------------------------------------------------------ *)
(** ** What the orchestrator asks of the recursion *)

Lemma foreach_between_ext {A} (l : list A) (body1 body2 : A -> M unit)
    (between : M unit) :
  (forall x, body1 x = body2 x) ->
  foreach_between l body1 between = foreach_between l body2 between.
Proof.
  intros H. induction l as [|x rest IH]; [reflexivity|].
  simpl. rewrite H, IH. reflexivity.
Qed.

Section Recursion.

Variable env : Env.
Variables rec1 rec2 : ProcessUtility_type.

Hypothesis same_on_sub_statements :
  forall stmt queryString,
    rec1 stmt queryString PROCESS_UTILITY_SUBCOMMAND true None
    = rec2 stmt queryString PROCESS_UTILITY_SUBCOMMAND true None.

Lemma Slow_CreateStmt_ext parsetree cstmt queryString sentToRemote secondaryObject :
  Slow_CreateStmt env rec1 parsetree cstmt queryString sentToRemote secondaryObject
  = Slow_CreateStmt env rec2 parsetree cstmt queryString sentToRemote secondaryObject.
Proof.
  unfold Slow_CreateStmt.
  apply bind_ext; intros _. apply bind_ext; intros is_temp.
  apply foreach_between_ext. intros x.
  destruct x; simpl; try reflexivity; rewrite same_on_sub_statements; reflexivity.
Qed.

Lemma Slow_AlterTableStmt_ext parsetree atstmt queryString sentToRemote :
  Slow_AlterTableStmt env rec1 parsetree atstmt queryString sentToRemote
  = Slow_AlterTableStmt env rec2 parsetree atstmt queryString sentToRemote.
Proof.
  unfold Slow_AlterTableStmt.
  apply bind_ext; intros _.
  destruct (OidIsValid (AlterTableLookupRelation_result env atstmt)); [|reflexivity].
  apply bind_ext; intros _. apply bind_ext; intros stmts.
  apply bind_ext; intros _. apply bind_ext; intros _.
  f_equal. apply foreach_between_ext. intros x.
  destruct x; simpl; try reflexivity; rewrite same_on_sub_statements; reflexivity.
Qed.

Lemma ProcessUtilitySlow_ext parsetree queryString context sentToRemote completionTag :
  ProcessUtilitySlow env rec1 parsetree queryString context sentToRemote completionTag
  = ProcessUtilitySlow env rec2 parsetree queryString context sentToRemote completionTag.
Proof.
  unfold ProcessUtilitySlow, ProcessUtilitySlow_try, Slow_switch.
  destruct parsetree; try reflexivity.
  - rewrite Slow_CreateStmt_ext. reflexivity.
  - rewrite Slow_CreateStmt_ext. reflexivity.
  - rewrite Slow_AlterTableStmt_ext. reflexivity.
Qed.

End Recursion.

(** C10.  Whatever the flag of the parent statement, the orchestrator hands
    the generated sub-statements of CREATE TABLE and of ALTER TABLE to
    [ProcessUtility] as sub-commands marked already forwarded and with no
    completion tag: its run depends on nothing else [ProcessUtility] does.
    A sub-statement so processed makes no broadcast through the remote
    dispatcher, at any depth; unless it is itself the remote-execution node
    added for the parent, it does not reach the transport at all. *)
Theorem sub_statements_are_marked_forwarded (env : Env) :
  (forall rec1 rec2 : ProcessUtility_type,
     (forall stmt queryString,
        rec1 stmt queryString PROCESS_UTILITY_SUBCOMMAND true None
        = rec2 stmt queryString PROCESS_UTILITY_SUBCOMMAND true None) ->
     forall parsetree queryString context sentToRemote completionTag,
       ProcessUtilitySlow env rec1 parsetree queryString context sentToRemote
         completionTag
       = ProcessUtilitySlow env rec2 parsetree queryString context sentToRemote
           completionTag)
  /\ (forall fuel stmt queryString,
        count is_dispatch
          (trace_of (ProcessUtility env fuel stmt queryString
                       PROCESS_UTILITY_SUBCOMMAND true None)) = 0)
  /\ (expansions_local env ->
      forall fuel stmt queryString,
        is_RemoteQuery stmt = false ->
        count is_transport
          (trace_of (ProcessUtility env fuel stmt queryString
                       PROCESS_UTILITY_SUBCOMMAND true None)) = 0).
Proof.
  split; [|split].
  - intros rec1 rec2 H parsetree queryString context sentToRemote completionTag.
    apply ProcessUtilitySlow_ext. exact H.
  - intros fuel stmt queryString. apply ProcessUtility_forwarded.
  - intros Hlocal fuel stmt queryString Hrq. apply ProcessUtility_local; assumption.
Qed.

Lemma sub_statements_are_marked_forwarded_witness :
  count is_dispatch
    (trace_of
       (ProcessUtility Cluster.coordinator 3
          (T_IndexStmt (mkIndexStmt (Cluster.rel "t_perm") false false))
          "CREATE INDEX ON t_perm (a)" PROCESS_UTILITY_SUBCOMMAND true None))
  = 0.
Proof.
  apply (proj1 (proj2 (sub_statements_are_marked_forwarded Cluster.coordinator))).
Defined.

(* ------------------------------------------------------------------ *)
(** ** The change-notification batch *)

Arguments count : simpl never.

Lemma trace_call (env : Env) (ev : Event) : trace_of (call env ev) = [ev].
Proof. reflexivity. Qed.

Lemma count_call (p : Event -> bool) (env : Env) (ev : Event) :
  count p (trace_of (call env ev)) = if p ev then 1 else 0.
Proof. rewrite trace_call, count_cons, count_nil. destruct (p ev); reflexivity. Qed.

Lemma count_bind_ok (p : Event -> bool) {A B} (m : M A) (f : A -> M B) (a : A) :
  outcome_of m = Ok a ->
  count p (trace_of (bind m f)) = count p (trace_of m) + count p (trace_of (f a)).
Proof. intros H. rewrite trace_bind, H, count_app. reflexivity. Qed.

Section Batch.

Variable env : Env.

(** [p] holds of the two batch calls at most. *)
Variable p : Event -> bool.
Hypothesis p_batch :
  forall ev, p ev = true ->
    ev = E_EventTriggerBeginCompleteQuery \/ ev = E_EventTriggerEndCompleteQuery.

Lemma p_other (ev : Event) :
  ev <> E_EventTriggerBeginCompleteQuery -> ev <> E_EventTriggerEndCompleteQuery ->
  p ev = false.
Proof.
  intros Hb He. destruct (p ev) eqn:H; [|reflexivity].
  destruct (p_batch ev H); contradiction.
Qed.

Ltac batch_leaf :=
  idtac;
  lazymatch goal with
  | |- silent _ (ExecRemoteUtilityStmt _ _) =>
      unfold ExecRemoteUtilityStmt, ExecInterXactUtility
  | |- silent _ _ => solve [auto]
  | |- _ = false => apply p_other; discriminate
  end.

Variable ProcessUtility_rec : ProcessUtility_type.

Hypothesis rec_silent :
  forall parsetree queryString sentToRemote completionTag,
    silent p
      (ProcessUtility_rec parsetree queryString PROCESS_UTILITY_SUBCOMMAND
         sentToRemote completionTag).

(** The guarded block itself never opens or closes a batch. *)
Lemma ProcessUtilitySlow_try_silent parsetree queryString isTopLevel isCompleteQuery
    sentToRemote secondaryObject utilityContext :
  silent p
    (ProcessUtilitySlow_try env ProcessUtility_rec parsetree queryString isTopLevel
       isCompleteQuery sentToRemote secondaryObject utilityContext).
Proof.
  silent_run batch_leaf.
Qed.

Lemma ProcessUtilitySlow_sub_silent parsetree queryString sentToRemote completionTag :
  silent p
    (ProcessUtilitySlow env ProcessUtility_rec parsetree queryString
       PROCESS_UTILITY_SUBCOMMAND sentToRemote completionTag).
Proof.
  unfold ProcessUtilitySlow.
  change (isCompleteQuery_of PROCESS_UTILITY_SUBCOMMAND) with false.
  cbv iota. rewrite bind_ret_l. rewrite !when_false.
  apply silent_bind; [|intros; apply silent_ret].
  apply silent_PG_TRY; [apply ProcessUtilitySlow_try_silent | apply silent_ret].
Qed.

Lemma standard_ProcessUtility_sub_silent parsetree queryString sentToRemote
    completionTag :
  silent p
    (standard_ProcessUtility env ProcessUtility_rec parsetree queryString
       PROCESS_UTILITY_SUBCOMMAND sentToRemote completionTag).
Proof.
  unfold standard_ProcessUtility.
  repeat (silent_step batch_leaf);
    try (apply ProcessUtilitySlow_sub_silent);
    silent_run batch_leaf.
Qed.

End Batch.

Lemma ProcessUtility_sub_silent (env : Env) (p : Event -> bool) :
  (forall ev, p ev = true ->
     ev = E_EventTriggerBeginCompleteQuery \/ ev = E_EventTriggerEndCompleteQuery) ->
  forall fuel parsetree queryString sentToRemote completionTag,
    silent p
      (ProcessUtility env fuel parsetree queryString PROCESS_UTILITY_SUBCOMMAND
         sentToRemote completionTag).
Proof.
  intros Hp. induction fuel as [|fuel IH];
    intros parsetree queryString sentToRemote completionTag.
  - reflexivity.
  - cbn [ProcessUtility]. apply standard_ProcessUtility_sub_silent; assumption.
Qed.

Lemma is_BeginCompleteQuery_batch (ev : Event) :
  is_BeginCompleteQuery ev = true ->
  ev = E_EventTriggerBeginCompleteQuery \/ ev = E_EventTriggerEndCompleteQuery.
Proof. destruct ev; try discriminate. left; reflexivity. Qed.

Lemma is_EndCompleteQuery_batch (ev : Event) :
  is_EndCompleteQuery ev = true ->
  ev = E_EventTriggerBeginCompleteQuery \/ ev = E_EventTriggerEndCompleteQuery.
Proof. destruct ev; try discriminate. right; reflexivity. Qed.

(* ------------------------------------------------------------------ *)
(** ** Runs that end *)

Lemma finishes_ret {A} (a : A) : finishes (ret a).
Proof. discriminate. Qed.

Lemma finishes_raise {A} (e : ErrorData) : finishes (@raise A e).
Proof. discriminate. Qed.

Lemma finishes_lift {A} (r : ErrorData + A) : finishes (lift r).
Proof. destruct r; discriminate. Qed.

Lemma finishes_call (env : Env) (ev : Event) : finishes (call env ev).
Proof. unfold finishes, call. simpl. destruct (fails env ev); discriminate. Qed.

Lemma finishes_bind {A B} (m : M A) (f : A -> M B) :
  finishes m -> (forall a, finishes (f a)) -> finishes (bind m f).
Proof.
  unfold finishes. intros Hm Hf. rewrite outcome_bind.
  destruct (outcome_of m); [apply Hf | discriminate | exfalso; apply Hm; reflexivity].
Qed.

Lemma finishes_when (c : bool) (m : M unit) : finishes m -> finishes (when c m).
Proof. destruct c; [trivial | intros _; discriminate]. Qed.

Lemma finishes_PG_TRY {A} (body : M A) (handler : M unit) :
  finishes body -> finishes handler -> finishes (PG_TRY body handler).
Proof.
  intros Hb Hh. destruct body as [t [a|e|]]; try exact Hb.
  unfold PG_TRY. apply finishes_bind; [discriminate|]. intros _.
  apply finishes_bind; [exact Hh|]. intros _. apply finishes_raise.
Qed.

Lemma finishes_foreach {A} (l : list A) (body : A -> M unit) :
  (forall x, finishes (body x)) -> finishes (foreach l body).
Proof.
  intros Hb. induction l as [|x rest IH]; [discriminate|].
  simpl. apply finishes_bind; [apply Hb | intros _; exact IH].
Qed.

Lemma finishes_foreach_between {A} (l : list A) (body : A -> M unit) (between : M unit) :
  (forall x, finishes (body x)) -> finishes between ->
  finishes (foreach_between l body between).
Proof.
  intros Hb Hbt. induction l as [|x rest IH]; [discriminate|].
  simpl. apply finishes_bind; [apply Hb | intros _].
  apply finishes_bind; [apply finishes_when; exact Hbt | intros _; exact IH].
Qed.

Lemma CreateStmt_scan_finishes (stmts : list Node) :
  forall is_first is_temp, finishes (CreateStmt_scan stmts is_first is_temp).
Proof.
  induction stmts as [|s rest IH]; intros is_first is_temp; [discriminate|].
  destruct s as [ts|cs|fs|ats|ixs|css|ass|ds|role|step];
    cbn [CreateStmt_scan]; try apply IH.
  - apply finishes_bind; [apply finishes_when, finishes_raise | intros _].
    destruct is_first; [apply IH|].
    apply finishes_bind; [apply finishes_when, finishes_raise | intros _; apply IH].
  - destruct is_first; [apply IH|].
    apply finishes_bind; [apply finishes_when, finishes_raise | intros _; apply IH].
Qed.

Lemma DropStmtPreTreatment_foreach_finishes (env : Env) (stmt : DropStmt)
    (cells : list (list string)) :
  forall is_first t e,
    finishes (DropStmtPreTreatment_foreach env stmt cells is_first t e).
Proof.
  induction cells as [|c rest IH]; intros is_first t e; [discriminate|].
  cbn [DropStmtPreTreatment_foreach].
  apply finishes_bind.
  - apply finishes_when. unfold DropTableThrowErrorExternal.
    destruct (missing_ok stmt); [apply finishes_call | apply finishes_raise].
  - intros _.
    destruct (negb (OidIsValid (RangeVarGetRelid env (makeRangeVarFromNameList env c)))
              && missing_ok stmt); [apply IH|].
    destruct is_first.
    + apply finishes_bind; [apply finishes_lift | intros [? ?]; apply IH].
    + apply finishes_bind; [apply finishes_lift | intros [? ?]].
      apply finishes_bind; [apply finishes_when, finishes_raise | intros _; apply IH].
Qed.

Ltac finishes_step leaf :=
  lazymatch goal with
  | |- finishes (ret _) => apply finishes_ret
  | |- finishes (raise _) => apply finishes_raise
  | |- finishes (lift _) => apply finishes_lift
  | |- finishes (call _ _) => apply finishes_call
  | |- finishes (when _ _) => apply finishes_when
  | |- finishes (bind _ _) => apply finishes_bind; [|intros]
  | |- finishes (PG_TRY _ _) => apply finishes_PG_TRY
  | |- finishes (foreach _ _) => apply finishes_foreach; intros
  | |- finishes (foreach_between _ _ _) => apply finishes_foreach_between; [intros|]
  | |- finishes (CreateStmt_scan _ _ _) => apply CreateStmt_scan_finishes
  | |- finishes (DropStmtPreTreatment_foreach _ _ _ _ _ _) =>
      apply DropStmtPreTreatment_foreach_finishes
  | |- finishes (ExecRemoteUtilityStmt _ _) =>
      unfold ExecRemoteUtilityStmt, ExecInterXactUtility
  | |- finishes (match ?x with _ => _ end) => destruct x
  | |- _ => leaf
  end.

Ltac finishes_run leaf := autounfold with utility; repeat (finishes_step leaf).

Ltac by_assumption := idtac; solve [auto].

Section Termination.

Variable env : Env.
Variable ProcessUtility_rec : ProcessUtility_type.

Hypothesis rec_finishes :
  forall stmt queryString,
    finishes (ProcessUtility_rec stmt queryString PROCESS_UTILITY_SUBCOMMAND true None).

(** The orchestrator ends when the sub-statements it hands on do. *)
Lemma ProcessUtilitySlow_finishes parsetree queryString context sentToRemote
    completionTag :
  finishes
    (ProcessUtilitySlow env ProcessUtility_rec parsetree queryString context
       sentToRemote completionTag).
Proof.
  unfold ProcessUtilitySlow. finishes_run by_assumption.
Qed.

Lemma standard_ProcessUtility_finishes parsetree queryString context sentToRemote
    completionTag :
  finishes
    (standard_ProcessUtility env ProcessUtility_rec parsetree queryString context
       sentToRemote completionTag).
Proof.
  unfold standard_ProcessUtility.
  repeat (finishes_step by_assumption);
    try (apply ProcessUtilitySlow_finishes);
    finishes_run by_assumption.
Qed.

End Termination.

(** A statement that expands no further ends with any fuel but none. *)
Lemma ProcessUtility_finishes_at_once (env : Env) (fuel : nat) (parsetree : Node)
    (queryString : string) (context : ProcessUtilityContext) (sentToRemote : bool)
    (completionTag : option string) :
  expands_no_further parsetree = true ->
  finishes
    (ProcessUtility env (S fuel) parsetree queryString context sentToRemote
       completionTag).
Proof.
  intros Hleaf. cbn [ProcessUtility]. unfold standard_ProcessUtility.
  destruct parsetree; try discriminate Hleaf;
    unfold ProcessUtilitySlow; finishes_run by_assumption.
Qed.

(** The bracket of [ProcessUtilitySlow] around any block that itself
    neither opens nor closes a batch. *)
Lemma bracket_counts (env : Env) (complete : bool) (body : M unit) :
  silent is_BeginCompleteQuery body -> silent is_EndCompleteQuery body ->
  forall run,
    run = (needCleanup <- (if complete then EventTriggerBeginCompleteQuery env
                           else ret false) ;;
           PG_TRY body (when needCleanup (EventTriggerEndCompleteQuery env)) ;;
           when needCleanup (EventTriggerEndCompleteQuery env)) ->
    count is_BeginCompleteQuery (trace_of run) = (if complete then 1 else 0)
    /\ (outcome_of run <> OutOfFuel ->
        count is_EndCompleteQuery (trace_of run)
        = if complete && EventTriggerBeginCompleteQuery_result env
             && match fails env E_EventTriggerBeginCompleteQuery with
                | None => true
                | Some _ => false
                end
          then 1 else 0)
    /\ (forall e, outcome_of body = Raise e ->
        fails env E_EventTriggerBeginCompleteQuery = None ->
        fails env E_EventTriggerEndCompleteQuery = None ->
        outcome_of run = Raise e)
    /\ (outcome_of run = Ok tt ->
        outcome_of body = Ok tt
        /\ (complete = true -> fails env E_EventTriggerBeginCompleteQuery = None)
        /\ count is_CommandCounterIncrement (trace_of run)
           = count is_CommandCounterIncrement (trace_of body)).
Proof.
  unfold silent. destruct body as [tb rb]. cbn [trace_of outcome_of fst snd].
  intros Hb He run ->.
  unfold EventTriggerBeginCompleteQuery, EventTriggerEndCompleteQuery, call.
  destruct complete;
    destruct (fails env E_EventTriggerBeginCompleteQuery);
    destruct (EventTriggerBeginCompleteQuery_result env);
    destruct (fails env E_EventTriggerEndCompleteQuery);
    destruct rb as [[]|raised|];
    cbn;
    rewrite ?app_nil_r, ?count_cons, ?count_app, ?count_cons, ?count_nil, ?Hb, ?He;
    cbn;
    (split; [reflexivity|]);
    (split; [intros Hfuel; try reflexivity; try (exfalso; apply Hfuel; reflexivity)|]);
    (split; [intros err Hr; try discriminate; intros Hfb Hfe; try discriminate;
             try congruence|]);
    (intros Hok; try discriminate;
     repeat split; try reflexivity; try lia; intros; try discriminate).
Qed.

(** C4.  The change-notification batch of a slow-path execution.  The
    begin call is made exactly when the invocation is a complete query, and
    never by a sub-statement invocation, so the recursion cannot nest a
    second batch.  On each way out, by return or by error, the end call has
    been made exactly once when a batch was opened and not at all otherwise.
    An error raised inside the guarded block is the error that leaves the
    orchestrator.  (The run has a way out as soon as the sub-statements it
    hands to [ProcessUtility] have one within the fuel.) *)
Theorem change_notification_batch_is_paired (env : Env) (fuel : nat)
    (parsetree : Node) (queryString : string) (context : ProcessUtilityContext)
    (sentToRemote : bool) (completionTag : option string) :
  let run :=
    ProcessUtilitySlow env (ProcessUtility env fuel) parsetree queryString context
      sentToRemote completionTag in
  let block :=
    ProcessUtilitySlow_try env (ProcessUtility env fuel) parsetree queryString
      (isTopLevel_of context) (isCompleteQuery_of context) sentToRemote
      InvalidObjectAddress (init_utilityContext sentToRemote queryString) in
  count is_BeginCompleteQuery (trace_of run)
  = (if isCompleteQuery_of context then 1 else 0)
  /\ (outcome_of run <> OutOfFuel ->
      count is_EndCompleteQuery (trace_of run)
      = if batch_opened env context then 1 else 0)
  /\ (forall e, outcome_of block = Raise e ->
      fails env E_EventTriggerBeginCompleteQuery = None ->
      fails env E_EventTriggerEndCompleteQuery = None ->
      outcome_of run = Raise e)
  /\ ((forall stmt queryString',
        outcome_of (ProcessUtility env fuel stmt queryString'
                      PROCESS_UTILITY_SUBCOMMAND true None) <> OutOfFuel) ->
      outcome_of run <> OutOfFuel)
  /\ (forall stmt queryString' sentToRemote' completionTag',
      count is_BeginCompleteQuery
        (trace_of (ProcessUtility env fuel stmt queryString'
                     PROCESS_UTILITY_SUBCOMMAND sentToRemote' completionTag')) = 0
      /\ count is_EndCompleteQuery
           (trace_of (ProcessUtility env fuel stmt queryString'
                        PROCESS_UTILITY_SUBCOMMAND sentToRemote' completionTag')) = 0).
Proof.
  intros run block.
  assert (Hb : silent is_BeginCompleteQuery block).
  { apply ProcessUtilitySlow_try_silent.
    - exact is_BeginCompleteQuery_batch.
    - intros. apply ProcessUtility_sub_silent. exact is_BeginCompleteQuery_batch. }
  assert (He : silent is_EndCompleteQuery block).
  { apply ProcessUtilitySlow_try_silent.
    - exact is_EndCompleteQuery_batch.
    - intros. apply ProcessUtility_sub_silent. exact is_EndCompleteQuery_batch. }
  destruct (bracket_counts env (isCompleteQuery_of context) block Hb He run eq_refl)
    as (Hbegin & Hend & Hraise & _).
  split; [exact Hbegin|]. split; [exact Hend|]. split; [exact Hraise|].
  split; [intros Hsub; apply ProcessUtilitySlow_finishes; exact Hsub|].
  intros stmt queryString' sentToRemote' completionTag'. split.
  - apply ProcessUtility_sub_silent. exact is_BeginCompleteQuery_batch.
  - apply ProcessUtility_sub_silent. exact is_EndCompleteQuery_batch.
Qed.

Lemma change_notification_batch_is_paired_witness :
  count is_BeginCompleteQuery
    (trace_of
       (ProcessUtilitySlow
          (Cluster.cluster true 2 false true Cluster.DefineRelation_fails)
          (ProcessUtility
             (Cluster.cluster true 2 false true Cluster.DefineRelation_fails) 2)
          (T_CreateStmt (Cluster.create_table "t_perm")) "CREATE TABLE t_perm ()"
          PROCESS_UTILITY_TOPLEVEL false None)) = 1
  /\ count is_EndCompleteQuery
       (trace_of
          (ProcessUtilitySlow
             (Cluster.cluster true 2 false true Cluster.DefineRelation_fails)
             (ProcessUtility
                (Cluster.cluster true 2 false true Cluster.DefineRelation_fails) 2)
             (T_CreateStmt (Cluster.create_table "t_perm")) "CREATE TABLE t_perm ()"
             PROCESS_UTILITY_TOPLEVEL false None)) = 1
  /\ outcome_of
       (ProcessUtilitySlow
          (Cluster.cluster true 2 false true Cluster.DefineRelation_fails)
          (ProcessUtility
             (Cluster.cluster true 2 false true Cluster.DefineRelation_fails) 2)
          (T_CreateStmt (Cluster.create_table "t_perm")) "CREATE TABLE t_perm ()"
          PROCESS_UTILITY_TOPLEVEL false None)
     = Raise Cluster.relation_exists.
Proof.
  destruct (change_notification_batch_is_paired
              (Cluster.cluster true 2 false true Cluster.DefineRelation_fails) 2
              (T_CreateStmt (Cluster.create_table "t_perm")) "CREATE TABLE t_perm ()"
              PROCESS_UTILITY_TOPLEVEL false None)
    as (Hbegin & Hend & Hraise & _ & _).
  split; [exact Hbegin|]. split.
  - apply Hend. discriminate.
  - apply Hraise; reflexivity.
Defined.

(* ------------------------------------------------------------------ *)
(** ** Command-counter advances of CREATE TABLE *)

Lemma count_ret (p : Event -> bool) {A} (a : A) : count p (trace_of (ret a)) = 0.
Proof. reflexivity. Qed.

Lemma count_when (p : Event -> bool) (c : bool) (m : M unit) :
  count p (trace_of (when c m)) = if c then count p (trace_of m) else 0.
Proof. destruct c; reflexivity. Qed.

(** In a loop that ran to its end, the advances are those of the turns and
    one between each two turns. *)
Lemma foreach_between_advances (env : Env) {A} (l : list A) (body : A -> M unit)
    (expect : A -> nat) :
  (forall x, outcome_of (body x) = Ok tt ->
             count is_CommandCounterIncrement (trace_of (body x)) = expect x) ->
  outcome_of (foreach_between l body (CommandCounterIncrement env)) = Ok tt ->
  count is_CommandCounterIncrement
    (trace_of (foreach_between l body (CommandCounterIncrement env)))
  = (List.length l - 1) + list_sum (map expect l).
Proof.
  intros Hexp. induction l as [|x rest IH]; intros Hok; [reflexivity|].
  cbn [foreach_between] in *.
  apply bind_ok_inv in Hok. destruct Hok as ([] & H1 & Hok).
  apply bind_ok_inv in Hok. destruct Hok as ([] & H2 & Hok).
  rewrite (count_bind_ok _ _ _ tt H1), (count_bind_ok _ _ _ tt H2).
  rewrite (Hexp x H1), (IH Hok), count_when.
  unfold CommandCounterIncrement. rewrite count_call.
  destruct rest; cbn [List.length map is_CommandCounterIncrement];
    unfold list_sum; cbn [fold_right]; lia.
Qed.

Section CreateTable.

Variable env : Env.
Variable ProcessUtility_rec : ProcessUtility_type.

(** What one turn of the loop of CREATE TABLE advances. *)
Lemma CreateStmt_do_advances (queryString : string) (secondaryObject : ObjectAddress)
    (s : Node) :
  outcome_of (CreateStmt_do env ProcessUtility_rec queryString secondaryObject s) = Ok tt ->
  count is_CommandCounterIncrement
    (trace_of (CreateStmt_do env ProcessUtility_rec queryString secondaryObject s))
  = match s with
    | T_CreateStmt _ => 1
    | T_CreateForeignTableStmt _ => 0
    | _ => count is_CommandCounterIncrement
             (trace_of (ProcessUtility_rec s queryString PROCESS_UTILITY_SUBCOMMAND
                          true None))
    end.
Proof.
  assert (Hrec : forall n,
    count is_CommandCounterIncrement
      (trace_of (ProcessUtility_rec n queryString PROCESS_UTILITY_SUBCOMMAND true None ;;
                 ret tt))
    = count is_CommandCounterIncrement
        (trace_of (ProcessUtility_rec n queryString PROCESS_UTILITY_SUBCOMMAND true None))).
  { intros n. rewrite trace_bind, count_app.
    destruct (outcome_of _); rewrite ?count_ret, ?count_nil; lia. }
  destruct s as [ts|cs|fs|ats|ixs|css|ass|ds|role|step];
    cbn [CreateStmt_do]; intros Hok; try apply Hrec.
  - revert Hok.
    unfold call_address, EventTriggerCollectSimpleCommand, CommandCounterIncrement, call.
    repeat (match goal with
            | |- context [fails env ?ev] => destruct (fails env ev)
            end; cbn; try discriminate).
    intros _. rewrite !count_cons, count_nil. reflexivity.
  - revert Hok.
    unfold call_address, EventTriggerCollectSimpleCommand, call.
    repeat (match goal with
            | |- context [fails env ?ev] => destruct (fails env ev)
            end; cbn; try discriminate).
    intros _. rewrite !count_cons, count_nil. reflexivity.
Qed.

Lemma advances_split (queryString : string) (stmts : list Node) :
  list_sum
    (map (fun s =>
            match s with
            | T_CreateStmt _ => 1
            | T_CreateForeignTableStmt _ => 0
            | _ => count is_CommandCounterIncrement
                     (trace_of (ProcessUtility_rec s queryString
                                  PROCESS_UTILITY_SUBCOMMAND true None))
            end) stmts)
  = created_tables stmts + sub_advances ProcessUtility_rec queryString stmts.
Proof.
  unfold created_tables, sub_advances, list_sum.
  induction stmts as [|s rest IH]; [reflexivity|].
  cbn [map fold_right]. rewrite IH. destruct s; lia.
Qed.

(** The CREATE TABLE case, when it ran to its end. *)
Lemma Slow_CreateStmt_advances (parsetree : Node) (cstmt : CreateStmt)
    (queryString : string) (sentToRemote : bool) (secondaryObject : ObjectAddress) :
  outcome_of (Slow_CreateStmt env ProcessUtility_rec parsetree cstmt queryString
                sentToRemote secondaryObject) = Ok tt ->
  count is_CommandCounterIncrement
    (trace_of (Slow_CreateStmt env ProcessUtility_rec parsetree cstmt queryString
                 sentToRemote secondaryObject))
  = (List.length (CreateStmt_stmts env parsetree cstmt queryString sentToRemote
                    (CreateStmt_is_temp env cstmt)) - 1)
    + created_tables (CreateStmt_stmts env parsetree cstmt queryString sentToRemote
                        (CreateStmt_is_temp env cstmt))
    + sub_advances ProcessUtility_rec queryString
        (CreateStmt_stmts env parsetree cstmt queryString sentToRemote
           (CreateStmt_is_temp env cstmt)).
Proof.
  unfold Slow_CreateStmt. intros Hok.
  apply bind_ok_inv in Hok. destruct Hok as ([] & H1 & Hok).
  apply bind_ok_inv in Hok. destruct Hok as (is_temp & H2 & Hok).
  rewrite (count_bind_ok _ _ _ tt H1), (count_bind_ok _ _ _ is_temp H2).
  rewrite count_call.
  assert (Hscan : count is_CommandCounterIncrement
            (trace_of (if IsCoordMaster env
                       then CreateStmt_scan (fst (transformCreateStmt_result env cstmt))
                              true false
                       else ret false)) = 0).
  { destruct (IsCoordMaster env); [|reflexivity].
    rewrite CreateStmt_scan_trace. reflexivity. }
  assert (Htemp : CreateStmt_is_temp env cstmt = is_temp).
  { unfold CreateStmt_is_temp. destruct (IsCoordMaster env).
    - rewrite H2. reflexivity.
    - simpl in H2. congruence. }
  rewrite Hscan, Htemp.
  rewrite (foreach_between_advances env _ _ _
             (CreateStmt_do_advances queryString secondaryObject) Hok).
  rewrite advances_split. cbn [is_CommandCounterIncrement]. lia.
Qed.

End CreateTable.

Section CreateTableBatch.

Variable env : Env.
Variable ProcessUtility_rec : ProcessUtility_type.

(** Around the CREATE TABLE case the guarded block advances nothing. *)
Lemma ProcessUtilitySlow_try_CreateStmt (parsetree : Node) (cstmt : CreateStmt)
    (queryString : string) (isTopLevel isCompleteQuery sentToRemote : bool)
    (secondaryObject : ObjectAddress) (utilityContext : RemoteUtilityContext) :
  parsetree = T_CreateStmt cstmt \/ parsetree = T_CreateForeignTableStmt cstmt ->
  outcome_of (ProcessUtilitySlow_try env ProcessUtility_rec parsetree queryString
                isTopLevel isCompleteQuery sentToRemote secondaryObject utilityContext)
  = Ok tt ->
  outcome_of (Slow_CreateStmt env ProcessUtility_rec parsetree cstmt queryString
                sentToRemote secondaryObject) = Ok tt
  /\ count is_CommandCounterIncrement
       (trace_of (ProcessUtilitySlow_try env ProcessUtility_rec parsetree queryString
                    isTopLevel isCompleteQuery sentToRemote secondaryObject
                    utilityContext))
     = count is_CommandCounterIncrement
         (trace_of (Slow_CreateStmt env ProcessUtility_rec parsetree cstmt queryString
                      sentToRemote secondaryObject)).
Proof.
  intros Hkind Hok.
  assert (Hswitch :
    Slow_switch env ProcessUtility_rec parsetree queryString isTopLevel sentToRemote
      secondaryObject utilityContext
    = (Slow_CreateStmt env ProcessUtility_rec parsetree cstmt queryString sentToRemote
         secondaryObject ;;
       ret (true, InvalidObjectAddress))).
  { destruct Hkind as [-> | ->]; reflexivity. }
  unfold ProcessUtilitySlow_try in *. rewrite Hswitch in *.
  apply bind_ok_inv in Hok. destruct Hok as ([] & H1 & Hok).
  apply bind_ok_inv in Hok. destruct Hok as ([cc address] & H2 & Hok).
  rewrite (count_bind_ok _ _ _ tt H1), (count_bind_ok _ _ _ (cc, address) H2).
  apply bind_ok_inv in H2. destruct H2 as ([] & H3 & H2).
  rewrite (count_bind_ok _ _ _ tt H3), count_ret.
  simpl in H2. injection H2 as <- <-.
  cbn [negb] in *. rewrite when_false, bind_ret_l, !count_when in *.
  split; [exact H3|].
  rewrite count_call.
  assert (Hend : count is_CommandCounterIncrement
            (trace_of (call env (E_EventTriggerSQLDrop parsetree) ;;
                       call env (E_EventTriggerDDLCommandEnd parsetree))) = 0).
  { rewrite trace_bind, count_app, count_call.
    destruct (outcome_of (call env (E_EventTriggerSQLDrop parsetree)));
      rewrite ?count_call, ?count_nil; cbn [is_CommandCounterIncrement];
      reflexivity. }
  rewrite Hend. destruct isCompleteQuery; cbn [is_CommandCounterIncrement]; lia.
Qed.

End CreateTableBatch.

(** C8 (as amended).  For a CREATE TABLE that runs to its end, let the
    executed list be the expansion of parse analysis, with the
    remote-execution node added to it when the statement is neither forwarded
    nor temporary.  The command counter is advanced once between each two
    consecutive statements of that list, once more inside each table creation
    (after the relation is defined, before its toast table), and as often as
    the sub-statements handed to [ProcessUtility] advance it themselves.  The
    batch is begun once when the invocation is a complete query and not at
    all otherwise, and ended once exactly when it was opened. *)
Theorem create_table_advances (env : Env) (fuel : nat) (parsetree : Node)
    (cstmt : CreateStmt) (queryString : string) (context : ProcessUtilityContext)
    (sentToRemote : bool) (completionTag : option string) :
  parsetree = T_CreateStmt cstmt \/ parsetree = T_CreateForeignTableStmt cstmt ->
  outcome_of (ProcessUtilitySlow env (ProcessUtility env fuel) parsetree queryString
                context sentToRemote completionTag) = Ok tt ->
  let run :=
    ProcessUtilitySlow env (ProcessUtility env fuel) parsetree queryString context
      sentToRemote completionTag in
  let executed :=
    CreateStmt_stmts env parsetree cstmt queryString sentToRemote
      (CreateStmt_is_temp env cstmt) in
  count is_CommandCounterIncrement (trace_of run)
  = (List.length executed - 1) + created_tables executed
    + sub_advances (ProcessUtility env fuel) queryString executed
  /\ count is_BeginCompleteQuery (trace_of run)
     = (if isCompleteQuery_of context then 1 else 0)
  /\ count is_EndCompleteQuery (trace_of run)
     = (if isCompleteQuery_of context && EventTriggerBeginCompleteQuery_result env
        then 1 else 0).
Proof.
  intros Hkind Hok run executed.
  pose (block :=
    ProcessUtilitySlow_try env (ProcessUtility env fuel) parsetree queryString
      (isTopLevel_of context) (isCompleteQuery_of context) sentToRemote
      InvalidObjectAddress (init_utilityContext sentToRemote queryString)).
  assert (Hb : silent is_BeginCompleteQuery block).
  { apply ProcessUtilitySlow_try_silent.
    - exact is_BeginCompleteQuery_batch.
    - intros. apply ProcessUtility_sub_silent. exact is_BeginCompleteQuery_batch. }
  assert (He : silent is_EndCompleteQuery block).
  { apply ProcessUtilitySlow_try_silent.
    - exact is_EndCompleteQuery_batch.
    - intros. apply ProcessUtility_sub_silent. exact is_EndCompleteQuery_batch. }
  destruct (bracket_counts env (isCompleteQuery_of context) block Hb He run eq_refl)
    as (Hbegin & Hend & _ & Hrun).
  destruct (Hrun Hok) as (Hblock & Hopen & Hcount).
  destruct (ProcessUtilitySlow_try_CreateStmt env (ProcessUtility env fuel) parsetree
              cstmt queryString (isTopLevel_of context) (isCompleteQuery_of context)
              sentToRemote InvalidObjectAddress
              (init_utilityContext sentToRemote queryString) Hkind Hblock)
    as (Hcase & Hcount').
  split; [|split].
  - rewrite Hcount. fold block in Hcount'. rewrite Hcount'.
    apply Slow_CreateStmt_advances. exact Hcase.
  - exact Hbegin.
  - rewrite Hend by (unfold run; rewrite Hok; discriminate).
    destruct (isCompleteQuery_of context); [|reflexivity].
    rewrite (Hopen eq_refl). rewrite Bool.andb_true_r. reflexivity.
Qed.

Lemma create_table_advances_witness :
  count is_CommandCounterIncrement
    (trace_of
       (ProcessUtilitySlow Cluster.coordinator (ProcessUtility Cluster.coordinator 2)
          (T_CreateStmt (Cluster.create_table "t_serial")) "CREATE TABLE t_serial"
          PROCESS_UTILITY_TOPLEVEL false None))
  = 5.
Proof.
  apply (create_table_advances Cluster.coordinator 2
           (T_CreateStmt (Cluster.create_table "t_serial"))
           (Cluster.create_table "t_serial") "CREATE TABLE t_serial"
           PROCESS_UTILITY_TOPLEVEL false None).
  - left; reflexivity.
  - reflexivity.
Defined.

(** C8, as stated, fails already for a CREATE TABLE whose expansion is the
    single table creation and which arrives forwarded, so that nothing is
    added to the list: one statement, and one advance, the one before the
    toast table, where the claim has none. *)
Lemma create_table_single_statement_advances_once :
  List.length (fst (transformCreateStmt_result Cluster.coordinator
                      (Cluster.create_table "t_perm"))) = 1
  /\ outcome_of
       (ProcessUtility Cluster.coordinator 2
          (T_CreateStmt (Cluster.create_table "t_perm")) "CREATE TABLE t_perm"
          PROCESS_UTILITY_TOPLEVEL true None) = Ok None
  /\ count is_CommandCounterIncrement
       (trace_of
          (ProcessUtility Cluster.coordinator 2
             (T_CreateStmt (Cluster.create_table "t_perm")) "CREATE TABLE t_perm"
             PROCESS_UTILITY_TOPLEVEL true None))
     = 1.
Proof.
  repeat split.
Qed.

(* ================================================================== *)
(** * Further properties of the code *)

(** ** Placement answers of the resolver *)

(** X1.  What the resolver can answer.  NONE is only ever the placement of
    a temporary view, rule target, table or trigger target; COORDINATORS is
    never the placement of something temporary; DATA_NODES alone is only the
    placement of a temporary index; and nothing is called temporary unless
    [IsTempTable] holds of it.  The resolver raises only when the base
    relation of an index cannot be looked up. *)
Theorem ExecUtilityFindNodes_placement (env : Env) (object_type : ObjectType)
    (object_id : Oid) :
  (forall exec_type is_temp,
     ExecUtilityFindNodes env object_type object_id = inr (exec_type, is_temp) ->
     (exec_type = EXEC_ON_NONE ->
        is_temp = true
        /\ In object_type [OBJECT_TABLE; OBJECT_TRIGGER; OBJECT_RULE; OBJECT_VIEW])
     /\ (exec_type = EXEC_ON_COORDS -> is_temp = false)
     /\ (exec_type = EXEC_ON_DATANODES -> is_temp = true /\ object_type = OBJECT_INDEX)
     /\ (is_temp = true -> IsTempTable env object_id = true))
  /\ (forall err,
        ExecUtilityFindNodes env object_type object_id = inl err ->
        object_type = OBJECT_INDEX /\ IndexGetRelation env object_id = inl err).
Proof.
  unfold ExecUtilityFindNodes, ExecUtilityFindNodesRelkind.
  split.
  - intros exec_type is_temp H.
    destruct object_type;
      repeat match type of H with
             | context [if ?c then _ else _] => destruct c eqn:?
             | context [match ?c with inl _ => _ | inr _ => _ end] => destruct c eqn:?
             end;
      inversion H; subst; clear H;
      (repeat split; try discriminate; try congruence; simpl; auto 10).
  - intros err H.
    destruct object_type;
      repeat match type of H with
             | context [if ?c then _ else _] => destruct c eqn:?
             | context [match ?c with inl _ => _ | inr _ => _ end] => destruct c eqn:?
             end;
      inversion H; subst; clear H; split; reflexivity.
Qed.

(* ------------------------------------------------------------------ *)
(** ** DROP: what is sent, and when *)

Lemma bind_ret_r (m : M unit) : (m ;; ret tt) = m.
Proof. destruct m as [t [[]|e|]]; simpl; rewrite ?app_nil_r; reflexivity. Qed.

Lemma silent_bind_ok (p : Event -> bool) {A B} (m : M A) (f : A -> M B) :
  silent p m -> (forall a, outcome_of m = Ok a -> silent p (f a)) ->
  silent p (bind m f).
Proof.
  unfold silent. intros Hm Hf. rewrite trace_bind, count_app, Hm.
  destruct (outcome_of m); [apply Hf; reflexivity | reflexivity | reflexivity].
Qed.

Ltac plain_leaf :=
  idtac;
  lazymatch goal with
  | |- silent _ _ => solve [auto]
  | |- _ = false => reflexivity
  end.

Lemma ExecRemoteUtilityStmt_none (env : Env) (context : RemoteUtilityContext) :
  exec_type context = EXEC_ON_NONE -> ExecRemoteUtilityStmt env context = ([], Ok tt).
Proof.
  intros H. unfold ExecRemoteUtilityStmt. rewrite H.
  destruct (negb (IsCoordMaster env)); reflexivity.
Qed.

Lemma ExecRemoteUtilityStmt_off_coordinator (env : Env) (context : RemoteUtilityContext) :
  IsCoordMaster env = false -> ExecRemoteUtilityStmt env context = ([], Ok tt).
Proof. intros H. unfold ExecRemoteUtilityStmt. rewrite H. reflexivity. Qed.

(** The request the dispatcher sends when nothing stops it. *)
Lemma ExecRemoteUtilityStmt_sends (env : Env) (context : RemoteUtilityContext) :
  IsCoordMaster env = true -> exec_type context <> EXEC_ON_NONE ->
  sentToRemote context = false -> NumDataNodes env <> 0%Z ->
  ExecRemoteUtilityStmt env context
  = call env
      (E_ExecInterXactUtility site_ExecRemoteUtilityStmt
         {| sql_node := stmt context;
            combine_type := COMBINE_TYPE_SAME;
            exec_nodes := nodes context;
            sql_statement := query context;
            rq_force_autocommit := force_autocommit context;
            rq_exec_type := exec_type context;
            rq_is_temp := is_temp context |}).
Proof.
  intros Hm Hne Hs Hdn. unfold ExecRemoteUtilityStmt, ExecInterXactUtility.
  rewrite Hm, Hs.
  assert ((NumDataNodes env =? 0)%Z = false) as -> by (apply Z.eqb_neq; exact Hdn).
  destruct (exec_type context); try congruence; reflexivity.
Qed.

(** The dispatcher calls the transport, once, or nothing. *)
Lemma ExecRemoteUtilityStmt_trace (env : Env) (context : RemoteUtilityContext) :
  trace_of (ExecRemoteUtilityStmt env context) = []
  \/ exists step,
       trace_of (ExecRemoteUtilityStmt env context)
       = [E_ExecInterXactUtility site_ExecRemoteUtilityStmt step].
Proof.
  unfold ExecRemoteUtilityStmt, ExecInterXactUtility, call.
  destruct (negb (IsCoordMaster env)); [left; reflexivity|].
  destruct (RemoteQueryExecType_beq (exec_type context) EXEC_ON_NONE); [left; reflexivity|].
  destruct (sentToRemote context); [left; reflexivity|].
  destruct (NumDataNodes env =? 0)%Z; [left; reflexivity|].
  right. eexists. msimpl. reflexivity.
Qed.

Lemma when_dispatch_trace (env : Env) (c : bool) (context : RemoteUtilityContext) :
  trace_of (when c (ExecRemoteUtilityStmt env context)) = []
  \/ exists step,
       trace_of (when c (ExecRemoteUtilityStmt env context))
       = [E_ExecInterXactUtility site_ExecRemoteUtilityStmt step].
Proof.
  destruct c; [apply ExecRemoteUtilityStmt_trace | left; reflexivity].
Qed.

(** The runs of a local call followed by a dispatch. *)
Lemma call_then_dispatch (env : Env) (ev : Event) (dispatch : M unit) :
  (trace_of dispatch = []
   \/ exists step,
        trace_of dispatch = [E_ExecInterXactUtility site_ExecRemoteUtilityStmt step]) ->
  trace_of (call env ev ;; dispatch) = [ev]
  \/ exists step,
       fails env ev = None
       /\ trace_of (call env ev ;; dispatch)
          = [ev; E_ExecInterXactUtility site_ExecRemoteUtilityStmt step].
Proof.
  intros Hd. rewrite trace_bind. unfold call. cbn [trace_of outcome_of fst snd].
  destruct (fails env ev) eqn:Hf; [left; reflexivity|].
  destruct Hd as [->|[step ->]]; [left; reflexivity|].
  right. exists step. split; reflexivity.
Qed.

(** A check that sends nothing, then the removal, then the dispatch. *)
Lemma checked_removal_shape (env : Env) (check : M (bool * RemoteQueryExecType))
    (removal : Event) (context : bool -> RemoteQueryExecType -> RemoteUtilityContext) :
  silent is_transport check -> is_transport removal = false ->
  let run :=
    ' (is_temp, exec_type) <- check ;;
    call env removal ;;
    when (negb is_temp) (ExecRemoteUtilityStmt env (context is_temp exec_type)) in
  count is_transport (trace_of run) = 0
  \/ exists before step,
       trace_of run
       = before ++ [removal; E_ExecInterXactUtility site_ExecRemoteUtilityStmt step]
       /\ count is_transport before = 0
       /\ fails env removal = None.
Proof.
  intros Hc Hr run. subst run. rewrite trace_bind.
  destruct (outcome_of check) as [[is_temp exec_type]|e|].
  - destruct (call_then_dispatch env removal
                (when (negb is_temp)
                   (ExecRemoteUtilityStmt env (context is_temp exec_type)))
                (when_dispatch_trace _ _ _)) as [->|[step [Hf ->]]].
    + left. rewrite count_app, Hc, count_cons, Hr, count_nil. reflexivity.
    + right. exists (trace_of check), step. auto.
  - left. rewrite app_nil_r. exact Hc.
  - left. rewrite app_nil_r. exact Hc.
Qed.

Lemma DropStmtPreTreatment_local (env : Env) (stmt : DropStmt) (queryString : string)
    (sentToRemote is_temp : bool) (exec_type : RemoteQueryExecType) :
  silent is_transport
    (DropStmtPreTreatment env stmt queryString sentToRemote is_temp exec_type).
Proof. unfold DropStmtPreTreatment. silent_run plain_leaf. Qed.

(** X2.  A DROP of tables, sequences, views or indexes that the checker
    places as temporary is carried out on the coordinating entry point alone:
    the call is the local removal and nothing else, so nothing is sent. *)
Theorem ExecDropStmt_temporary_stays_local (env : Env) (stmt : DropStmt)
    (isTopLevel : bool) (queryString : string) (sentToRemote : bool)
    (exec_type : RemoteQueryExecType) :
  IsCoordMaster env = true ->
  In (removeType stmt) [OBJECT_TABLE; OBJECT_SEQUENCE; OBJECT_VIEW; OBJECT_INDEX] ->
  (removeType stmt = OBJECT_INDEX -> concurrent stmt = false) ->
  all_resolve env stmt ->
  (exists cell, In cell (objects stmt) /\ resolves env stmt cell (exec_type, true)) ->
  (forall cell p, In cell (objects stmt) -> resolves env stmt cell p ->
                  p = (exec_type, true)) ->
  ExecDropStmt env stmt isTopLevel queryString sentToRemote = RemoveRelations env stmt.
Proof.
  intros Hm Hk Hc Hall Hex Hsame.
  assert (Hpre :
    DropStmtPreTreatment env stmt queryString sentToRemote false EXEC_ON_ALL_NODES
    = ret (true, exec_type)).
  { rewrite (DropStmtPreTreatment_relations env stmt queryString sentToRemote
               false EXEC_ON_ALL_NODES Hm Hk).
    exact (loop_agree env stmt (objects stmt) Hall false EXEC_ON_ALL_NODES
             (exec_type, true) Hex Hsame). }
  unfold ExecDropStmt.
  destruct Hk as [Hk|[Hk|[Hk|[Hk|[]]]]]; rewrite <- Hk in *; cbv iota;
    rewrite ?(Hc eq_refl); msimpl; rewrite Hpre, bind_ret_l; msimpl; apply bind_ret_r.
Qed.

Lemma ExecDropStmt_temporary_stays_local_witness :
  ExecDropStmt Cluster.coordinator (Cluster.drop_tables ["t_temp"; "gone"] true) true
    "DROP TABLE IF EXISTS t_temp, gone" false
  = ([E_RemoveRelations (Cluster.drop_tables ["t_temp"; "gone"] true)], Ok tt).
Proof.
  rewrite (ExecDropStmt_temporary_stays_local Cluster.coordinator
             (Cluster.drop_tables ["t_temp"; "gone"] true) true
             "DROP TABLE IF EXISTS t_temp, gone" false EXEC_ON_ALL_NODES).
  - reflexivity.
  - reflexivity.
  - simpl; auto.
  - discriminate.
  - repeat constructor; simpl; eauto.
  - exists ["t_temp"]. split; [simpl; auto | split; reflexivity].
  - intros cell p [<-|[<-|[]]] [Hv Hp].
    + vm_compute in Hp. congruence.
    + vm_compute in Hv. discriminate.
Defined.

(** X3.  Whatever the statement and the environment, a DROP reaches the
    transport at most once, as the last call it makes, and only right after
    the local removal has returned: a DROP that fails locally is not sent. *)
Theorem ExecDropStmt_forwards_after_local_drop (env : Env) (stmt : DropStmt)
    (isTopLevel : bool) (queryString : string) (sentToRemote : bool) :
  count is_transport
    (trace_of (ExecDropStmt env stmt isTopLevel queryString sentToRemote)) = 0
  \/ exists before removal step,
       trace_of (ExecDropStmt env stmt isTopLevel queryString sentToRemote)
       = before ++ [removal; E_ExecInterXactUtility site_ExecRemoteUtilityStmt step]
       /\ count is_transport before = 0
       /\ (removal = E_RemoveRelations stmt \/ removal = E_RemoveObjects stmt)
       /\ fails env removal = None.
Proof.
  assert (Hshape : forall (check : M (bool * RemoteQueryExecType)) removal
                     (context : bool -> RemoteQueryExecType -> RemoteUtilityContext),
    silent is_transport check -> is_transport removal = false ->
    removal = E_RemoveRelations stmt \/ removal = E_RemoveObjects stmt ->
    let run :=
      ' (is_temp, exec_type) <- check ;;
      call env removal ;;
      when (negb is_temp) (ExecRemoteUtilityStmt env (context is_temp exec_type)) in
    count is_transport (trace_of run) = 0
    \/ exists before removal step,
         trace_of run
         = before ++ [removal; E_ExecInterXactUtility site_ExecRemoteUtilityStmt step]
         /\ count is_transport before = 0
         /\ (removal = E_RemoveRelations stmt \/ removal = E_RemoveObjects stmt)
         /\ fails env removal = None).
  { intros check removal context Hc Hr Hwhich.
    destruct (checked_removal_shape env check removal context Hc Hr)
      as [H|[before [step [H1 [H2 H3]]]]].
    - left. exact H.
    - right. exists before, removal, step. auto. }
  pose proof (Hshape
    (DropStmtPreTreatment env stmt queryString sentToRemote false
       (match removeType stmt with
        | OBJECT_MATVIEW => EXEC_ON_COORDS
        | _ => EXEC_ON_ALL_NODES
        end))
    (E_RemoveRelations stmt)
    (fun is_temp exec_type =>
       set_stmt (T_DropStmt stmt)
         (set_exec_type exec_type
            (set_is_temp is_temp (init_utilityContext sentToRemote queryString))))
    (DropStmtPreTreatment_local _ _ _ _ _ _) eq_refl (or_introl eq_refl)) as Hrel.
  pose proof (Hshape
    (DropStmtPreTreatment env stmt queryString sentToRemote false EXEC_ON_ALL_NODES)
    (E_RemoveObjects stmt)
    (fun is_temp exec_type =>
       set_is_temp is_temp
         (set_exec_type exec_type (init_utilityContext sentToRemote queryString)))
    (DropStmtPreTreatment_local _ _ _ _ _ _) eq_refl (or_intror eq_refl)) as Hobj.
  unfold ExecDropStmt.
  destruct (removeType stmt) eqn:Hk; try exact Hobj; try exact Hrel.
  destruct (concurrent stmt); msimpl; [left; reflexivity | exact Hrel].
Qed.

(** What the checker answers for DROP RULE and DROP TRIGGER. *)
Lemma DropStmtPreTreatment_rule (env : Env) (stmt : DropStmt) (queryString : string)
    (sentToRemote is_temp : bool) (exec_type : RemoteQueryExecType) :
  IsCoordMaster env = true ->
  In (removeType stmt) [OBJECT_RULE; OBJECT_TRIGGER] ->
  forall x,
    outcome_of (DropStmtPreTreatment env stmt queryString sentToRemote is_temp exec_type)
    = Ok x ->
    match rule_relation env stmt with
    | Some rd_id => ExecUtilityFindNodes env (removeType stmt) rd_id = inr (snd x, fst x)
    | None => x = (false, EXEC_ON_NONE)
    end.
Proof.
  intros Hm Hk x. unfold DropStmtPreTreatment, rule_relation. rewrite Hm. cbn [negb].
  destruct Hk as [Hk|[Hk|[]]]; rewrite <- Hk; cbv iota;
    rewrite !outcome_bind; unfold call; cbn [outcome_of snd];
    destruct (fails env (E_get_object_address stmt)); try discriminate;
    destruct (get_object_address_relation env stmt) as [rd|];
    try (destruct (OidIsValid rd));
    try (destruct (ExecUtilityFindNodes env _ rd) as [err|[e t]]);
    cbn; try discriminate;
    try (destruct (fails env (E_relation_close rd)); try discriminate);
    cbn; intros H; inversion H; reflexivity.
Qed.

(** A DROP RULE or DROP TRIGGER whose checker answers temporary or NONE
    sends nothing. *)
Lemma ExecDropStmt_rule_local (env : Env) (stmt : DropStmt)
    (isTopLevel : bool) (queryString : string) (sentToRemote : bool) :
  In (removeType stmt) [OBJECT_RULE; OBJECT_TRIGGER] ->
  (forall x,
     IsCoordMaster env = true ->
     outcome_of (DropStmtPreTreatment env stmt queryString sentToRemote false
                   EXEC_ON_ALL_NODES) = Ok x ->
     fst x = true \/ snd x = EXEC_ON_NONE) ->
  silent is_transport (ExecDropStmt env stmt isTopLevel queryString sentToRemote).
Proof.
  intros Hk Hx. unfold ExecDropStmt.
  destruct Hk as [Hk|[Hk|[]]]; rewrite <- Hk; cbv iota;
    (apply silent_bind_ok; [apply DropStmtPreTreatment_local|]); intros [t e] Hpre;
    (apply silent_bind; [apply silent_call; reflexivity|]); intros _;
    (destruct (IsCoordMaster env) eqn:Hm;
     [ destruct (Hx (t, e) eq_refl Hpre) as [Ht|He]; cbn [fst snd] in *; subst;
       [ apply silent_ret
       | apply silent_when, silent_of_nil;
         rewrite ExecRemoteUtilityStmt_none; reflexivity ]
     | apply silent_when, silent_of_nil;
       rewrite ExecRemoteUtilityStmt_off_coordinator; auto ]).
Qed.

(** X4.  DROP RULE and DROP TRIGGER are placed by the relation the rule or
    trigger is defined on.  When [get_object_address] hands back no valid
    relation the placement is NONE and nothing is sent; when the relation is
    placed as temporary nothing is sent either.  On the coordinating entry
    point the checker answers the resolver's placement of that relation, and
    closes the relation it was handed. *)
Theorem ExecDropStmt_rule_follows_its_relation (env : Env) (stmt : DropStmt)
    (isTopLevel : bool) (queryString : string) (sentToRemote : bool) :
  In (removeType stmt) [OBJECT_RULE; OBJECT_TRIGGER] ->
  (rule_relation env stmt = None ->
     count is_transport
       (trace_of (ExecDropStmt env stmt isTopLevel queryString sentToRemote)) = 0)
  /\ (forall rd_id exec_type,
        rule_relation env stmt = Some rd_id ->
        ExecUtilityFindNodes env (removeType stmt) rd_id = inr (exec_type, true) ->
        count is_transport
          (trace_of (ExecDropStmt env stmt isTopLevel queryString sentToRemote)) = 0)
  /\ (forall rd_id p is_temp exec_type,
        IsCoordMaster env = true ->
        rule_relation env stmt = Some rd_id ->
        ExecUtilityFindNodes env (removeType stmt) rd_id = inr p ->
        fails env (E_get_object_address stmt) = None ->
        fails env (E_relation_close rd_id) = None ->
        DropStmtPreTreatment env stmt queryString sentToRemote is_temp exec_type
        = ([E_get_object_address stmt; E_relation_close rd_id], Ok (snd p, fst p))).
Proof.
  intros Hk. split; [|split].
  - intros Hnone. apply ExecDropStmt_rule_local; [exact Hk|]. intros x Hm Hpre.
    pose proof (DropStmtPreTreatment_rule env stmt queryString sentToRemote false
                  EXEC_ON_ALL_NODES Hm Hk x Hpre) as H.
    rewrite Hnone in H. subst x. right; reflexivity.
  - intros rd_id exec_type Hsome Hfind.
    apply ExecDropStmt_rule_local; [exact Hk|]. intros x Hm Hpre.
    pose proof (DropStmtPreTreatment_rule env stmt queryString sentToRemote false
                  EXEC_ON_ALL_NODES Hm Hk x Hpre) as H.
    rewrite Hsome, Hfind in H. left. congruence.
  - intros rd_id p is_temp exec_type Hm Hsome Hfind Hf1 Hf2.
    unfold rule_relation in Hsome. unfold DropStmtPreTreatment. rewrite Hm. cbn [negb].
    destruct (get_object_address_relation env stmt) as [rd|]; [|discriminate].
    destruct (OidIsValid rd) eqn:Hv; [|discriminate].
    inversion Hsome; subst rd.
    destruct Hk as [Hk|[Hk|[]]]; rewrite <- Hk in *; cbv iota;
      unfold call; rewrite Hf1, Hf2, Hfind; destruct p; reflexivity.
Qed.

Lemma ExecDropStmt_rule_follows_its_relation_witness :
  count is_transport
    (trace_of (ExecDropStmt Cluster.coordinator
                 (mkDropStmt [["gone"; "r1"]] OBJECT_RULE true false) true
                 "DROP RULE IF EXISTS r1 ON gone" false)) = 0.
Proof.
  apply (proj1 (ExecDropStmt_rule_follows_its_relation Cluster.coordinator
                  (mkDropStmt [["gone"; "r1"]] OBJECT_RULE true false) true
                  "DROP RULE IF EXISTS r1 ON gone" false
                  (or_introl eq_refl))).
  reflexivity.
Defined.

(** X5.  The object kinds the checker does not examine, on the coordinating
    entry point with a data node registered, for a statement not yet
    forwarded whose local removal returns.  DROP MATERIALIZED VIEW is sent to
    the coordinators only, DROP FOREIGN TABLE to all nodes, each with the
    statement attached; a DROP of any kind that is neither a relation kind
    nor a rule or trigger is sent to all nodes as its query text alone. *)
Theorem ExecDropStmt_unchecked_kinds (env : Env) (stmt : DropStmt)
    (isTopLevel : bool) (queryString : string) :
  IsCoordMaster env = true -> NumDataNodes env <> 0%Z ->
  fails env (E_RemoveRelations stmt) = None ->
  fails env (E_RemoveObjects stmt) = None ->
  let sent node exec_type :=
    E_ExecInterXactUtility site_ExecRemoteUtilityStmt
      {| sql_node := node; combine_type := COMBINE_TYPE_SAME; exec_nodes := None;
         sql_statement := queryString; rq_force_autocommit := false;
         rq_exec_type := exec_type; rq_is_temp := false |} in
  (removeType stmt = OBJECT_MATVIEW ->
     trace_of (ExecDropStmt env stmt isTopLevel queryString false)
     = [E_RemoveRelations stmt; sent (Some (T_DropStmt stmt)) EXEC_ON_COORDS])
  /\ (removeType stmt = OBJECT_FOREIGN_TABLE ->
        trace_of (ExecDropStmt env stmt isTopLevel queryString false)
        = [E_RemoveRelations stmt; sent (Some (T_DropStmt stmt)) EXEC_ON_ALL_NODES])
  /\ (~ In (removeType stmt)
           [OBJECT_INDEX; OBJECT_TABLE; OBJECT_SEQUENCE; OBJECT_VIEW; OBJECT_MATVIEW;
            OBJECT_FOREIGN_TABLE; OBJECT_RULE; OBJECT_TRIGGER] ->
        trace_of (ExecDropStmt env stmt isTopLevel queryString false)
        = [E_RemoveObjects stmt; sent None EXEC_ON_ALL_NODES]).
Proof.
  intros Hm Hdn Hf1 Hf2 sent. subst sent.
  assert (Hz : (NumDataNodes env =? 0)%Z = false) by (apply Z.eqb_neq; exact Hdn).
  unfold ExecDropStmt, DropStmtPreTreatment, RemoveRelations, RemoveObjects,
    ExecRemoteUtilityStmt, ExecInterXactUtility, call.
  rewrite Hm, Hz, Hf1, Hf2. cbn [negb].
  split; [|split].
  - intros ->. cbn. destruct (fails env _); reflexivity.
  - intros ->. cbn. destruct (fails env _); reflexivity.
  - intros Hk. destruct (removeType stmt); cbn in Hk;
      try (exfalso; apply Hk; tauto);
      cbn; destruct (fails env _); reflexivity.
Qed.

Lemma ExecDropStmt_unchecked_kinds_witness :
  trace_of (ExecDropStmt Cluster.coordinator
              (mkDropStmt [["mv1"]] OBJECT_MATVIEW false false) true
              "DROP MATERIALIZED VIEW mv1" false)
  = [E_RemoveRelations (mkDropStmt [["mv1"]] OBJECT_MATVIEW false false);
     E_ExecInterXactUtility site_ExecRemoteUtilityStmt
       {| sql_node := Some (T_DropStmt (mkDropStmt [["mv1"]] OBJECT_MATVIEW false false));
          combine_type := COMBINE_TYPE_SAME; exec_nodes := None;
          sql_statement := "DROP MATERIALIZED VIEW mv1"; rq_force_autocommit := false;
          rq_exec_type := EXEC_ON_COORDS; rq_is_temp := false |}].
Proof.
  apply (proj1 (ExecDropStmt_unchecked_kinds Cluster.coordinator
                  (mkDropStmt [["mv1"]] OBJECT_MATVIEW false false) true
                  "DROP MATERIALIZED VIEW mv1" eq_refl
                  ltac:(discriminate) eq_refl eq_refl)).
  reflexivity.
Defined.

(* ------------------------------------------------------------------ *)
(** ** The entry checks of the dispatcher *)

Lemma entry_lock_trace (env : Env) (parsetree : Node) (queryString : string) :
  forall ev, In ev (trace_of (entry_lock env parsetree queryString)) ->
             ev = E_pgxc_lock_for_utility_stmt parsetree.
Proof.
  unfold entry_lock.
  destruct (IsCoordMaster env && IsNormalProcessingMode env); [|intros ev []].
  destruct (negb (IsStmtAllowedInLockedMode parsetree queryString)); [|intros ev []].
  intros ev [<-|[]]. reflexivity.
Qed.

Lemma entry_lock_outcome (env : Env) (parsetree : Node) (queryString : string) :
  fails env (E_pgxc_lock_for_utility_stmt parsetree) = None ->
  outcome_of (entry_lock env parsetree queryString) = Ok tt.
Proof.
  intros Hf. unfold entry_lock, call.
  destruct (IsCoordMaster env && IsNormalProcessingMode env); [|reflexivity].
  destruct (negb (IsStmtAllowedInLockedMode parsetree queryString)); [|reflexivity].
  cbn. rewrite Hf. reflexivity.
Qed.

(** X6.  In a read-only transaction, or during a parallel operation, a
    statement of a kind [check_xact_readonly] lists is refused before any
    handler runs: the dispatcher raises, having called nothing but, at most,
    the cluster lock.  When that lock is granted the error is
    "cannot execute <tag> in a read-only transaction" in a read-only
    transaction, and "cannot execute <tag> during a parallel operation"
    otherwise, with the tag of the statement. *)
Theorem read_only_transaction_refuses (env : Env) (rec : ProcessUtility_type)
    (parsetree : Node) (queryString : string) (context : ProcessUtilityContext)
    (sentToRemote : bool) (completionTag : option string) :
  XactReadOnly env = true \/ IsInParallelMode env = true ->
  read_only_sensitive parsetree = true ->
  let run :=
    standard_ProcessUtility env rec parsetree queryString context sentToRemote
      completionTag in
  (forall ev, In ev (trace_of run) -> ev = E_pgxc_lock_for_utility_stmt parsetree)
  /\ (exists err, outcome_of run = Raise err)
  /\ (fails env (E_pgxc_lock_for_utility_stmt parsetree) = None ->
      outcome_of run
      = Raise
          (if XactReadOnly env
           then mkError ERRCODE_READ_ONLY_SQL_TRANSACTION
                  ("cannot execute " ++ CreateCommandTag parsetree
                   ++ " in a read-only transaction")
           else mkError ERRCODE_INVALID_TRANSACTION_STATE
                  ("cannot execute " ++ CreateCommandTag parsetree
                   ++ " during a parallel operation"))).
Proof.
  intros Hmode Hkind run.
  assert (Hcheck : exists err,
            check_xact_readonly env parsetree = ([], Raise err)
            /\ err = if XactReadOnly env
                     then mkError ERRCODE_READ_ONLY_SQL_TRANSACTION
                            ("cannot execute " ++ CreateCommandTag parsetree
                             ++ " in a read-only transaction")
                     else mkError ERRCODE_INVALID_TRANSACTION_STATE
                            ("cannot execute " ++ CreateCommandTag parsetree
                             ++ " during a parallel operation")).
  { unfold check_xact_readonly, PreventCommandIfReadOnly, PreventCommandIfParallelMode.
    destruct (XactReadOnly env) eqn:Hro.
    - cbn [negb andb]. destruct parsetree; try discriminate Hkind;
        eexists; split; reflexivity.
    - destruct Hmode as [Hmode|Hmode]; [discriminate|]. rewrite Hmode. cbn [negb andb].
      destruct parsetree; try discriminate Hkind; eexists; split; reflexivity. }
  destruct Hcheck as [err [Hcheck Herr]].
  assert (Hrun : run = (entry_lock env parsetree queryString ;; raise err)).
  { subst run. unfold standard_ProcessUtility. fold (entry_lock env parsetree queryString).
    rewrite Hcheck. apply bind_ext. intros _. reflexivity. }
  rewrite Hrun. split; [|split].
  - intros ev. rewrite trace_bind.
    destruct (outcome_of (entry_lock env parsetree queryString));
      cbn [trace_of raise fst]; rewrite app_nil_r; apply entry_lock_trace.
  - rewrite outcome_bind.
    destruct (outcome_of (entry_lock env parsetree queryString)) as [[]|e|] eqn:Hl.
    + eexists; reflexivity.
    + eexists; reflexivity.
    + exfalso. unfold entry_lock, call in Hl.
      destruct (IsCoordMaster env && IsNormalProcessingMode env); [|discriminate].
      destruct (negb (IsStmtAllowedInLockedMode parsetree queryString)); [|discriminate].
      cbn in Hl. destruct (fails env _); discriminate.
  - intros Hf. rewrite outcome_bind, (entry_lock_outcome env parsetree queryString Hf).
    rewrite <- Herr. reflexivity.
Qed.

Lemma read_only_transaction_refuses_witness :
  outcome_of
    (standard_ProcessUtility (Session.read_only Cluster.coordinator)
       (ProcessUtility (Session.read_only Cluster.coordinator) 0)
       (T_DropStmt (Cluster.drop_tables ["t_perm"] false)) "DROP TABLE t_perm"
       PROCESS_UTILITY_TOPLEVEL false None)
  = Raise (mkError ERRCODE_READ_ONLY_SQL_TRANSACTION
             "cannot execute DROP TABLE in a read-only transaction").
Proof.
  apply (proj2 (proj2 (read_only_transaction_refuses
                         (Session.read_only Cluster.coordinator)
                         (ProcessUtility (Session.read_only Cluster.coordinator) 0)
                         (T_DropStmt (Cluster.drop_tables ["t_perm"] false))
                         "DROP TABLE t_perm" PROCESS_UTILITY_TOPLEVEL false None
                         (or_introl eq_refl) eq_refl))).
  reflexivity.
Defined.

(** X7.  On the coordinating entry point in normal processing mode, a
    statement that may not run while the cluster is locked for backup takes
    the cluster lock before anything else; when the lock is refused nothing
    else happens and the refusal is the error of the call.  Transaction
    statements and remote-execution nodes never take it. *)
Theorem cluster_lock_comes_first (env : Env) (rec : ProcessUtility_type)
    (parsetree : Node) (queryString : string) (context : ProcessUtilityContext)
    (sentToRemote : bool) (completionTag : option string) :
  let run :=
    standard_ProcessUtility env rec parsetree queryString context sentToRemote
      completionTag in
  (IsCoordMaster env = true -> IsNormalProcessingMode env = true ->
   IsStmtAllowedInLockedMode parsetree queryString = false ->
   (exists rest, trace_of run = E_pgxc_lock_for_utility_stmt parsetree :: rest)
   /\ (forall err, fails env (E_pgxc_lock_for_utility_stmt parsetree) = Some err ->
                   run = ([E_pgxc_lock_for_utility_stmt parsetree], Raise err)))
  /\ (read_only_sensitive parsetree = false ->
      count is_cluster_lock (trace_of run) = 0).
Proof.
  intros run. split.
  - intros Hm Hn Ha. subst run. unfold standard_ProcessUtility.
    rewrite Hm, Hn, Ha. cbn [andb negb]. rewrite !when_true. split.
    + rewrite trace_bind, trace_call. eexists. reflexivity.
    + intros err Hf. unfold call. rewrite Hf. reflexivity.
  - intros Hk. subst run. change (silent is_cluster_lock
      (standard_ProcessUtility env rec parsetree queryString context sentToRemote
         completionTag)).
    unfold standard_ProcessUtility.
    destruct parsetree; try discriminate Hk; cbn [IsStmtAllowedInLockedMode negb];
      rewrite !when_false; silent_run plain_leaf.
Qed.

Lemma cluster_lock_comes_first_witness :
  standard_ProcessUtility
    (Cluster.cluster true 2 false true
       (fun ev => if is_cluster_lock ev then Some (elog_ERROR "cluster is locked") else None))
    (ProcessUtility Cluster.coordinator 0)
    (T_CreateRoleStmt "r") "CREATE ROLE r" PROCESS_UTILITY_TOPLEVEL false None
  = ([E_pgxc_lock_for_utility_stmt (T_CreateRoleStmt "r")],
     Raise (elog_ERROR "cluster is locked")).
Proof.
  apply (proj1 (cluster_lock_comes_first
                  (Cluster.cluster true 2 false true
                     (fun ev => if is_cluster_lock ev
                                then Some (elog_ERROR "cluster is locked") else None))
                  (ProcessUtility Cluster.coordinator 0)
                  (T_CreateRoleStmt "r") "CREATE ROLE r" PROCESS_UTILITY_TOPLEVEL
                  false None) eq_refl eq_refl eq_refl).
  reflexivity.
Defined.




(* ------------------------------------------------------------------ *)
(** ** ALTER TABLE *)

Lemma IsAlterTableStmtRedistribution_spec (atstmt : AlterTableStmt) :
  IsAlterTableStmtRedistribution atstmt = true
  <-> Forall changes_node_list_only (cmds atstmt).
Proof.
  unfold IsAlterTableStmtRedistribution, changes_node_list_only.
  rewrite forallb_forall, Forall_forall.
  split; intros H cmd Hin; specialize (H cmd Hin);
    destruct (subtype cmd); simpl in *; try discriminate; try reflexivity; auto;
    intuition discriminate.
Qed.

(** X9.  The statements ALTER TABLE executes.  They are the expansion
    alone when the statement arrives already forwarded, when its relation
    cannot be found, or when the resolver places the relation as temporary.
    Otherwise a remote-execution node for the statement is added: for
    COORDINATORS only when the statement is an ALTER TABLE whose sub-commands
    all change nothing but the node list of the table, and else for the
    placement the resolver answers. *)
Theorem AlterTable_stmts_remote_node (env : Env) (parsetree : Node)
    (atstmt : AlterTableStmt) (queryString : string) (relid : Oid) :
  let expansion := transformAlterTableStmt_result env relid atstmt in
  let named := RangeVarGetRelid env (at_relation atstmt) in
  AlterTable_stmts env parsetree atstmt queryString true relid = ret expansion
  /\ (OidIsValid named = false ->
      AlterTable_stmts env parsetree atstmt queryString false relid = ret expansion)
  /\ (forall exec_type,
        OidIsValid named = true ->
        ExecUtilityFindNodes env (relkind atstmt) named = inr (exec_type, true) ->
        AlterTable_stmts env parsetree atstmt queryString false relid = ret expansion)
  /\ (forall exec_type,
        OidIsValid named = true ->
        ExecUtilityFindNodes env (relkind atstmt) named = inr (exec_type, false) ->
        relkind atstmt = OBJECT_TABLE ->
        Forall changes_node_list_only (cmds atstmt) ->
        AlterTable_stmts env parsetree atstmt queryString false relid
        = ret (AddRemoteParseTree env expansion queryString parsetree
                 EXEC_ON_COORDS false))
  /\ (forall exec_type,
        OidIsValid named = true ->
        ExecUtilityFindNodes env (relkind atstmt) named = inr (exec_type, false) ->
        relkind atstmt <> OBJECT_TABLE
        \/ ~ Forall changes_node_list_only (cmds atstmt) ->
        AlterTable_stmts env parsetree atstmt queryString false relid
        = ret (AddRemoteParseTree env expansion queryString parsetree
                 exec_type false)).
Proof.
  intros expansion named. subst expansion named. unfold AlterTable_stmts.
  cbn [negb]. split; [reflexivity|]. split; [intros ->; reflexivity|].
  split; [intros exec_type -> ->; reflexivity|]. split.
  - intros exec_type -> -> -> Hcmds. msimpl.
    apply IsAlterTableStmtRedistribution_spec in Hcmds. rewrite Hcmds. reflexivity.
  - intros exec_type -> -> Hnot. msimpl.
    destruct Hnot as [Hk|Hcmds].
    + destruct (relkind atstmt); try congruence; reflexivity.
    + destruct (IsAlterTableStmtRedistribution atstmt) eqn:Hr.
      * exfalso. apply Hcmds. apply IsAlterTableStmtRedistribution_spec. exact Hr.
      * rewrite andb_false_r. reflexivity.
Qed.

(* ------------------------------------------------------------------ *)
(** ** CREATE TABLE: the scan of the expansion *)

Ltac msimpl_in H :=
  repeat (rewrite ?bind_ret_l, ?bind_raise_l, ?when_true, ?when_false,
            ?lift_inr, ?lift_inl in H; cbn [negb andb orb Bool.eqb] in H).

Lemma CreateStmt_scan_later (stmts : list Node) :
  forall is_temp b,
    outcome_of (CreateStmt_scan stmts false is_temp) = Ok b ->
    b = is_temp
    /\ scanned b stmts
    /\ (is_temp = false ->
        Forall (fun s => match s with T_CreateForeignTableStmt _ => False | _ => True end)
          stmts).
Proof.
  unfold scanned.
  induction stmts as [|s rest IH]; intros is_temp b H.
  - cbn in H. inversion H. repeat split; constructor.
  - destruct s as [ts|cs|fs|ats|ixs|css|ass|ds|role|step]; cbn [CreateStmt_scan] in H;
      try (destruct (IH is_temp b H) as (Hb & Hs & Hf);
           repeat split; [exact Hb | constructor; [exact I | exact Hs]
                         | intros Ht; constructor; [exact I | exact (Hf Ht)]]).
    + fold (is_object_temp cs) in H.
      destruct (is_object_temp cs) eqn:Ht; destruct (distributeby cs) eqn:Hd;
        destruct is_temp; msimpl_in H; try discriminate H;
        destruct (IH _ b H) as (Hb & Hs & Hf); subst b;
        (split; [reflexivity|]);
        (split;
         [ constructor; [split; [assumption | intros; congruence] | exact Hs]
         | intros Hx; first [discriminate Hx | constructor; [exact I | exact (Hf Hx)]] ]).
    + destruct is_temp; msimpl_in H; try discriminate H.
      destruct (IH _ b H) as (Hb & Hs & Hf); subst b.
      split; [reflexivity|]. split; [constructor; [exact I | exact Hs] | discriminate].
Qed.

(** X10.  The scan of the expansion of CREATE TABLE on the coordinating
    entry point.  When it returns, every CREATE TABLE of the expansion asks
    for a temporary table exactly when the answer is "temporary", and no
    temporary one carries a DISTRIBUTE BY clause.  A foreign table that
    follows another table of the expansion is let through only when the
    answer is "temporary".  The scan calls nothing. *)
Theorem CreateStmt_scan_sound (stmts : list Node) (b : bool) :
  outcome_of (CreateStmt_scan stmts true false) = Ok b ->
  scanned b stmts
  /\ (forall before s between f after,
        stmts = before ++ s :: between ++ T_CreateForeignTableStmt f :: after ->
        creates_a_table s = true -> b = true)
  /\ trace_of (CreateStmt_scan stmts true false) = [].
Proof.
  intros H. split; [|split; [|apply CreateStmt_scan_trace]].
  - revert H. unfold scanned.
    induction stmts as [|s rest IH]; intros H; [constructor|].
    destruct s as [ts|cs|fs|ats|ixs|css|ass|ds|role|step]; cbn [CreateStmt_scan] in H;
      try (constructor; [exact I | exact (IH H)]).
    + fold (is_object_temp cs) in H.
      destruct (is_object_temp cs) eqn:Ht; destruct (distributeby cs) eqn:Hd;
        msimpl_in H; try discriminate H;
        destruct (CreateStmt_scan_later rest _ b H) as (Hb & Hs & _); subst b;
        (constructor; [split; [assumption | intros; congruence] | exact Hs]).
    + destruct (CreateStmt_scan_later rest _ b H) as (Hb & Hs & _).
      constructor; [exact I | exact Hs].
  - revert H.
    induction stmts as [|s rest IH]; intros H before s' between f after Heq Hs'.
    + destruct before; discriminate Heq.
    + assert (Hlater : forall t,
                outcome_of (CreateStmt_scan rest false t) = Ok b ->
                In (T_CreateForeignTableStmt f) rest -> b = true).
      { intros t Hrun Hin. destruct (CreateStmt_scan_later rest t b Hrun) as (Hb & _ & Hf).
        destruct t; [exact Hb|]. exfalso.
        rewrite Forall_forall in Hf. exact (Hf eq_refl _ Hin). }
      destruct before as [|s0 before]; cbn in Heq; inversion Heq; subst.
      * (* [s'] is the head *)
        assert (Hin : In (T_CreateForeignTableStmt f)
                        (between ++ T_CreateForeignTableStmt f :: after))
          by (apply in_or_app; right; left; reflexivity).
        destruct s' as [ts|cs|fs|ats|ixs|css|ass|ds|role|step];
          try discriminate Hs'; cbn [CreateStmt_scan] in H.
        -- fold (is_object_temp cs) in H.
           destruct (is_object_temp cs && distributeby cs); msimpl_in H;
             [discriminate H|]. exact (Hlater _ H Hin).
        -- exact (Hlater _ H Hin).
      * (* [s'] comes later *)
        destruct s0 as [ts|cs|fs|ats|ixs|css|ass|ds|role|step];
          cbn [CreateStmt_scan] in H;
          try (exact (IH H before s' between f after eq_refl Hs')).
        -- fold (is_object_temp cs) in H.
           destruct (is_object_temp cs && distributeby cs); msimpl_in H;
             [discriminate H|].
           apply (Hlater _ H). apply in_or_app. right. right.
           apply in_or_app. right. left. reflexivity.
        -- apply (Hlater _ H). apply in_or_app. right. right.
           apply in_or_app. right. left. reflexivity.
Qed.

Lemma CreateStmt_scan_sound_witness :
  scanned true
    [T_CreateSeqStmt (mkCreateSeqStmt (Cluster.rel "s") true);
     T_CreateStmt (mkCreateStmt (mkRangeVar None "t" RELPERSISTENCE_TEMP) [] false)]
  /\ trace_of
       (CreateStmt_scan
          [T_CreateSeqStmt (mkCreateSeqStmt (Cluster.rel "s") true);
           T_CreateStmt (mkCreateStmt (mkRangeVar None "t" RELPERSISTENCE_TEMP) [] false)]
          true false) = [].
Proof.
  destruct (CreateStmt_scan_sound
              [T_CreateSeqStmt (mkCreateSeqStmt (Cluster.rel "s") true);
               T_CreateStmt (mkCreateStmt (mkRangeVar None "t" RELPERSISTENCE_TEMP) []
                               false)]
              true eq_refl) as (Hs & _ & Ht).
  split; assumption.
Defined.

(** X11.  Creating a temporary table sends nothing.  On the coordinating
    entry point, when the scan of the expansion answers "temporary", no
    remote-execution node is added for the statement, and the sub-statements
    are processed as already forwarded: the transport is never called,
    whether or not the statement itself arrived forwarded and however deep the
    sub-statements go. *)
Theorem temporary_table_is_created_locally (env : Env) (fuel : nat)
    (parsetree : Node) (cstmt : CreateStmt) (queryString : string)
    (sentToRemote : bool) (secondaryObject : ObjectAddress) :
  expansions_local env ->
  IsCoordMaster env = true ->
  outcome_of (CreateStmt_scan (fst (transformCreateStmt_result env cstmt)) true false)
  = Ok true ->
  CreateStmt_stmts env parsetree cstmt queryString sentToRemote true
  = fst (transformCreateStmt_result env cstmt)
  /\ count is_transport
       (trace_of (Slow_CreateStmt env (ProcessUtility env fuel) parsetree cstmt
                    queryString sentToRemote secondaryObject)) = 0.
Proof.
  intros Hlocal Hm Hscan.
  assert (Hlist : CreateStmt_stmts env parsetree cstmt queryString sentToRemote true
                  = fst (transformCreateStmt_result env cstmt)).
  { unfold CreateStmt_stmts. destruct (transformCreateStmt_result env cstmt).
    rewrite andb_false_r. reflexivity. }
  split; [exact Hlist|].
  change (silent is_transport
            (Slow_CreateStmt env (ProcessUtility env fuel) parsetree cstmt queryString
               sentToRemote secondaryObject)).
  unfold Slow_CreateStmt. rewrite Hm.
  apply silent_bind; [apply silent_call; reflexivity | intros _].
  apply silent_bind_ok; [apply silent_of_nil, CreateStmt_scan_trace|].
  intros is_temp Hok. rewrite Hscan in Hok. inversion Hok; subst is_temp.
  rewrite Hlist.
  apply silent_foreach_between_In; [|apply silent_call; reflexivity].
  intros x Hx. pose proof (proj1 Hlocal cstmt x Hx) as Hrq.
  destruct x; try discriminate Hrq; unfold CreateStmt_do;
    try (apply silent_bind; [apply ProcessUtility_local; assumption
                            | intros; apply silent_ret]);
    silent_run plain_leaf.
Qed.

Lemma temporary_table_is_created_locally_witness :
  count is_transport
    (trace_of
       (Slow_CreateStmt Cluster.coordinator (ProcessUtility Cluster.coordinator 2)
          (T_CreateStmt (mkCreateStmt (mkRangeVar None "t" RELPERSISTENCE_TEMP) [] false))
          (mkCreateStmt (mkRangeVar None "t" RELPERSISTENCE_TEMP) [] false)
          "CREATE TEMP TABLE t ()" false InvalidObjectAddress)) = 0.
Proof.
  apply (temporary_table_is_created_locally Cluster.coordinator 2
           (T_CreateStmt (mkCreateStmt (mkRangeVar None "t" RELPERSISTENCE_TEMP) [] false))
           (mkCreateStmt (mkRangeVar None "t" RELPERSISTENCE_TEMP) [] false)
           "CREATE TEMP TABLE t ()" false InvalidObjectAddress).
  - split.
    + intros cstmt s. unfold Cluster.coordinator, Cluster.cluster, Cluster.expansion.
      cbn [transformCreateStmt_result].
      destruct (String.eqb (relname (relation cstmt)) "t_serial"); cbn [fst];
        intros Hin; repeat (destruct Hin as [<-|Hin]; [reflexivity|]); destruct Hin.
    + intros relid atstmt s [<-|[]]. reflexivity.
  - reflexivity.
  - reflexivity.
Defined.

(* ------------------------------------------------------------------ *)
(** ** Transaction statements *)

Lemma foreach_calls (env : Env) {A} (l : list A) (keep : A -> bool) (ev : A -> Event) :
  (forall x, In x l -> keep x = true -> fails env (ev x) = None) ->
  foreach l (fun x => if keep x then call env (ev x) else ret tt)
  = (map ev (filter keep l), Ok tt).
Proof.
  induction l as [|x rest IH]; intros Hf; [reflexivity|].
  cbn [foreach filter]. rewrite IH by (intros y Hy; apply Hf; right; exact Hy).
  destruct (keep x) eqn:Hk; [|reflexivity].
  unfold call. rewrite (Hf x (or_introl eq_refl) Hk). reflexivity.
Qed.

(** X12.  BEGIN and START TRANSACTION open the transaction block and then
    set, in the order written, each of the options transaction_isolation,
    transaction_read_only and transaction_deferrable to the value given;
    every other option is passed over.  (When no call is refused.) *)
Theorem BEGIN_sets_the_transaction_variables (env : Env) (stmt : TransactionStmt)
    (isTopLevel : bool) (completionTag : option string) :
  kind stmt = TRANS_STMT_BEGIN \/ kind stmt = TRANS_STMT_START ->
  fails env E_BeginTransactionBlock = None ->
  (forall item, In item (options stmt) ->
                fails env (E_SetPGVariable (defname item) (arg item)) = None) ->
  ExecTransactionStmt env stmt isTopLevel completionTag
  = (E_BeginTransactionBlock
       :: map (fun item => E_SetPGVariable (defname item) (arg item))
            (filter is_transaction_variable (options stmt)),
     Ok completionTag).
Proof.
  intros Hk Hb Hf.
  assert (Hloop :
    foreach (options stmt) (fun item =>
      if String.eqb (defname item) "transaction_isolation" then
        call env (E_SetPGVariable "transaction_isolation" (arg item))
      else if String.eqb (defname item) "transaction_read_only" then
        call env (E_SetPGVariable "transaction_read_only" (arg item))
      else if String.eqb (defname item) "transaction_deferrable" then
        call env (E_SetPGVariable "transaction_deferrable" (arg item))
      else ret tt)
    = foreach (options stmt) (fun item =>
        if is_transaction_variable item
        then call env (E_SetPGVariable (defname item) (arg item)) else ret tt)).
  { clear. induction (options stmt) as [|item rest IH]; [reflexivity|].
    cbn [foreach]. rewrite IH. f_equal. unfold is_transaction_variable.
    destruct (String.eqb_spec (defname item) "transaction_isolation") as [->|];
      [reflexivity|].
    destruct (String.eqb_spec (defname item) "transaction_read_only") as [->|];
      [reflexivity|].
    destruct (String.eqb_spec (defname item) "transaction_deferrable") as [->|];
      reflexivity. }
  unfold ExecTransactionStmt.
  destruct Hk as [-> | ->]; rewrite Hloop, foreach_calls by (intros; auto);
    unfold call; rewrite Hb; cbn; rewrite app_nil_r; reflexivity.
Qed.

Lemma BEGIN_sets_the_transaction_variables_witness :
  ExecTransactionStmt Cluster.coordinator
    (mkTransactionStmt TRANS_STMT_BEGIN
       [mkDefElem "transaction_read_only" "true"; mkDefElem "least_xid_is" "700";
        mkDefElem "transaction_isolation" "serializable"] "" false)
    true None
  = ([E_BeginTransactionBlock;
      E_SetPGVariable "transaction_read_only" "true";
      E_SetPGVariable "transaction_isolation" "serializable"], Ok None).
Proof.
  apply (BEGIN_sets_the_transaction_variables Cluster.coordinator
           (mkTransactionStmt TRANS_STMT_BEGIN
              [mkDefElem "transaction_read_only" "true"; mkDefElem "least_xid_is" "700";
               mkDefElem "transaction_isolation" "serializable"] "" false)
           true None (or_introl eq_refl) eq_refl).
  reflexivity.
Defined.

(** X13.  Prepared transactions.  During recovery PREPARE TRANSACTION,
    COMMIT PREPARED and ROLLBACK PREPARED are refused before the transaction
    manager is called.  What COMMIT PREPARED and ROLLBACK PREPARED call is
    always a beginning of the sequence: set the session to phase 2, finish
    the prepared transaction, set the session back to phase 1; the whole of
    it when the statement returns.  When finishing raises, the handler does
    not set the session back to phase 1. *)
Theorem prepared_transaction_phases (env : Env) (stmt : TransactionStmt)
    (isTopLevel : bool) (completionTag : option string) :
  let run := ExecTransactionStmt env stmt isTopLevel completionTag in
  let finish isCommit :=
    E_FinishPreparedTransactionExt (gid stmt) isCommit (trans_missing_ok stmt) in
  (In (kind stmt)
      [TRANS_STMT_PREPARE; TRANS_STMT_COMMIT_PREPARED; TRANS_STMT_ROLLBACK_PREPARED] ->
   RecoveryInProgress env = true ->
   trace_of run = [] /\ exists err, outcome_of run = Raise err)
  /\ (forall isCommit : bool,
        kind stmt = (if isCommit then TRANS_STMT_COMMIT_PREPARED
                     else TRANS_STMT_ROLLBACK_PREPARED) ->
        (exists n,
           trace_of run
           = firstn n [E_SetCurrentXactPhase2; finish isCommit; E_SetCurrentXactPhase1])
        /\ (forall err, fails env (finish isCommit) = Some err ->
                        ~ In E_SetCurrentXactPhase1 (trace_of run))
        /\ (outcome_of run = Ok completionTag ->
            trace_of run
            = [E_SetCurrentXactPhase2; finish isCommit; E_SetCurrentXactPhase1])).
Proof.
  intros run finish. subst run finish. unfold ExecTransactionStmt. split.
  - intros Hk Hrec.
    unfold PreventCommandDuringRecovery, PreventTransactionChain. rewrite Hrec.
    destruct Hk as [<-|[<-|[<-|[]]]]; cbn [when];
      try destruct (IsTransactionBlock env); cbn; eauto.
  - intros isCommit Hk. rewrite Hk.
    unfold PreventCommandDuringRecovery, PreventTransactionChain, call.
    destruct isCommit; cbv iota;
      destruct (IsTransactionBlock env); destruct (RecoveryInProgress env);
      destruct (fails env E_SetCurrentXactPhase2);
      destruct (fails env (E_FinishPreparedTransactionExt _ _ _));
      destruct (fails env E_SetCurrentXactPhase1); cbn;
      (split; [first [exists 0; reflexivity | exists 1; reflexivity
                     | exists 2; reflexivity | exists 3; reflexivity]|]);
      (split; [intros err Herr; try discriminate Herr; intros Hin;
               repeat (destruct Hin as [Hin|Hin]; [discriminate Hin|]); exact Hin|]);
      intros Hok; try discriminate Hok; reflexivity.
Qed.

Lemma prepared_transaction_phases_witness :
  trace_of
    (ExecTransactionStmt (Session.in_recovery Cluster.coordinator)
       (mkTransactionStmt TRANS_STMT_COMMIT_PREPARED [] "gid1" false) true None) = []
  /\ exists err,
       outcome_of
         (ExecTransactionStmt (Session.in_recovery Cluster.coordinator)
            (mkTransactionStmt TRANS_STMT_COMMIT_PREPARED [] "gid1" false) true None)
       = Raise err.
Proof.
  apply (proj1 (prepared_transaction_phases (Session.in_recovery Cluster.coordinator)
                  (mkTransactionStmt TRANS_STMT_COMMIT_PREPARED [] "gid1" false)
                  true None)).
  - simpl; auto.
  - reflexivity.
Defined.

(* ------------------------------------------------------------------ *)
(** ** CREATE INDEX and sequences *)

(** A part that sends nothing, followed by a dispatch. *)
Lemma local_then_dispatch (env : Env) {A} (m : M A) (c : A -> bool)
    (context : A -> RemoteUtilityContext) :
  silent is_transport m ->
  let run := a <- m ;; when (c a) (ExecRemoteUtilityStmt env (context a)) in
  count is_transport (trace_of run) = 0
  \/ exists a,
       outcome_of m = Ok a /\ c a = true
       /\ trace_of run
          = trace_of m
            ++ [E_ExecInterXactUtility site_ExecRemoteUtilityStmt
                  {| sql_node := stmt (context a);
                     combine_type := COMBINE_TYPE_SAME;
                     exec_nodes := nodes (context a);
                     sql_statement := query (context a);
                     rq_force_autocommit := force_autocommit (context a);
                     rq_exec_type := exec_type (context a);
                     rq_is_temp := is_temp (context a) |}].
Proof.
  intros Hm run. subst run. rewrite trace_bind.
  destruct (outcome_of m) as [a|e|] eqn:Ha;
    [|left; rewrite app_nil_r; exact Hm|left; rewrite app_nil_r; exact Hm].
  destruct (c a) eqn:Hc; [|left; rewrite app_nil_r; exact Hm].
  cbn [when]. unfold ExecRemoteUtilityStmt, ExecInterXactUtility, call.
  destruct (negb (IsCoordMaster env)); [left; rewrite app_nil_r; exact Hm|].
  destruct (RemoteQueryExecType_beq _ _); [left; rewrite app_nil_r; exact Hm|].
  destruct (sentToRemote (context a)); [left; rewrite app_nil_r; exact Hm|].
  destruct (NumDataNodes env =? 0)%Z; [left; rewrite app_nil_r; exact Hm|].
  msimpl. right. exists a. auto.
Qed.

Lemma bind_assoc {A B C} (m : M A) (f : A -> M B) (g : B -> M C) :
  bind (bind m f) g = bind m (fun a => bind (f a) g).
Proof.
  destruct m as [t [a|e|]]; cbn; try reflexivity.
  destruct (f a) as [t1 [b|e|]]; cbn; try reflexivity.
  destruct (g b) as [t2 r]. rewrite app_assoc. reflexivity.
Qed.

Lemma Slow_IndexStmt_split (env : Env) (parsetree : Node) (istmt : IndexStmt)
    (isTopLevel : bool) (secondaryObject : ObjectAddress)
    (utilityContext : RemoteUtilityContext) :
  Slow_IndexStmt env parsetree istmt isTopLevel secondaryObject utilityContext
  = (placement <- IndexStmt_local env parsetree istmt isTopLevel secondaryObject ;;
     let analysed :=
       transformIndexStmt_result env
         (RangeVarGetRelidExtended_result env (idx_relation istmt)) istmt in
     when (negb (isconstraint analysed) && negb (snd placement))
       (ExecRemoteUtilityStmt env
          (set_stmt (T_IndexStmt analysed)
             (set_is_temp (snd placement)
                (set_exec_type (fst placement)
                   (set_force_autocommit (idx_concurrent analysed) utilityContext)))))).
Proof.
  unfold Slow_IndexStmt, IndexStmt_local.
  repeat (first [ rewrite bind_assoc; apply bind_ext; intros
                | match goal with a : (_ * _)%type |- _ => destruct a end ]).
  rewrite bind_ret_l. reflexivity.
Qed.
Lemma IndexStmt_local_silent (env : Env) (parsetree : Node) (istmt : IndexStmt)
    (isTopLevel : bool) (secondaryObject : ObjectAddress) :
  silent is_transport (IndexStmt_local env parsetree istmt isTopLevel secondaryObject).
Proof. unfold IndexStmt_local. silent_run plain_leaf. Qed.

(** A call that is followed by a normal return was not refused. *)
Lemma call_bind_ok (env : Env) {A} (ev : Event) (k : M A) (a : A) :
  outcome_of (call env ev ;; k) = Ok a ->
  fails env ev = None
  /\ outcome_of k = Ok a
  /\ trace_of (call env ev ;; k) = ev :: trace_of k.
Proof.
  rewrite trace_bind, outcome_bind. unfold call. cbn [outcome_of trace_of fst snd].
  destruct (fails env ev); [discriminate|]. auto.
Qed.

(** What the local part has called when it returns. *)
Lemma IndexStmt_local_ok (env : Env) (parsetree : Node) (istmt : IndexStmt)
    (isTopLevel : bool) (secondaryObject : ObjectAddress)
    (placement : RemoteQueryExecType * bool) :
  outcome_of (IndexStmt_local env parsetree istmt isTopLevel secondaryObject)
  = Ok placement ->
  let relid := RangeVarGetRelidExtended_result env (idx_relation istmt) in
  let analysed := transformIndexStmt_result env relid istmt in
  trace_of (IndexStmt_local env parsetree istmt isTopLevel secondaryObject)
  = [E_RangeVarGetRelidExtended (idx_relation istmt);
     E_transformIndexStmt relid istmt;
     E_EventTriggerAlterTableStart parsetree;
     E_DefineIndex relid analysed;
     E_EventTriggerCollectSimpleCommand
       (handler_address env (E_DefineIndex relid analysed)) secondaryObject parsetree;
     E_EventTriggerAlterTableEnd]
  /\ idx_concurrent istmt = false
  /\ (if OidIsValid (RangeVarGetRelid env (idx_relation istmt))
      then ExecUtilityFindNodes env OBJECT_INDEX (RangeVarGetRelid env (idx_relation istmt))
           = inr placement
      else placement = (EXEC_ON_NONE, false)).
Proof.
  intros H. cbv zeta. revert H.
  unfold IndexStmt_local, call_address, EventTriggerCollectSimpleCommand.
  destruct (idx_concurrent istmt); [discriminate|]. msimpl.
  assert (Hplace : forall p,
    (if OidIsValid (RangeVarGetRelid env (idx_relation istmt))
     then lift (ExecUtilityFindNodes env OBJECT_INDEX
                  (RangeVarGetRelid env (idx_relation istmt)))
     else ret (EXEC_ON_NONE, false)) = ret p ->
    if OidIsValid (RangeVarGetRelid env (idx_relation istmt))
    then ExecUtilityFindNodes env OBJECT_INDEX (RangeVarGetRelid env (idx_relation istmt))
         = inr p
    else p = (EXEC_ON_NONE, false)).
  { intros p. destruct (OidIsValid _).
    - destruct (ExecUtilityFindNodes env OBJECT_INDEX _); [discriminate|].
      intros Hp. inversion Hp. reflexivity.
    - intros Hp. inversion Hp. reflexivity. }
  destruct (if OidIsValid (RangeVarGetRelid env (idx_relation istmt))
            then lift (ExecUtilityFindNodes env OBJECT_INDEX
                         (RangeVarGetRelid env (idx_relation istmt)))
            else ret (EXEC_ON_NONE, false)) as [t0 [[exec_type is_temp]|err|]] eqn:Hfind;
    try discriminate.
  assert (t0 = []) as ->.
  { revert Hfind. destruct (OidIsValid _);
      [destruct (ExecUtilityFindNodes env OBJECT_INDEX _)|]; intros Hp; inversion Hp;
      reflexivity. }
  specialize (Hplace _ eq_refl).
  change (([] : Trace, Ok (exec_type, is_temp))) with (ret (exec_type, is_temp)).
  rewrite !bind_ret_l. intros Hp.
  apply call_bind_ok in Hp. destruct Hp as (_ & Hp & ->).
  apply call_bind_ok in Hp. destruct Hp as (_ & Hp & ->).
  apply call_bind_ok in Hp. destruct Hp as (_ & Hp & ->).
  rewrite bind_assoc in Hp |- *.
  apply call_bind_ok in Hp. destruct Hp as (_ & Hp & ->).
  rewrite bind_ret_l in Hp |- *.
  apply call_bind_ok in Hp. destruct Hp as (_ & Hp & ->).
  apply call_bind_ok in Hp. destruct Hp as (_ & Hp & ->).
  cbn in Hp. inversion Hp; subst placement. auto.
Qed.

(** X14.  CREATE INDEX.  CREATE INDEX CONCURRENTLY is refused before
    anything is looked up or called.  Otherwise the statement is sent at most
    once, as the last thing done, after the index has been defined locally;
    and it is not sent at all when the relation to index cannot be found,
    when the resolver places it as temporary, or when the index, as parse
    analysis returns it, backs a constraint. *)
Theorem CREATE_INDEX_dispatch (env : Env) (parsetree : Node) (istmt : IndexStmt)
    (isTopLevel : bool) (secondaryObject : ObjectAddress)
    (utilityContext : RemoteUtilityContext) :
  let run :=
    Slow_IndexStmt env parsetree istmt isTopLevel secondaryObject utilityContext in
  let relid := RangeVarGetRelid env (idx_relation istmt) in
  let analysed :=
    transformIndexStmt_result env
      (RangeVarGetRelidExtended_result env (idx_relation istmt)) istmt in
  (idx_concurrent istmt = true -> run = ([], Raise ConcurrentIndexNotSupported))
  /\ (count is_transport (trace_of run) = 0
      \/ exists before step,
           trace_of run
           = before ++ [E_EventTriggerAlterTableEnd;
                        E_ExecInterXactUtility site_ExecRemoteUtilityStmt step]
           /\ count is_transport before = 0
           /\ In (E_DefineIndex
                    (RangeVarGetRelidExtended_result env (idx_relation istmt)) analysed)
                before
           /\ sql_node step = Some (T_IndexStmt analysed)
           /\ rq_force_autocommit step = idx_concurrent analysed)
  /\ (OidIsValid relid = false -> count is_transport (trace_of run) = 0)
  /\ (forall exec_type,
        ExecUtilityFindNodes env OBJECT_INDEX relid = inr (exec_type, true) ->
        count is_transport (trace_of run) = 0)
  /\ (isconstraint analysed = true -> count is_transport (trace_of run) = 0).
Proof.
  intros run relid analysed.
  split; [intros Hc; subst run; unfold Slow_IndexStmt; rewrite Hc; reflexivity|].
  subst run. rewrite Slow_IndexStmt_split. cbv zeta. fold analysed.
  destruct (local_then_dispatch env
              (IndexStmt_local env parsetree istmt isTopLevel secondaryObject)
              (fun placement => negb (isconstraint analysed) && negb (snd placement))
              (fun placement =>
                 set_stmt (T_IndexStmt analysed)
                   (set_is_temp (snd placement)
                      (set_exec_type (fst placement)
                         (set_force_autocommit (idx_concurrent analysed)
                            utilityContext))))
              (IndexStmt_local_silent _ _ _ _ _))
    as [Hnone|[placement (Hok & Hc & Hrun)]].
  { split; [left; exact Hnone|]. split; [|split]; intros; exact Hnone. }
  destruct (IndexStmt_local_ok env parsetree istmt isTopLevel secondaryObject placement
              Hok) as (Htrace & _ & Hplace).
  fold relid in Hplace. cbv zeta in Htrace. fold analysed in Htrace.
  apply andb_prop in Hc. destruct Hc as [Hcons Htemp].
  apply negb_true_iff in Hcons. apply negb_true_iff in Htemp.
  split; [|split; [|split]].
  - right. rewrite Hrun, Htrace.
    exists [E_RangeVarGetRelidExtended (idx_relation istmt);
            E_transformIndexStmt
              (RangeVarGetRelidExtended_result env (idx_relation istmt)) istmt;
            E_EventTriggerAlterTableStart parsetree;
            E_DefineIndex (RangeVarGetRelidExtended_result env (idx_relation istmt))
              analysed;
            E_EventTriggerCollectSimpleCommand
              (handler_address env
                 (E_DefineIndex
                    (RangeVarGetRelidExtended_result env (idx_relation istmt)) analysed))
              secondaryObject parsetree].
    eexists. split; [reflexivity|]. split; [reflexivity|].
    split; [simpl; auto|]. split; reflexivity.
  - intros Hv. exfalso. rewrite Hv in Hplace. subst placement.
    revert Hrun. rewrite trace_bind, Hok. cbn [when snd fst negb andb].
    rewrite Hcons. cbn [negb andb when].
    rewrite ExecRemoteUtilityStmt_none by reflexivity.
    intros Hrun. apply (f_equal (@List.length Event)) in Hrun.
    rewrite !length_app in Hrun. cbn in Hrun. lia.
  - intros exec_type Hfind. exfalso.
    destruct (OidIsValid relid).
    + rewrite Hfind in Hplace. inversion Hplace; subst placement. discriminate Htemp.
    + subst placement.
      revert Hrun. rewrite trace_bind, Hok. cbn [when snd fst negb andb].
      rewrite Hcons. cbn [negb andb when].
      rewrite ExecRemoteUtilityStmt_none by reflexivity.
      intros Hrun. apply (f_equal (@List.length Event)) in Hrun.
      rewrite !length_app in Hrun. cbn in Hrun. lia.
  - intros Hcons'. congruence.
Qed.

Lemma bind_ret_r' {A} (m : M A) : (a <- m ;; ret a) = m.
Proof. destruct m as [t [a|e|]]; simpl; rewrite ?app_nil_r; reflexivity. Qed.

(** X15.  Sequences.  A sequence made for a SERIAL column, or a temporary
    one, is created locally and nothing else is done; ALTER SEQUENCE does
    nothing but the local change when it comes from a SERIAL column, when
    the sequence cannot be found, or when it is temporary.  In the other
    cases, on a coordinator that is the entry point, with a data node
    registered and the statement not yet forwarded, the statement is sent to
    all nodes after the local change: CREATE SEQUENCE with the statement
    attached, ALTER SEQUENCE as its query text alone. *)
Theorem sequences_dispatch (env : Env) (utilityContext : RemoteUtilityContext) :
  (forall parsetree sstmt,
     is_serial sstmt = true
     \/ relpersistence (sequence sstmt) = RELPERSISTENCE_TEMP ->
     Slow_CreateSeqStmt env parsetree sstmt utilityContext
     = call_address env (E_DefineSequence sstmt))
  /\ (forall sstmt,
        alt_is_serial sstmt = true
        \/ OidIsValid (RangeVarGetRelid env (alt_sequence sstmt)) = false
        \/ IsTempTable env (RangeVarGetRelid env (alt_sequence sstmt)) = true ->
        Slow_AlterSeqStmt env sstmt utilityContext
        = call_address env (E_AlterSequence sstmt))
  /\ (IS_PGXC_COORDINATOR env = true -> IsCoordMaster env = true ->
      NumDataNodes env <> 0%Z -> sentToRemote utilityContext = false ->
      (forall parsetree sstmt,
         is_serial sstmt = false ->
         relpersistence (sequence sstmt) <> RELPERSISTENCE_TEMP ->
         exec_type utilityContext <> EXEC_ON_NONE ->
         fails env (E_DefineSequence sstmt) = None ->
         trace_of (Slow_CreateSeqStmt env parsetree sstmt utilityContext)
         = [E_DefineSequence sstmt;
            E_ExecInterXactUtility site_ExecRemoteUtilityStmt
              {| sql_node := Some parsetree;
                 combine_type := COMBINE_TYPE_SAME;
                 exec_nodes := nodes utilityContext;
                 sql_statement := query utilityContext;
                 rq_force_autocommit := force_autocommit utilityContext;
                 rq_exec_type := exec_type utilityContext;
                 rq_is_temp := false |}])
      /\ (forall sstmt,
            alt_is_serial sstmt = false ->
            OidIsValid (RangeVarGetRelid env (alt_sequence sstmt)) = true ->
            IsTempTable env (RangeVarGetRelid env (alt_sequence sstmt)) = false ->
            fails env (E_AlterSequence sstmt) = None ->
            trace_of (Slow_AlterSeqStmt env sstmt utilityContext)
            = [E_AlterSequence sstmt;
               E_ExecInterXactUtility site_ExecRemoteUtilityStmt
                 {| sql_node := stmt utilityContext;
                    combine_type := COMBINE_TYPE_SAME;
                    exec_nodes := nodes utilityContext;
                    sql_statement := query utilityContext;
                    rq_force_autocommit := force_autocommit utilityContext;
                    rq_exec_type := EXEC_ON_ALL_NODES;
                    rq_is_temp := false |}])).
Proof.
  split; [|split].
  - intros parsetree sstmt Hwhy. unfold Slow_CreateSeqStmt.
    assert (negb (is_serial sstmt)
            && negb (Ascii.eqb (relpersistence (sequence sstmt)) RELPERSISTENCE_TEMP)
            = false) as ->.
    { destruct Hwhy as [-> | ->]; [reflexivity|].
      rewrite Ascii.eqb_refl. apply andb_false_r. }
    rewrite when_false. destruct (IS_PGXC_COORDINATOR env); msimpl; apply bind_ret_r'.
  - intros sstmt Hwhy. unfold Slow_AlterSeqStmt, ExecUtilityFindNodes.
    destruct (IS_PGXC_COORDINATOR env); msimpl; [|apply bind_ret_r'].
    destruct (alt_is_serial sstmt); msimpl; [apply bind_ret_r'|].
    destruct (OidIsValid (RangeVarGetRelid env (alt_sequence sstmt)));
      msimpl; [|apply bind_ret_r'].
    destruct Hwhy as [Hwhy|[Hwhy| ->]]; try discriminate Hwhy.
    msimpl. apply bind_ret_r'.
  - intros Hc Hm Hdn Hs. split.
    + intros parsetree sstmt Hser Htemp Hne Hf.
      unfold Slow_CreateSeqStmt, call_address. rewrite Hc, Hser.
      apply Ascii.eqb_neq in Htemp. rewrite Htemp. msimpl.
      rewrite ExecRemoteUtilityStmt_sends by assumption.
      unfold call. rewrite Hf. cbn.
      destruct (fails env (E_ExecInterXactUtility _ _)); reflexivity.
    + intros sstmt Hser Hv Htemp Hf.
      unfold Slow_AlterSeqStmt, call_address, ExecUtilityFindNodes.
      rewrite Hc, Hser, Hv, Htemp. msimpl.
      rewrite ExecRemoteUtilityStmt_sends by (try assumption; discriminate).
      unfold call. rewrite Hf. cbn.
      destruct (fails env (E_ExecInterXactUtility _ _)); reflexivity.
Qed.

(* ------------------------------------------------------------------ *)
(** ** Event triggers *)

Section Triggers.

Variable env : Env.
Variable ProcessUtility_rec : ProcessUtility_type.

Hypothesis rec_silent :
  forall parsetree queryString sentToRemote completionTag,
    silent is_ddl_trigger
      (ProcessUtility_rec parsetree queryString PROCESS_UTILITY_SUBCOMMAND
         sentToRemote completionTag).

Ltac trigger_leaf :=
  idtac;
  lazymatch goal with
  | |- silent _ (ExecRemoteUtilityStmt _ _) =>
      unfold ExecRemoteUtilityStmt, ExecInterXactUtility
  | |- silent _ _ => solve [auto]
  | |- _ = false => reflexivity
  end.

Lemma Slow_switch_fires_no_trigger parsetree queryString isTopLevel sentToRemote
    secondaryObject utilityContext :
  silent is_ddl_trigger
    (Slow_switch env ProcessUtility_rec parsetree queryString isTopLevel sentToRemote
       secondaryObject utilityContext).
Proof. silent_run trigger_leaf. Qed.

Lemma standard_ProcessUtility_sub_fires_no_trigger parsetree queryString sentToRemote
    completionTag :
  silent is_ddl_trigger
    (standard_ProcessUtility env ProcessUtility_rec parsetree queryString
       PROCESS_UTILITY_SUBCOMMAND sentToRemote completionTag).
Proof.
  assert (Hslow : forall parsetree,
    silent is_ddl_trigger
      (ProcessUtilitySlow env ProcessUtility_rec parsetree queryString
         PROCESS_UTILITY_SUBCOMMAND sentToRemote
         (strcpy_completionTag completionTag ""))).
  { intros p. unfold ProcessUtilitySlow, ProcessUtilitySlow_try.
    change (isCompleteQuery_of PROCESS_UTILITY_SUBCOMMAND) with false.
    cbv iota. rewrite bind_ret_l. rewrite !when_false.
    apply silent_bind; [|intros; apply silent_ret].
    apply silent_PG_TRY; [|apply silent_ret].
    apply silent_bind; [apply silent_ret|intros _].
    apply silent_bind; [apply Slow_switch_fires_no_trigger|intros [collected address]].
    apply silent_bind; [|intros; apply silent_ret].
    apply silent_when. unfold EventTriggerCollectSimpleCommand.
    apply silent_call. reflexivity. }
  unfold standard_ProcessUtility.
  repeat (silent_step trigger_leaf); try (apply Hslow); silent_run trigger_leaf.
Qed.

End Triggers.

Lemma ProcessUtility_sub_fires_no_trigger (env : Env) (fuel : nat) :
  forall parsetree queryString sentToRemote completionTag,
    silent is_ddl_trigger
      (ProcessUtility env fuel parsetree queryString PROCESS_UTILITY_SUBCOMMAND
         sentToRemote completionTag).
Proof.
  induction fuel as [|fuel IH]; intros parsetree queryString sentToRemote completionTag.
  - reflexivity.
  - cbn [ProcessUtility]. apply standard_ProcessUtility_sub_fires_no_trigger. exact IH.
Qed.

(** X16.  Event triggers.  A statement processed as a sub-command fires no
    ddl_command_start, sql_drop or ddl_command_end trigger, at any depth of
    its own sub-statements.  The guarded block of a complete query fires
    ddl_command_start for the statement before anything else and, when it
    returns, has fired sql_drop and then ddl_command_end for it as its last
    two calls.  A DROP of an object kind without event-trigger support calls
    the change-notification collaborator not at all. *)
Theorem ddl_triggers_bracket_complete_queries (env : Env) :
  (forall fuel parsetree queryString sentToRemote completionTag,
     count is_ddl_trigger
       (trace_of (ProcessUtility env fuel parsetree queryString
                    PROCESS_UTILITY_SUBCOMMAND sentToRemote completionTag)) = 0)
  /\ (forall rec parsetree queryString isTopLevel sentToRemote secondaryObject
             utilityContext,
        let block :=
          ProcessUtilitySlow_try env rec parsetree queryString isTopLevel true
            sentToRemote secondaryObject utilityContext in
        (exists rest, trace_of block = E_EventTriggerDDLCommandStart parsetree :: rest)
        /\ (outcome_of block = Ok tt ->
            exists before,
              trace_of block
              = before ++ [E_EventTriggerSQLDrop parsetree;
                           E_EventTriggerDDLCommandEnd parsetree]))
  /\ (forall rec stmt queryString context sentToRemote completionTag,
        EventTriggerSupportsObjectType env (removeType stmt) = false ->
        count is_event_trigger
          (trace_of (standard_ProcessUtility env rec (T_DropStmt stmt) queryString
                       context sentToRemote completionTag)) = 0).
Proof.
  split; [|split].
  - intros. apply ProcessUtility_sub_fires_no_trigger.
  - intros rec parsetree queryString isTopLevel sentToRemote secondaryObject
      utilityContext block. subst block. unfold ProcessUtilitySlow_try.
    rewrite !when_true. split.
    + rewrite trace_bind, trace_call. eexists. reflexivity.
    + intros Hok. rewrite trace_bind.
      apply bind_ok_inv in Hok. destruct Hok as [[] [-> Hok]].
      rewrite trace_bind.
      apply bind_ok_inv in Hok. destruct Hok as [[collected address] [-> Hok]].
      rewrite trace_bind.
      apply bind_ok_inv in Hok. destruct Hok as [[] [-> Hok]].
      apply call_bind_ok in Hok. destruct Hok as (_ & Hok & ->).
      rewrite trace_call. rewrite !app_assoc. eexists. reflexivity.
  - intros rec stmt queryString context sentToRemote completionTag Hsup.
    change (silent is_event_trigger
              (standard_ProcessUtility env rec (T_DropStmt stmt) queryString context
                 sentToRemote completionTag)).
    unfold standard_ProcessUtility. rewrite Hsup.
    silent_run plain_leaf; unfold ExecRemoteUtilityStmt, ExecInterXactUtility;
      silent_run plain_leaf.
Qed.

(* ------------------------------------------------------------------ *)
(** ** Placement of GRANT, of RENAME and its like, and of rules *)

Lemma placement_beq_true (p q : RemoteQueryExecType * bool) :
  placement_beq p q = true <-> p = q.
Proof.
  destruct p as [e t], q as [e' t']. unfold placement_beq. cbn [fst snd].
  rewrite andb_true_iff. split.
  - intros [He Ht]. apply internal_RemoteQueryExecType_dec_bl in He.
    apply Bool.eqb_prop in Ht. congruence.
  - intros H. inversion H. split; [destruct e'; reflexivity | apply Bool.eqb_reflx].
Qed.

Lemma GrantStmt_foreach_later (env : Env) (cells : list RangeVar)
    (p : RemoteQueryExecType * bool) :
  forall remoteExecType,
    (remoteExecType = fst p \/ grant_placements env cells <> []) ->
    GrantStmt_foreach env cells false (fst p) remoteExecType (snd p)
    = if forallb (placement_beq p) (grant_placements env cells)
      then ret p else raise GrantMultipleObjectTypes.
Proof.
  unfold grant_placements.
  induction cells as [|relvar rest IH]; intros remoteExecType Hwhy.
  - destruct Hwhy as [-> | Hne]; [destruct p; reflexivity|].
    exfalso. apply Hne. reflexivity.
  - cbn [GrantStmt_foreach map filter].
    destruct (OidIsValid (RangeVarGetRelid env relvar)) eqn:Hv; cbn [negb].
    + cbn [map forallb].
      destruct (ExecUtilityFindNodesRelkind env (RangeVarGetRelid env relvar))
        as [e t] eqn:Hq.
      destruct (placement_beq p (e, t)) eqn:Hsame.
      * apply placement_beq_true in Hsame. subst p. cbn [fst snd].
        replace (RemoteQueryExecType_beq e e) with true by (destruct e; reflexivity).
        rewrite Bool.eqb_reflx. msimpl. apply (IH e). left; reflexivity.
      * assert (negb (RemoteQueryExecType_beq (fst p) e) || negb (Bool.eqb (snd p) t)
                = true) as ->.
        { unfold placement_beq in Hsame. cbn [fst snd] in Hsame.
          destruct (RemoteQueryExecType_beq (fst p) e); [|reflexivity].
          destruct (Bool.eqb (snd p) t); [discriminate|reflexivity]. }
        msimpl. reflexivity.
    + apply IH. destruct Hwhy as [H|H]; [left; exact H|right].
      cbn [map filter] in H. rewrite Hv in H. exact H.
Qed.

(** X17.  GRANT.  On the coordinating entry point, before the grant is
    executed: a GRANT on named relations is placed by the relations that
    exist, each by its kind.  When they are not all placed alike it is
    refused with "PGXC does not support GRANT on multiple object types" and
    nothing has been called.  When they are, it is sent to that placement
    unless they are temporary, in which case nothing is sent.  When none of
    the relations exists, and for every other form of GRANT, it is sent to
    all nodes.  Away from the coordinating entry point the block does
    nothing. *)
Theorem GRANT_placement (env : Env) (stmt : GrantStmt)
    (utilityContext : RemoteUtilityContext) :
  let placed p :=
    when (negb (snd p))
      (ExecRemoteUtilityStmt env
         (set_is_temp (snd p) (set_exec_type (fst p) utilityContext))) in
  GrantStmt_remote env stmt utilityContext
  = if negb (IsCoordMaster env) then ret tt
    else
      match objtype stmt, targtype stmt with
      | ACL_OBJECT_RELATION, ACL_TARGET_OBJECT =>
          match grant_placements env (grant_objects stmt) with
          | [] => placed (EXEC_ON_ALL_NODES, false)
          | p :: rest =>
              if forallb (placement_beq p) rest then placed p
              else raise GrantMultipleObjectTypes
          end
      | _, _ => placed (EXEC_ON_ALL_NODES, false)
      end.
Proof.
  intros placed. subst placed. unfold GrantStmt_remote.
  destruct (IsCoordMaster env); [|reflexivity]. cbn [negb when]. cbv zeta.
  assert (Hloop : forall cells,
    GrantStmt_foreach env cells true EXEC_ON_ALL_NODES EXEC_ON_ALL_NODES false
    = match grant_placements env cells with
      | [] => ret (EXEC_ON_ALL_NODES, false)
      | p :: rest =>
          if forallb (placement_beq p) rest then ret p
          else raise GrantMultipleObjectTypes
      end).
  { unfold grant_placements. induction cells as [|relvar rest IH]; [reflexivity|].
    cbn [GrantStmt_foreach map filter].
    destruct (OidIsValid (RangeVarGetRelid env relvar)) eqn:Hv; cbn [negb];
      [|exact IH].
    cbn [map].
    destruct (ExecUtilityFindNodesRelkind env (RangeVarGetRelid env relvar))
      as [e t] eqn:Hq.
    exact (GrantStmt_foreach_later env rest (e, t) e (or_introl eq_refl)). }
  destruct (objtype stmt); try (rewrite bind_ret_l; reflexivity).
  destruct (targtype stmt); try (rewrite bind_ret_l; reflexivity).
  rewrite Hloop.
  destruct (grant_placements env (grant_objects stmt)) as [|p rest];
    [rewrite bind_ret_l; reflexivity|].
  destruct (forallb (placement_beq p) rest); [|reflexivity].
  rewrite bind_ret_l. destruct p. reflexivity.
Qed.


(** X19.  Rules never reach the data nodes.  The placement of a rule is
    NONE when the relation it is on cannot be found or is temporary, and
    COORDINATORS otherwise; the resolver is never refused.  After CREATE
    RULE, whatever the caller's uninitialised [is_temp] happens to hold,
    nothing is sent when the relation cannot be found or is temporary, and
    what is sent otherwise is placed on the coordinators. *)
Theorem rules_stay_on_coordinators (env : Env) (relation : RangeVar) :
  (forall garbage,
     exists exec_type is_temp,
       GetNodesForRulesUtility env relation garbage = inr (exec_type, is_temp)
       /\ (exec_type = EXEC_ON_NONE \/ exec_type = EXEC_ON_COORDS)
       /\ (exec_type = EXEC_ON_COORDS
           <-> OidIsValid (RangeVarGetRelid env relation) = true
               /\ IsTempTable env (RangeVarGetRelid env relation) = false))
  /\ (forall garbage utilityContext,
        OidIsValid (RangeVarGetRelid env relation) = false
        \/ IsTempTable env (RangeVarGetRelid env relation) = true ->
        RuleStmt_remote env relation garbage utilityContext = ret tt)
  /\ (forall garbage utilityContext,
        OidIsValid (RangeVarGetRelid env relation) = true ->
        IsTempTable env (RangeVarGetRelid env relation) = false ->
        RuleStmt_remote env relation garbage utilityContext
        = when (IsCoordMaster env)
            (ExecRemoteUtilityStmt env
               (set_is_temp false (set_exec_type EXEC_ON_COORDS utilityContext)))).
Proof.
  unfold RuleStmt_remote, GetNodesForRulesUtility, ExecUtilityFindNodes.
  split; [|split].
  - intros garbage.
    destruct (OidIsValid (RangeVarGetRelid env relation));
      [destruct (IsTempTable env (RangeVarGetRelid env relation))|];
      cbn [negb]; eexists; eexists; (split; [reflexivity|]); (split; [auto|]);
      (split; [intros H; try discriminate H; auto
              | intros [H1 H2]; try discriminate H1; try discriminate H2; reflexivity]).
  - intros garbage utilityContext Hwhy.
    destruct (IsCoordMaster env); [|reflexivity]. cbn [when].
    destruct (OidIsValid (RangeVarGetRelid env relation)) eqn:Hv; cbn [negb].
    + destruct Hwhy as [Hwhy| ->]; [discriminate|]. reflexivity.
    + rewrite lift_inr, bind_ret_l.
      destruct garbage; cbn [negb when]; [reflexivity|].
      apply ExecRemoteUtilityStmt_none. reflexivity.
  - intros garbage utilityContext -> ->. cbn [negb].
    rewrite lift_inr, bind_ret_l. reflexivity.
Qed.

(* ------------------------------------------------------------------ *)
(** ** The classifiers *)

(** On the statements of [Node], [Parsetree.check_xact_readonly] is the
    [check_xact_readonly] above. *)
Lemma check_xact_readonly_nodeTag (env : Env) (parsetree : Node) :
  Parsetree.check_xact_readonly env (fun _ => CreateCommandTag parsetree)
    (nodeTag parsetree)
  = check_xact_readonly env parsetree.
Proof. destruct parsetree; reflexivity. Qed.

(** X20. [UtilityContainsQuery] drills down to a query that is no utility
    statement: on a statement as parse analysis leaves it, it returns NULL or
    a [Query] whose [commandType] is not [CMD_UTILITY], however deep EXPLAIN
    and CREATE TABLE AS are nested. *)
Theorem UtilityContainsQuery_drills_down (parsetree : Parsetree.Stmt)
    (Hanalyzed : Parsetree.parse_analyzed parsetree = true) :
  Parsetree.UtilityContainsQuery parsetree = Parsetree.Returns None
  \/ exists commandType utilityStmt,
       commandType <> Parsetree.CMD_UTILITY
       /\ Parsetree.UtilityContainsQuery parsetree
          = Parsetree.Returns
              (Some (Parsetree.Query commandType utilityStmt)).
Proof.
  revert parsetree Hanalyzed.
  fix IH 1.
  intros parsetree Hanalyzed.
  destruct parsetree as [| | | |qry ?|qry| | |]; try (left; reflexivity).
  - destruct qry as [| | | | | | |ct us|]; try discriminate Hanalyzed.
    destruct ct.
    all: try (right; eexists; eexists; split; [|reflexivity]; discriminate).
    destruct us as [stmt|]; [|discriminate Hanalyzed].
    apply (IH stmt Hanalyzed).
  - destruct qry as [| | | | | | |ct us|]; try discriminate Hanalyzed.
    destruct ct.
    all: try (right; eexists; eexists; split; [|reflexivity]; discriminate).
    destruct us as [stmt|]; [|discriminate Hanalyzed].
    apply (IH stmt Hanalyzed).
Qed.

Lemma UtilityContainsQuery_drills_down_witness :
  let select := Parsetree.Query Parsetree.CMD_SELECT None in
  let parsetree :=
    Parsetree.ExplainStmt
      (Parsetree.Query Parsetree.CMD_UTILITY
         (Some (Parsetree.CreateTableAsStmt select))) [] in
  Parsetree.UtilityContainsQuery parsetree = Parsetree.Returns None
  \/ exists commandType utilityStmt,
       commandType <> Parsetree.CMD_UTILITY
       /\ Parsetree.UtilityContainsQuery parsetree
          = Parsetree.Returns
              (Some (Parsetree.Query commandType utilityStmt)).
Proof.
  apply (UtilityContainsQuery_drills_down
           (Parsetree.ExplainStmt
              (Parsetree.Query Parsetree.CMD_UTILITY
                 (Some (Parsetree.CreateTableAsStmt
                          (Parsetree.Query Parsetree.CMD_SELECT None)))) [])).
  reflexivity.
Defined.

(** X21. A statement that [check_xact_readonly] refuses is one
    [GetCommandLogLevel] logs from [log_statement = ddl] or [mod] on, with no
    warning - but for ALTER OPERATOR, which [GetCommandLogLevel] does not
    know: it warns about the node type and answers [LOGSTMT_ALL]. *)
Theorem refused_when_read_only_is_logged_as_a_change
    (env : Env) (CreateCommandTag : Parsetree.Stmt -> string)
    (defGetBoolean : Parsetree.DefElem -> ErrorData + bool)
    (FetchPreparedStatement : string -> option (option Parsetree.Stmt))
    (fuel : nat) (parsetree : Parsetree.Stmt) (e : ErrorData)
    (Hrefused :
       outcome_of (Parsetree.check_xact_readonly env CreateCommandTag
                     parsetree) = Raise e) :
  let level :=
    Parsetree.GetCommandLogLevel defGetBoolean FetchPreparedStatement
      (S fuel) parsetree in
  match parsetree with
  | Parsetree.Other Parsetree.T_AlterOperatorStmt =>
      level = ([Parsetree.unrecognized_node_type
                  Parsetree.T_AlterOperatorStmt],
               Parsetree.Returns Parsetree.LOGSTMT_ALL)
  | _ =>
      level = ([], Parsetree.Returns Parsetree.LOGSTMT_DDL)
      \/ level = ([], Parsetree.Returns Parsetree.LOGSTMT_MOD)
  end.
Proof.
  unfold Parsetree.check_xact_readonly in Hrefused.
  destruct (negb (XactReadOnly env) && negb (IsInParallelMode env));
    [discriminate Hrefused|].
  destruct parsetree as [| | | | |qry| | |tag];
    try discriminate Hrefused.
  - left; reflexivity.
  - destruct tag; try discriminate Hrefused;
      first [reflexivity | left; reflexivity | right; reflexivity].
Qed.

Lemma refused_when_read_only_is_logged_as_a_change_witness :
  Parsetree.GetCommandLogLevel (fun _ => inr false) (fun _ => None) 1
    (Parsetree.Other Parsetree.T_TruncateStmt)
  = ([], Parsetree.Returns Parsetree.LOGSTMT_DDL)
  \/ Parsetree.GetCommandLogLevel (fun _ => inr false) (fun _ => None) 1
       (Parsetree.Other Parsetree.T_TruncateStmt)
     = ([], Parsetree.Returns Parsetree.LOGSTMT_MOD).
Proof.
  apply (refused_when_read_only_is_logged_as_a_change
           (Session.read_only Cluster.coordinator) (fun _ => "TRUNCATE TABLE")
           (fun _ => inr false) (fun _ => None) 0
           (Parsetree.Other Parsetree.T_TruncateStmt)
           (mkError ERRCODE_READ_ONLY_SQL_TRANSACTION
              "cannot execute TRUNCATE TABLE in a read-only transaction")).
  reflexivity.
Defined.

(** X22. [GetCommandLogLevel] never answers [LOGSTMT_NONE], whatever the
    statement and however deep it looks through PREPARE, EXECUTE, EXPLAIN
    ANALYZE and utility queries: with [log_statement = none] no statement is
    logged.  It warns only when it answers [LOGSTMT_ALL]; and a statement
    that [CommandIsReadOnly] calls read-only is [LOGSTMT_ALL], without a
    warning. *)
Theorem GetCommandLogLevel_is_never_none
    (defGetBoolean : Parsetree.DefElem -> ErrorData + bool)
    (FetchPreparedStatement : string -> option (option Parsetree.Stmt))
    (fuel : nat) (parsetree : Parsetree.Stmt)
    (warnings : list Parsetree.Warning) (lev : Parsetree.LogStmtLevel)
    (Hreturns :
       Parsetree.GetCommandLogLevel defGetBoolean FetchPreparedStatement
         fuel parsetree = (warnings, Parsetree.Returns lev)) :
  lev <> Parsetree.LOGSTMT_NONE
  /\ (warnings <> [] -> lev = Parsetree.LOGSTMT_ALL)
  /\ (snd (Parsetree.CommandIsReadOnly parsetree) = true ->
      lev = Parsetree.LOGSTMT_ALL /\ warnings = []).
Proof.
  assert (Hlevel : lev <> Parsetree.LOGSTMT_NONE
                   /\ (warnings <> [] -> lev = Parsetree.LOGSTMT_ALL)).
  { revert parsetree Hreturns.
    induction fuel as [|fuel IH]; intros parsetree Hreturns;
      [discriminate Hreturns|].
    cbn [Parsetree.GetCommandLogLevel] in Hreturns.
    destruct parsetree as [into|is_from|query|name|query options|query
                          |ct rowMarks cte|ct us|tag].
    - destruct into; inversion Hreturns; subst; split; congruence.
    - destruct is_from; inversion Hreturns; subst; split; congruence.
    - apply (IH _ Hreturns).
    - destruct (FetchPreparedStatement name) as [[raw|]|];
        [apply (IH _ Hreturns)| |];
        inversion Hreturns; subst; split; congruence.
    - destruct (Parsetree.ExplainStmt_analyze defGetBoolean options false)
        as [err|[|]];
        [discriminate Hreturns|apply (IH _ Hreturns)|].
      inversion Hreturns; subst; split; congruence.
    - inversion Hreturns; subst; split; congruence.
    - destruct ct; inversion Hreturns; subst; split; congruence.
    - destruct ct; try (inversion Hreturns; subst; split; congruence).
      destruct us as [stmt|]; [apply (IH _ Hreturns)|discriminate Hreturns].
    - destruct tag; inversion Hreturns; subst; split; congruence. }
  destruct Hlevel as [Hnone Hwarn].
  split; [exact Hnone|split; [exact Hwarn|]].
  intros Hro.
  destruct fuel as [|fuel]; [discriminate Hreturns|].
  destruct parsetree as [into|is_from|query|name|query options|query
                        |ct rowMarks cte|ct us|tag];
    try discriminate Hro.
  cbn [Parsetree.GetCommandLogLevel] in Hreturns.
  destruct ct; try discriminate Hro.
  inversion Hreturns; split; reflexivity.
Qed.

Lemma GetCommandLogLevel_is_never_none_witness :
  Parsetree.LOGSTMT_ALL <> Parsetree.LOGSTMT_NONE
  /\ (@nil Parsetree.Warning <> [] ->
      Parsetree.LOGSTMT_ALL = Parsetree.LOGSTMT_ALL)
  /\ (snd (Parsetree.CommandIsReadOnly
             (Parsetree.PlannedStmt Parsetree.CMD_SELECT [] false)) = true ->
      Parsetree.LOGSTMT_ALL = Parsetree.LOGSTMT_ALL
      /\ @nil Parsetree.Warning = []).
Proof.
  apply (GetCommandLogLevel_is_never_none
           (fun _ => inr true) (fun _ => None) 1
           (Parsetree.PlannedStmt Parsetree.CMD_SELECT [] false)).
  reflexivity.
Defined.

Lemma ExplainStmt_analyze_app
    (defGetBoolean : Parsetree.DefElem -> ErrorData + bool)
    (options more : list Parsetree.DefElem) (analyze : bool) :
  Parsetree.ExplainStmt_analyze defGetBoolean (options ++ more) analyze
  = match Parsetree.ExplainStmt_analyze defGetBoolean options analyze with
    | inl e => inl e
    | inr b => Parsetree.ExplainStmt_analyze defGetBoolean more b
    end.
Proof.
  revert analyze; induction options as [|opt options IH]; intros analyze;
    [reflexivity|].
  cbn [app Parsetree.ExplainStmt_analyze].
  destruct (String.eqb (Parsetree.defname opt) "analyze"); [|apply IH].
  destruct (defGetBoolean opt); [reflexivity|apply IH].
Qed.

Lemma ExplainStmt_analyze_readable
    (defGetBoolean : Parsetree.DefElem -> ErrorData + bool)
    (options : list Parsetree.DefElem) (analyze : bool) :
  (forall opt, In opt options -> Parsetree.defname opt = "analyze" ->
               exists b, defGetBoolean opt = inr b) ->
  exists b, Parsetree.ExplainStmt_analyze defGetBoolean options analyze
            = inr b.
Proof.
  revert analyze; induction options as [|opt options IH]; intros analyze H;
    [exists analyze; reflexivity|].
  cbn [Parsetree.ExplainStmt_analyze].
  destruct (String.eqb (Parsetree.defname opt) "analyze") eqn:Hn.
  - apply String.eqb_eq in Hn.
    destruct (H opt (or_introl eq_refl) Hn) as [b ->].
    apply IH; intros o Ho; apply H; right; exact Ho.
  - apply IH; intros o Ho; apply H; right; exact Ho.
Qed.

(** X23. EXPLAIN is logged like the statement it explains exactly when the
    last [analyze] option reads as true; options before it do not count,
    options with another name never count, and without such an option EXPLAIN
    is [LOGSTMT_ALL].  Every [analyze] option is read all the same: one that
    is no boolean makes the call raise. *)
Theorem EXPLAIN_is_logged_by_its_last_analyze
    (defGetBoolean : Parsetree.DefElem -> ErrorData + bool)
    (FetchPreparedStatement : string -> option (option Parsetree.Stmt))
    (fuel : nat) (query : Parsetree.Stmt)
    (before after : list Parsetree.DefElem) (opt : Parsetree.DefElem) :
  let level :=
    Parsetree.GetCommandLogLevel defGetBoolean FetchPreparedStatement in
  let is_analyze o := String.eqb (Parsetree.defname o) "analyze" in
  (existsb is_analyze after = false ->
   level (S fuel) (Parsetree.ExplainStmt query after)
   = ([], Parsetree.Returns Parsetree.LOGSTMT_ALL))
  /\ (is_analyze opt = true ->
      existsb is_analyze after = false ->
      (forall o, In o before -> is_analyze o = true ->
                 exists b, defGetBoolean o = inr b) ->
      level (S fuel) (Parsetree.ExplainStmt query (before ++ opt :: after))
      = match defGetBoolean opt with
        | inl e => ([], Parsetree.Throws e)
        | inr true => level fuel query
        | inr false => ([], Parsetree.Returns Parsetree.LOGSTMT_ALL)
        end)
  /\ (is_analyze opt = true ->
      forall e, defGetBoolean opt = inl e ->
      exists e',
        level (S fuel) (Parsetree.ExplainStmt query (before ++ opt :: after))
        = ([], Parsetree.Throws e')).
Proof.
  cbv zeta.
  assert (Hskip : forall l analyze,
             existsb (fun o => String.eqb (Parsetree.defname o) "analyze")
               l = false ->
             Parsetree.ExplainStmt_analyze defGetBoolean l analyze
             = inr analyze).
  { induction l as [|o l IH]; intros analyze H; [reflexivity|].
    cbn [existsb] in H. apply orb_false_iff in H. destruct H as [Ho Hl].
    cbn [Parsetree.ExplainStmt_analyze]. rewrite Ho. apply IH, Hl. }
  split; [|split].
  - intros Hnone. cbn [Parsetree.GetCommandLogLevel].
    rewrite Hskip by exact Hnone. reflexivity.
  - intros Hopt Hnone Hread. cbn [Parsetree.GetCommandLogLevel].
    rewrite ExplainStmt_analyze_app.
    destruct (ExplainStmt_analyze_readable defGetBoolean before false)
      as [b0 ->].
    { intros o Ho Hn. apply Hread; [exact Ho|].
      rewrite Hn. reflexivity. }
    cbn [Parsetree.ExplainStmt_analyze]. rewrite Hopt.
    destruct (defGetBoolean opt) as [e|b]; [reflexivity|].
    rewrite Hskip by exact Hnone. reflexivity.
  - intros Hopt e He. cbn [Parsetree.GetCommandLogLevel].
    rewrite ExplainStmt_analyze_app.
    destruct (Parsetree.ExplainStmt_analyze defGetBoolean before false)
      as [e0|b0]; [exists e0; reflexivity|].
    cbn [Parsetree.ExplainStmt_analyze]. rewrite Hopt, He.
    exists e; reflexivity.
Qed.
